(** * video-ffmpeg-poc: the operation-to-command compiler

    A shallow embedding of [services/ffmpeg_service.py] in its two variants
    (CPU-Powered-POC and Integrated-GPU-Powered-POC): the query parser, the
    codec/container selector, the filter-chain compiler with its watermark
    stage, and the assembly of the final ffmpeg argument vector.

    Layout: a small model of the Python built-ins the code relies on
    ([Py]), the process configuration ([Config]), the two variants ([CPU],
    [GPU]), and then the properties. *)

From Stdlib Require Import ZArith String Ascii List Bool Lia.
From Stdlib Require Import SpecFloat.
From stdpp Require Import gmap strings list fin_maps pretty.

Local Open Scope string_scope.
Local Open Scope list_scope.
Local Open Scope Z_scope.

(* ===================================================================== *)
(** * The Python built-ins used by the service *)
(* ===================================================================== *)

(** Text is modelled as ASCII: [str] methods are given on code points
    below 128 and leave other characters alone. Integers are unbounded
    ([Z]); floats are IEEE binary64 values ([spec_float] at precision 53). *)

Module Py.

(** ** Exceptions *)

Inductive exn : Set :=
| ValueError
| OverflowError
| AttributeError
| NameError.

Inductive result (A : Type) : Type :=
| Ok (a : A)
| Raise (e : exn).
Arguments Ok {A} a.
Arguments Raise {A} e.

(** Sequencing: an exception raised by the first computation propagates.
    With these instances stdpp's [x ← r; k] notation is available. *)
#[global] Instance result_ret : MRet result := fun A a => Ok a.
#[global] Instance result_bind : MBind result := fun A B k r =>
  match r with
  | Ok a => k a
  | Raise e => Raise e
  end.

(** ** [str] *)

Definition ord (c : ascii) : Z := Z.of_nat (nat_of_ascii c).

(** [str.isspace] on one ASCII character: TAB..CR, FS..US and the space. *)
Definition isspace (c : ascii) : bool :=
  let n := ord c in
  ((9 <=? n) && (n <=? 13)) || ((28 <=? n) && (n <=? 32)).

(** The white space [int] and [float] skip around a literal: TAB..CR and
    the space. *)
Definition isspace_literal (c : ascii) : bool :=
  let n := ord c in
  ((9 <=? n) && (n <=? 13)) || (n =? 32).

Definition is_digit (c : ascii) : bool :=
  let n := ord c in (48 <=? n) && (n <=? 57).

Definition digit_val (c : ascii) : option Z :=
  if is_digit c then Some (ord c - 48) else None.

Definition lower_char (c : ascii) : ascii :=
  let n := ord c in
  if (65 <=? n) && (n <=? 90) then ascii_of_nat (Z.to_nat (n + 32)) else c.

Fixpoint lower (s : string) : string :=
  match s with
  | "" => ""
  | String c r => String (lower_char c) (lower r)
  end.

(** Stripping the characters that [sp] holds for white space from both
    ends. *)
Fixpoint lstrip_by (sp : ascii -> bool) (s : string) : string :=
  match s with
  | "" => ""
  | String c r => if sp c then lstrip_by sp r else s
  end.

Fixpoint rstrip_by (sp : ascii -> bool) (s : string) : string :=
  match s with
  | "" => ""
  | String c r =>
      match rstrip_by sp r with
      | "" => if sp c then "" else String c ""
      | r' => String c r'
      end
  end.

(** [s.strip()]. *)
Definition strip (s : string) : string :=
  rstrip_by isspace (lstrip_by isspace s).

(** [c in s] for a one-character pattern. *)
Fixpoint contains (c : ascii) (s : string) : bool :=
  match s with
  | "" => false
  | String a r => if Ascii.eqb a c then true else contains c r
  end.

Fixpoint all_digits (s : string) : bool :=
  match s with
  | "" => true
  | String c r => is_digit c && all_digits r
  end.

(** [str.isdigit]: at least one character, all of them digits. *)
Definition isdigit (s : string) : bool :=
  match s with
  | "" => false
  | _ => all_digits s
  end.

(** [s.split(sep)] for a one-character separator. *)
Fixpoint split (sep : ascii) (s : string) : list string :=
  match s with
  | "" => [""]
  | String c r =>
      if Ascii.eqb c sep then "" :: split sep r
      else match split sep r with
           | w :: ws => String c w :: ws
           | [] => [String c ""]
           end
  end.

(** [s.split(sep, 1)]: cut at the first separator, if there is one. *)
Fixpoint split1 (sep : ascii) (s : string) : list string :=
  match s with
  | "" => [""]
  | String c r =>
      if Ascii.eqb c sep then [""; r]
      else match split1 sep r with
           | w :: ws => String c w :: ws
           | [] => [String c ""]
           end
  end.

(** [sep.join(l)]. *)
Fixpoint join (sep : string) (l : list string) : string :=
  match l with
  | [] => ""
  | [x] => x
  | x :: xs => x +:+ sep +:+ join sep xs
  end.

(** [s.replace(c, t)] for a one-character pattern. *)
Fixpoint replace (c : ascii) (t : string) (s : string) : string :=
  match s with
  | "" => ""
  | String a r => (if Ascii.eqb a c then t else String a "") +:+ replace c t r
  end.

(** [s[:n]]. *)
Fixpoint take_str (n : nat) (s : string) : string :=
  match n, s with
  | S n', String c r => String c (take_str n' r)
  | _, _ => ""
  end.

(** [s in (a, b, ...)]. *)
Definition str_in (s : string) (l : list string) : bool :=
  existsb (String.eqb s) l.

(** ** [int] *)

(** [str(n)]. *)
Definition str_of_int (n : Z) : string := pretty n.

(** The digits of an integer literal after its first digit: digits, with
    single underscores allowed between two digits. *)
Fixpoint int_digits (acc : Z) (s : string) : option Z :=
  match s with
  | "" => Some acc
  | String c r =>
      match digit_val c with
      | Some d => int_digits (10 * acc + d) r
      | None =>
          if Ascii.eqb c "_" then
            match r with
            | String c' r' =>
                match digit_val c' with
                | Some d => int_digits (10 * acc + d) r'
                | None => None
                end
            | "" => None
            end
          else None
      end
  end.

Definition int_unsigned (s : string) : option Z :=
  match s with
  | String c r => match digit_val c with
                  | Some d => int_digits d r
                  | None => None
                  end
  | "" => None
  end.

(** [sys.get_int_max_str_digits()]: the interpreter (CPython 3.10.7 and
    later; the service needs 3.10 or later) refuses to convert between
    [str] and [int] beyond this many digits. 4300 is its default. *)
Definition int_max_str_digits : Z := 4300.

(** The number of digits of a literal; leading zeros count, signs and
    underscores do not. *)
Fixpoint count_digits (s : string) : Z :=
  match s with
  | "" => 0
  | String c r => (if is_digit c then 1 else 0) + count_digits r
  end.

(** [int(s)] for a string: surrounding whitespace, an optional sign, a
    decimal literal of at most [int_max_str_digits] digits; anything else
    is a [ValueError]. *)
Definition int_of_str (s : string) : result Z :=
  let s := rstrip_by isspace_literal (lstrip_by isspace_literal s) in
  let r := match s with
           | String "-" r => option_map Z.opp (int_unsigned r)
           | String "+" r => int_unsigned r
           | _ => int_unsigned s
           end in
  match r with
  | Some n => if int_max_str_digits <? count_digits s then Raise ValueError
              else Ok n
  | None => Raise ValueError
  end.

(** ** [float] *)

Definition float : Set := spec_float.

Definition fmul : float -> float -> float := SFmul 53 1024.
Definition fdiv : float -> float -> float := SFdiv 53 1024.

Definition float_eqb (x y : float) : bool :=
  match x, y with
  | S754_zero a, S754_zero b => Bool.eqb a b
  | S754_infinity a, S754_infinity b => Bool.eqb a b
  | S754_finite a m e, S754_finite b n f => Bool.eqb a b && Pos.eqb m n && (e =? f)
  | _, _ => false
  end.

(** [float(n)] for an integer: the nearest float, [OverflowError] when the
    integer is too large. *)
Definition float_of_int (n : Z) : result float :=
  match binary_normalize 53 1024 n 0 false with
  | S754_infinity _ => Raise OverflowError
  | f => Ok f
  end.

(** [int(x)] for a float: truncation towards zero. *)
Definition int_of_float (x : float) : result Z :=
  match x with
  | S754_zero _ => Ok 0
  | S754_infinity _ => Raise OverflowError
  | S754_nan => Raise ValueError
  | S754_finite s m e =>
      let a := if 0 <=? e then Z.pos m * 2 ^ e else Z.pos m / 2 ^ (- e) in
      Ok (if s then - a else a)
  end.

(** The float nearest to [m * 10^e] (ties to even), with the sign [neg]. *)
Definition float_of_decimal (neg : bool) (m e : Z) : float :=
  match m with
  | Z.pos p =>
      if 0 <=? e then
        match binary_normalize 53 1024 (Z.pos p * 10 ^ e) 0 false with
        | S754_finite _ q x => S754_finite neg q x
        | S754_infinity _ => S754_infinity neg
        | f => f
        end
      else
        SFdiv 53 1024 (S754_finite neg p 0)
                      (S754_finite false (Z.to_pos (10 ^ (- e))) 0)
  | _ => S754_zero neg
  end.

(** A run of digits in which single underscores may separate two digits:
    its value, the number of digits, and what follows it. *)
Fixpoint digitpart_go (acc n : Z) (s : string) : Z * Z * string :=
  match s with
  | "" => (acc, n, "")
  | String c r =>
      match digit_val c with
      | Some d => digitpart_go (10 * acc + d) (n + 1) r
      | None =>
          if Ascii.eqb c "_" then
            match r with
            | String c' r' =>
                match digit_val c' with
                | Some d => digitpart_go (10 * acc + d) (n + 1) r'
                | None => (acc, n, s)
                end
            | "" => (acc, n, s)
            end
          else (acc, n, s)
      end
  end.

Definition digitpart (s : string) : Z * Z * string :=
  match s with
  | String c r => match digit_val c with
                  | Some d => digitpart_go d 1 r
                  | None => (0, 0, s)
                  end
  | "" => (0, 0, "")
  end.

(** A decimal floating-point literal without its sign, as mantissa and
    power of ten: digits, an optional point and digits, an optional
    exponent. *)
Definition float_literal (s : string) : option (Z * Z) :=
  let '(i, ni, r1) := digitpart s in
  let '(f, nf, r2) := match r1 with
                      | String "." r => digitpart r
                      | _ => (0, 0, r1)
                      end in
  if ni + nf =? 0 then None
  else
    let m := i * 10 ^ nf + f in
    match r2 with
    | "" => Some (m, - nf)
    | String c r =>
        if Ascii.eqb (lower_char c) "e" then
          let '(neg, r') := match r with
                            | String "-" t => (true, t)
                            | String "+" t => (false, t)
                            | _ => (false, r)
                            end in
          let '(x, nx, r3) := digitpart r' in
          if nx =? 0 then None
          else match r3 with
               | "" => Some (m, (if neg then - x else x) - nf)
               | _ => None
               end
        else None
    end.

(** [float(s)] for a string; [ValueError] when [s] is not a float literal. *)
Definition float_of_str (s : string) : result float :=
  let s := rstrip_by isspace_literal (lstrip_by isspace_literal s) in
  let '(neg, body) := match s with
                      | String "-" r => (true, r)
                      | String "+" r => (false, r)
                      | _ => (false, s)
                      end in
  if str_in (lower body) ["inf"; "infinity"] then Ok (S754_infinity neg)
  else if String.eqb (lower body) "nan" then Ok S754_nan
  else match float_literal body with
       | Some (m, e) => Ok (float_of_decimal neg m e)
       | None => Raise ValueError
       end.

(** *** Printing floats *)

Definition round_half_even (num den : Z) : Z :=
  let q := num / den in
  match 2 * (num mod den) ?= den with
  | Lt => q
  | Gt => q + 1
  | Eq => if Z.even q then q else q + 1
  end.

(** [m * 2^e] as a fraction, and a fraction scaled by a power of ten. *)
Definition fraction (m : positive) (e : Z) : Z * Z :=
  if 0 <=? e then (Z.pos m * 2 ^ e, 1) else (Z.pos m, 2 ^ (- e)).

Definition scale10 (x : Z * Z) (k : Z) : Z * Z :=
  if 0 <=? k then (fst x * 10 ^ k, snd x) else (fst x, snd x * 10 ^ (- k)).

Definition ndigits (n : Z) : Z := Z.of_nat (String.length (str_of_int n)).

Fixpoint leading_zeros (fuel : nat) (num den j : Z) : Z :=
  match fuel with
  | O => j
  | S fuel' => if den <=? num then j
               else leading_zeros fuel' (10 * num) den (j + 1)
  end.

(** The position of the decimal point: [10^(k-1) <= num/den < 10^k]. *)
Definition decpt (x : Z * Z) : Z :=
  let j := leading_zeros 400 (fst x) (snd x) 0 in
  if j =? 0 then ndigits (fst x / snd x) else 1 - j.

(** The shortest decimal [d * 10^x] that reads back as [m * 2^e], trying
    1 to 17 significant digits; among the two neighbours with that many
    digits the nearer one is tried first. *)
Fixpoint shortest (fuel : nat) (n : Z) (m : positive) (e : Z) : Z * Z :=
  let fr := fraction m e in
  let k := decpt fr in
  let s := scale10 fr (n - k) in
  let d := round_half_even (fst s) (snd s) in
  let q := fst s / snd s in
  let d' := if d =? q then q + 1 else q in
  let back c := float_eqb (float_of_decimal false c (k - n))
                          (S754_finite false m e) in
  match fuel with
  | O => (d, k - n)
  | S fuel' =>
      if back d then (d, k - n)
      else if back d' then (d', k - n)
      else shortest fuel' (n + 1) m e
  end.

Fixpoint rstrip_zeros_rev (s : string) : string :=
  match s with
  | String "0" r => rstrip_zeros_rev r
  | _ => s
  end.

Definition rstrip_zeros (s : string) : string :=
  String.rev (rstrip_zeros_rev (String.rev s)).

Fixpoint zeros (n : nat) : string :=
  match n with
  | O => ""
  | S n' => String "0" (zeros n')
  end.

Fixpoint drop_str (n : nat) (s : string) : string :=
  match n, s with
  | S n', String _ r => drop_str n' r
  | _, _ => s
  end.

(** [repr(x)], which is also [str(x)] and what an f-string prints. *)
Definition float_repr (x : float) : string :=
  match x with
  | S754_zero s => if s then "-0.0" else "0.0"
  | S754_infinity s => if s then "-inf" else "inf"
  | S754_nan => "nan"
  | S754_finite s m e =>
      let '(d, x10) := shortest 16 1 m e in
      let all := str_of_int d in
      let pt := Z.of_nat (String.length all) + x10 in
      let ds := rstrip_zeros all in
      let nd := Z.of_nat (String.length ds) in
      let body :=
        if (pt <=? -4) || (16 <? pt) then
          let ex := pt - 1 in
          let mant := match ds with
                      | String c "" => String c ""
                      | String c r => String c ("." +:+ r)
                      | "" => ""
                      end in
          let exs := str_of_int (Z.abs ex) in
          mant +:+ "e" +:+ (if ex <? 0 then "-" else "+")
               +:+ (if Z.abs ex <? 10 then "0" else "") +:+ exs
        else if pt <=? 0 then "0." +:+ zeros (Z.to_nat (- pt)) +:+ ds
        else if nd <=? pt then ds +:+ zeros (Z.to_nat (pt - nd)) +:+ ".0"
        else take_str (Z.to_nat pt) ds +:+ "." +:+ drop_str (Z.to_nat pt) ds in
      (if s then "-" else "") +:+ body
  end.

(** [format(x, ".2f")]. *)
Definition float_fmt2 (x : float) : string :=
  match x with
  | S754_zero s => if s then "-0.00" else "0.00"
  | S754_infinity s => if s then "-inf" else "inf"
  | S754_nan => "nan"
  | S754_finite s m e =>
      let sc := scale10 (fraction m e) 2 in
      let ds := str_of_int (round_half_even (fst sc) (snd sc)) in
      let ds := zeros (3 - String.length ds) +:+ ds in
      let n := (String.length ds - 2)%nat in
      (if s then "-" else "") +:+ take_str n ds +:+ "." +:+ drop_str n ds
  end.

(** The nearest float to an integer ([inf] beyond the largest float) and a
    float constant written as in the source. *)
Definition to_float (n : Z) : float := binary_normalize 53 1024 n 0 false.

Definition float_lit (s : string) : float :=
  match float_of_str s with
  | Ok x => x
  | Raise _ => S754_nan
  end.

(** ** Values of operation arguments: [bool], [int], [float] or [str]

    An [int] argument is one the interpreter can print: every integer the
    parser or [int] of a float yields has at most [int_max_str_digits]
    digits, and [str] is given on those. *)

Inductive value : Set :=
| VBool (b : bool)
| VInt (n : Z)
| VFloat (x : float)
| VStr (s : string).

(** [str(v)], also what [f"{v}"] prints. *)
Definition py_str (v : value) : string :=
  match v with
  | VBool true => "True"
  | VBool false => "False"
  | VInt n => str_of_int n
  | VFloat x => float_repr x
  | VStr s => s
  end.

(** Truth value of [v] in a condition. *)
Definition truthy (v : value) : bool :=
  match v with
  | VBool b => b
  | VInt n => negb (n =? 0)
  | VFloat (S754_zero _) => false
  | VFloat _ => true
  | VStr s => negb (String.eqb s "")
  end.

(** [int(v)]. *)
Definition py_int (v : value) : result Z :=
  match v with
  | VBool b => Ok (if b then 1 else 0)
  | VInt n => Ok n
  | VFloat x => int_of_float x
  | VStr s => int_of_str s
  end.

(** [os.path.join(a, b)] on POSIX paths. *)
Definition path_join (a b : string) : string :=
  match b with
  | String "/" _ => b
  | _ => if String.eqb a "" then b
         else match String.rev a with
              | String "/" _ => a +:+ b
              | _ => a +:+ "/" +:+ b
              end
  end.

End Py.

Import Py.

(** An operation descriptor: a [dict] from argument names to values, the
    operation name stored under the key ["op"]. *)
Abbreviation descriptor := (gmap string value).

(** [op.get(k, d)]; [k in op] and [op[k]] are read off [op !! k]. *)
Definition get (op : descriptor) (k : string) (d : value) : value :=
  default d (op !! k).

Local Notation "a == b" := (String.eqb a b) (at level 70, no associativity).

(* ===================================================================== *)
(** * Process configuration *)
(* ===================================================================== *)

(** The module-level constants both variants read from the environment at
    import time. The CPU variant defines [FFMPEG] and the [WM_*] constants
    except [WM_ENABLED]; the GPU variant defines all of them. The name
    [VAAPI_DEVICE], which the GPU variant reads in [_base_cmd], is defined
    nowhere and is therefore no setting. *)
Record Config : Set := mkConfig {
  FFMPEG : string;
  ENCODER : string;
  DEFAULT_CRF : string;
  DEFAULT_PRESET : string;
  WM_ENABLED : bool;
  WM_TEXT : string;
  WM_IMAGE : string;
  WM_FONT : string;
  WM_FONTSIZE : Z;
  WM_OPACITY : Z;
  WM_INSET : Z
}.

(** The side effects of one job, in order, and what [process_video]
    returns: the path of the deliverable and its media type. [ZipDir]
    stands for the call of [_zip_dir] on the directory as the engine left
    it. *)
Inductive effect : Set :=
| MakeDirs (path : string)
| RunEngine (argv : list string)
| ZipDir (src_dir zip_path : string).

Record outcome : Set := mkOutcome {
  effects : list effect;
  out_path : string;
  media_type : string
}.

(** [_zip_dir], the same in both variants: the names of the archive's
    entries for a source directory with the given contents. [os.walk]
    visits a directory's files before its sub-directories, and every file
    is stored under its path relative to the source directory. *)
Unset Elimination Schemes.
Inductive node : Set :=
| File (name : string)
| Dir (name : string) (children : list node).
Set Elimination Schemes.

Definition rel_join (rel name : string) : string :=
  if rel == "" then name else rel +:+ "/" +:+ name.

Definition files_here (rel : string) (children : list node) : list string :=
  flat_map (fun c => match c with
                     | File f => [rel_join rel f]
                     | Dir _ _ => []
                     end) children.

Fixpoint walk (rel : string) (n : node) : list string :=
  match n with
  | File _ => []
  | Dir name children =>
      files_here (rel_join rel name) children
        ++ flat_map (walk (rel_join rel name)) children
  end.

Definition _zip_dir (contents : list node) : list string :=
  files_here "" contents ++ flat_map (walk "") contents.

(** The media-type table at the end of [process_video], the same in both
    variants. *)
Definition media_type_of (container : string) : string :=
  if container == "mp4" then "video/mp4"
  else if container == "webm" then "video/webm"
  else if container == "mkv" then "video/x-matroska"
  else if container == "mov" then "video/quicktime"
  else if container == "gif" then "image/gif"
  else if container == "m3u8" then "application/vnd.apple.mpegurl"
  else "application/octet-stream".

(** [_escape_drawtext], the same in both variants. *)
Definition _escape_drawtext (s : string) : string :=
  replace "'" "\'" (replace ":" "\:" (replace "\" "\\" s)).

(** The drawtext filter of the text watermark, the same in both variants. *)
Definition wm_alpha (cfg : Config) : float :=
  fdiv (to_float (Z.max 0 (Z.min 100 (WM_OPACITY cfg)))) (float_lit "100.0").

Definition wm_draw (cfg : Config) : string :=
  let alpha := wm_alpha cfg in
  let txt := _escape_drawtext (WM_TEXT cfg) in
  let fill := "white@" +:+ float_fmt2 alpha in
  let stroke := "black@" +:+ float_fmt2 (fmul alpha (float_lit "0.6")) in
  "drawtext=fontfile='" +:+ WM_FONT cfg +:+ "':text='" +:+ txt
    +:+ "':fontsize=" +:+ str_of_int (WM_FONTSIZE cfg)
    +:+ ":fontcolor=" +:+ fill +:+ ":borderw=2:bordercolor=" +:+ stroke
    +:+ ":x=w-tw-" +:+ str_of_int (WM_INSET cfg)
    +:+ ":y=h-th-" +:+ str_of_int (WM_INSET cfg).

(** The two-input overlay graph of the image watermark. *)
Definition wm_chain (cfg : Config) : string :=
  "[1:v]format=rgba,colorchannelmixer=aa=" +:+ float_repr (wm_alpha cfg)
    +:+ "[wm];[0:v][wm]overlay=W-w-" +:+ str_of_int (WM_INSET cfg)
    +:+ ":H-h-" +:+ str_of_int (WM_INSET cfg) +:+ "[vout]".

(** [WM_IMAGE and os.path.exists(WM_IMAGE)], for a file system given by
    the paths that exist. *)
Definition image_usable (cfg : Config) (path_exists : string -> bool) : bool :=
  negb (WM_IMAGE cfg == "") && path_exists (WM_IMAGE cfg).

(** The state of the loop over the operations in
    [_apply_ops_and_watermark]. *)
Record state : Set := mkState {
  cmd : list string;
  vf_filters : list string;
  forced_ext : option string;
  is_hls : bool;
  vcodec_args : list string;
  acodec_args : list string
}.

Definition add_cmd (st : state) (l : list string) : state :=
  mkState (cmd st ++ l) (vf_filters st) (forced_ext st) (is_hls st)
          (vcodec_args st) (acodec_args st).

Definition add_vf (st : state) (f : string) : state :=
  mkState (cmd st) (vf_filters st ++ [f]) (forced_ext st) (is_hls st)
          (vcodec_args st) (acodec_args st).

Definition add_vcodec (st : state) (l : list string) : state :=
  mkState (cmd st) (vf_filters st) (forced_ext st) (is_hls st)
          (vcodec_args st ++ l) (acodec_args st).

Definition add_acodec (st : state) (l : list string) : state :=
  mkState (cmd st) (vf_filters st) (forced_ext st) (is_hls st)
          (vcodec_args st) (acodec_args st ++ l).

Definition set_format (st : state) (ext : string) : state :=
  mkState (cmd st) (vf_filters st) (Some ext)
          (if str_in ext ["hls"; "m3u8"] then true else is_hls st)
          (vcodec_args st) (acodec_args st).

(** [if not forced_ext: forced_ext = "png"]. *)
Definition default_png (st : state) : state :=
  mkState (cmd st) (vf_filters st)
          (match forced_ext st with
           | None | Some "" => Some "png"
           | Some e => Some e
           end)
          (is_hls st) (vcodec_args st) (acodec_args st).

(** [forced_ext or "mp4"]. *)
Definition ext_or_mp4 (e : option string) : string :=
  match e with
  | None | Some "" => "mp4"
  | Some e => e
  end.

(** The rotate branch, the same in both variants. *)
Definition rotate_op (st : state) (op : descriptor) : result state :=
  deg ← py_int (get op "degrees" (VInt 0));
  if deg mod 90 =? 0 then
    if deg =? 90 then Ok (add_vf st "transpose=1")
    else if deg =? 180 then Ok (add_vf st "transpose=1,transpose=1")
    else if deg =? 270 then Ok (add_vf st "transpose=2")
    else Ok st
  else
    x ← float_of_int deg;
    let rad := fdiv (fmul x (float_lit "3.14159265")) (float_lit "180.0") in
    Ok (add_vf st ("rotate=" +:+ float_repr rad +:+ ":fillcolor=black")).

(* ===================================================================== *)
(** * CPU-Powered-POC/services/ffmpeg_service.py *)
(* ===================================================================== *)

Module CPU.

(** ** [parse_ops_query] *)

(** The coercion of one argument value (already stripped). The [try] of
    the source covers both conversions; a failed one leaves the string. *)
Definition coerce (v : string) : value :=
  if str_in (lower v) ["true"; "false"] then VBool (lower v == "true")
  else if isdigit v then
    match int_of_str v with
    | Ok n => VInt n
    | Raise _ => VStr v
    end
  else if contains "." v then
    match float_of_str v with
    | Ok x => VFloat x
    | Raise _ => VStr v
    end
  else VStr v.

(** One [part] of the argument list. *)
Definition parse_part (item : descriptor) (part : string) : descriptor :=
  if part == "" then item
  else if contains "=" part then
    match split1 "=" part with
    | k :: v :: _ => <[strip k := coerce (strip v)]> item
    | _ => item
    end
  else <[strip part := VBool true]> item.

(** [(raw.split(":", 1) + [""])[:2]]. *)
Definition name_and_args (raw : string) : string * string :=
  match split1 ":" raw ++ [""] with
  | name :: args :: _ => (name, args)
  | _ => (raw, "")
  end.

Definition parse_item (raw : string) : descriptor :=
  let '(name, args) := name_and_args raw in
  let item : descriptor := {["op" := VStr (strip name)]} in
  if args == "" then item
  else foldl parse_part item (split "," args).

Fixpoint parse_ops_query (op_params : list string) : list descriptor :=
  match op_params with
  | [] => []
  | raw :: rest =>
      if raw == "" then parse_ops_query rest
      else parse_item raw :: parse_ops_query rest
  end.

(** ** Command builders *)

Section WithConfig.
Variable cfg : Config.
Variable path_exists : string -> bool.

Definition _base_cmd (in_path : string) : list string :=
  [FFMPEG cfg; "-hide_banner"; "-nostdin"; "-y"; "-loglevel"; "error";
   "-i"; in_path].

Definition _choose_container_and_codecs (fmt : string)
  : string * list string :=
  let fmt := lower (if fmt == "" then "mp4" else fmt) in
  if str_in fmt ["mp4"; "m4v"; "mov"] then
    ("mp4", ["-c:v"; "libx264"; "-c:a"; "aac"; "-movflags"; "+faststart"])
  else if str_in fmt ["webm"] then
    ("webm", ["-c:v"; "libvpx-vp9"; "-row-mt"; "1"; "-c:a"; "libopus"])
  else if str_in fmt ["mkv"] then
    ("mkv", ["-c:v"; "libx264"; "-c:a"; "aac"])
  else if str_in fmt ["gif"] then
    ("gif", ["-an"; "-loop"; "0"])
  else if str_in fmt ["hls"; "m3u8"] then
    ("m3u8", ["-c:v"; "libx264"; "-c:a"; "aac"; "-f"; "hls";
              "-hls_time"; "4"; "-hls_list_size"; "0"])
  else
    ("mp4", ["-c:v"; "libx264"; "-c:a"; "aac"; "-movflags"; "+faststart"]).

(** [op.get("op","").lower()]: a name that is not a string has no
    [lower]. *)
Definition op_name (op : descriptor) : result string :=
  match get op "op" (VStr "") with
  | VStr s => Ok (lower s)
  | _ => Raise AttributeError
  end.

(** The names the loop has a branch for. *)
Definition recognized : list string :=
  ["format"; "scale"; "resize"; "fps"; "crop"; "bitrate"; "crf"; "preset";
   "audio"; "rotate"; "grayscale"; "monochrome"; "thumbnail"].

(** The body of the loop over the operations. The statement
    [cmd[0:0] = []] of the thumbnail branch changes nothing and is left
    out. *)
Definition apply_op (st : state) (op : descriptor) : result state :=
  name ← op_name op;
  if name == "format" then
    Ok (set_format st (lower (py_str (get op "type" (VStr "mp4")))))
  else if (name == "scale") || (name == "resize") then
    let w := get op "width" (VInt (-2)) in
    let h := get op "height" (VInt (-2)) in
    Ok (add_vf st ("scale=" +:+ py_str w +:+ ":" +:+ py_str h))
  else if name == "fps" then
    Ok (add_vf st ("fps=" +:+ py_str (get op "value" (VInt 30))))
  else if name == "crop" then
    let w := get op "width" (VStr "iw") in
    let h := get op "height" (VStr "ih") in
    let x := get op "x" (VStr "(iw-ow)/2") in
    let y := get op "y" (VStr "(ih-oh)/2") in
    Ok (add_vf st ("crop=" +:+ py_str w +:+ ":" +:+ py_str h +:+ ":"
                     +:+ py_str x +:+ ":" +:+ py_str y))
  else if name == "bitrate" then
    let st := match op !! "video" with
              | Some v => add_vcodec st ["-b:v"; py_str v]
              | None => st
              end in
    Ok (match op !! "audio" with
        | Some a => add_acodec st ["-b:a"; py_str a]
        | None => st
        end)
  else if name == "crf" then
    Ok (add_vcodec st ["-crf"; py_str (get op "value" (VInt 23))])
  else if name == "preset" then
    Ok (add_vcodec st ["-preset"; py_str (get op "value" (VStr "veryfast"))])
  else if name == "audio" then
    Ok (if truthy (get op "remove" (VBool false)) then add_cmd st ["-an"]
        else st)
  else if name == "rotate" then rotate_op st op
  else if str_in name ["grayscale"; "monochrome"] then
    Ok (add_vf st "format=gray")
  else if name == "thumbnail" then
    let t := get op "at" (VInt 1) in
    Ok (default_png (add_cmd st ["-ss"; py_str t; "-frames:v"; "1"]))
  else Ok st.

Fixpoint run_ops (st : state) (ops : list descriptor) : result state :=
  match ops with
  | [] => Ok st
  | op :: rest => st' ← apply_op st op; run_ops st' rest
  end.

Definition init_state (cmd : list string) : state :=
  mkState cmd [] None false [] [].

(** The watermark stage: always applied, as an overlay graph when the
    configured image exists and as a drawtext filter otherwise. It yields
    the state after it, [complex_inputs] and [vf_or_complex]. *)
Definition watermark (st : state)
  : state * list string * option (string * string * string * string) :=
  if image_usable cfg path_exists then
    (add_cmd st ["-map"; "0:a?"], ["-i"; WM_IMAGE cfg],
     Some ("-filter_complex", wm_chain cfg, "-map", "[vout]"))
  else (add_vf st (wm_draw cfg), [], None).

(** The command after the loop and the watermark: the second input, the
    linear chain when there is no graph, the codec overrides. *)
Definition assemble (st : state) (complex_inputs : list string)
  : list string :=
  let c := cmd st ++ complex_inputs in
  let c := match vf_filters st, complex_inputs with
           | _ :: _, [] => c ++ ["-vf"; join "," (vf_filters st)]
           | _, _ => c
           end in
  c ++ vcodec_args st ++ acodec_args st.

(** [_apply_ops_and_watermark]: the command so far, the forced extension,
    the first three graph arguments when the overlay is used, and the
    segmented-output flag. Its parameters [in_path] and [tmpdir] are not
    used by the source. *)
Definition _apply_ops_and_watermark (cmd0 : list string)
    (ops : list descriptor)
  : result (list string * option string
            * option (string * string * string) * bool) :=
  st ← run_ops (init_state cmd0) ops;
  let '(st, complex_inputs, vf_or_complex) := watermark st in
  Ok (assemble st complex_inputs, forced_ext st,
      match vf_or_complex, complex_inputs with
      | Some (a, b, c3, _), _ :: _ => Some (a, b, c3)
      | _, _ => None
      end,
      is_hls st).

Definition tuple_list (t : option (string * string * string)) : list string :=
  match t with
  | Some (a, b, c) => [a; b; c]
  | None => []
  end.

(** [process_video], with [uuid4_hex n] the [n]-th [uuid.uuid4().hex] drawn
    by the call. The engine run and the archiving are recorded as effects;
    an engine failure is outside this model. [deliver] is the part after
    the call of [_apply_ops_and_watermark]. *)
Definition deliver (uuid4_hex : nat -> string) (tmpdir : string)
    (c : list string) (forced : option string)
    (complex_tuple : option (string * string * string)) (hls : bool)
  : outcome :=
  let out_ext := ext_or_mp4 forced in
  if hls then
    let hls_dir := path_join tmpdir ("hls-" +:+ take_str 8 (uuid4_hex 0%nat)) in
    let playlist := path_join hls_dir "index.m3u8" in
    let seg_tmpl := path_join hls_dir "seg_%04d.ts" in
    let hls_args := snd (_choose_container_and_codecs "hls") in
    let final := c ++ tuple_list complex_tuple ++ hls_args
                   ++ ["-hls_segment_filename"; seg_tmpl; playlist] in
    let zip_path :=
      path_join tmpdir ("hls_" +:+ take_str 8 (uuid4_hex 1%nat) +:+ ".zip") in
    mkOutcome [MakeDirs hls_dir; RunEngine final; ZipDir hls_dir zip_path]
              zip_path "application/zip"
  else
    let '(container, codec_args) := _choose_container_and_codecs out_ext in
    let out := path_join tmpdir
                 ("out-" +:+ uuid4_hex 0%nat +:+ "." +:+ container) in
    let final := c ++ tuple_list complex_tuple ++ codec_args ++ [out] in
    mkOutcome [RunEngine final] out (media_type_of container).

Definition process_video (uuid4_hex : nat -> string) (in_path : string)
    (ops : list descriptor) (tmpdir : string) : result outcome :=
  r ← _apply_ops_and_watermark (_base_cmd in_path) ops;
  Ok (deliver uuid4_hex tmpdir r.1.1.1 r.1.1.2 r.1.2 r.2).

End WithConfig.
End CPU.

(* ===================================================================== *)
(** * Integrated-GPU-Powered-POC/services/ffmpeg_service.py *)
(* ===================================================================== *)

Module GPU.

(** ** [parse_ops_query]: as in the CPU variant, with the name lowered. *)

Definition parse_item (raw : string) : descriptor :=
  let '(name, args) := CPU.name_and_args raw in
  let item : descriptor := {["op" := VStr (lower (strip name))]} in
  if args == "" then item
  else foldl CPU.parse_part item (split "," args).

Fixpoint parse_ops_query (op_params : list string) : list descriptor :=
  match op_params with
  | [] => []
  | raw :: rest =>
      if raw == "" then parse_ops_query rest
      else parse_item raw :: parse_ops_query rest
  end.

Section WithConfig.
Variable cfg : Config.
Variable path_exists : string -> bool.

Definition vaapi : bool := ENCODER cfg == "h264_vaapi".

(** [_base_cmd]. With the VAAPI encoder it reads the global
    [VAAPI_DEVICE], which the module neither defines nor imports: the
    lookup raises [NameError]. *)
Definition _base_cmd (in_path : string) : result (list string) :=
  let cmd := [FFMPEG cfg; "-hide_banner"; "-nostdin"; "-y"; "-loglevel";
              "error"] in
  cmd ← (if vaapi then Raise NameError else Ok cmd);
  Ok (cmd ++ ["-i"; in_path]).

(** The video codec arguments shared by the mkv and hls branches. *)
Definition h264_args : list string :=
  let v := if vaapi then "h264_vaapi" else "libx264" in
  ["-c:v"; v]
    ++ (if v == "libx264" then
          ["-preset"; DEFAULT_PRESET cfg; "-crf"; DEFAULT_CRF cfg]
        else if v == "h264_vaapi" then ["-b:v"; "0"; "-qp"; DEFAULT_CRF cfg]
        else []).

Definition _choose_container_and_codecs (fmt : string)
  : string * list string :=
  let fmt := lower (if fmt == "" then "mp4" else fmt) in
  let threads := ["-threads"; "0"] in
  if str_in fmt ["mp4"; "m4v"; "mov"] then
    if vaapi then
      ("mp4", threads ++ ["-c:v"; "h264_vaapi"; "-b:v"; "0";
                          "-qp"; DEFAULT_CRF cfg; "-c:a"; "aac";
                          "-movflags"; "+faststart"])
    else
      ("mp4", threads ++ ["-c:v"; "libx264"; "-preset"; DEFAULT_PRESET cfg;
                          "-crf"; DEFAULT_CRF cfg; "-c:a"; "aac";
                          "-movflags"; "+faststart"; "-pix_fmt"; "yuv420p"])
  else if fmt == "webm" then
    ("webm", threads ++ ["-c:v"; "libvpx-vp9"; "-row-mt"; "1";
                         "-c:a"; "libopus"])
  else if fmt == "mkv" then
    ("mkv", threads ++ h264_args ++ ["-c:a"; "aac"])
  else if fmt == "gif" then
    ("gif", threads ++ ["-an"; "-loop"; "0"])
  else if str_in fmt ["hls"; "m3u8"] then
    ("m3u8", threads ++ h264_args
               ++ ["-c:a"; "aac"; "-f"; "hls"; "-hls_time"; "4";
                   "-hls_list_size"; "0"])
  else
    ("mp4", threads ++ ["-c:v"; "libx264"; "-preset"; DEFAULT_PRESET cfg;
                        "-crf"; DEFAULT_CRF cfg; "-c:a"; "aac";
                        "-movflags"; "+faststart"; "-pix_fmt"; "yuv420p"]).

(** [name == s] for [name = op.get("op","")], which need not be a string:
    a name of another type equals no string. *)
Definition name_is (name : value) (s : string) : bool :=
  match name with
  | VStr n => n == s
  | _ => false
  end.

(** The body of the loop over the operations. The flag [used_scale] of
    the source is written and never read, and is left out. *)
Definition apply_op (st : state) (op : descriptor) : result state :=
  let name := get op "op" (VStr "") in
  if name_is name "format" then
    Ok (set_format st (lower (py_str (get op "type" (VStr "mp4")))))
  else if name_is name "resize" || name_is name "scale" then
    let w := get op "width" (VInt (-2)) in
    let h := get op "height" (VInt (-2)) in
    Ok (add_vf st ("scale=" +:+ py_str w +:+ ":" +:+ py_str h))
  else if name_is name "fps" then
    Ok (add_vf st ("fps=" +:+ py_str (get op "value" (VInt 30))))
  else if name_is name "crop" then
    let w := get op "width" (VStr "iw") in
    let h := get op "height" (VStr "ih") in
    let x := get op "x" (VStr "(iw-ow)/2") in
    let y := get op "y" (VStr "(ih-oh)/2") in
    Ok (add_vf st ("crop=" +:+ py_str w +:+ ":" +:+ py_str h +:+ ":"
                     +:+ py_str x +:+ ":" +:+ py_str y))
  else if name_is name "bitrate" then
    let st := match op !! "video" with
              | Some v => add_vcodec st ["-b:v"; py_str v]
              | None => st
              end in
    Ok (match op !! "audio" with
        | Some a => add_acodec st ["-b:a"; py_str a]
        | None => st
        end)
  else if name_is name "crf" then
    Ok (add_vcodec st [if vaapi then "-qp" else "-crf";
                       py_str (get op "value" (VInt 23))])
  else if name_is name "preset" && negb vaapi then
    Ok (add_vcodec st ["-preset"; py_str (get op "value" (VStr "veryfast"))])
  else if name_is name "audio" && truthy (get op "remove" (VBool false)) then
    Ok (add_cmd st ["-an"])
  else if name_is name "rotate" then rotate_op st op
  else if name_is name "grayscale" || name_is name "monochrome" then
    Ok (add_vf st "format=gray")
  else if name_is name "thumbnail" then
    let t := get op "at" (VInt 1) in
    Ok (default_png (add_cmd st ["-ss"; py_str t; "-frames:v"; "1"]))
  else if name_is name "fast" then
    Ok (add_vcodec st (if vaapi then ["-qp"; "28"]
                       else ["-preset"; "ultrafast"; "-crf"; "28"]))
  else Ok st.

Fixpoint run_ops (st : state) (ops : list descriptor) : result state :=
  match ops with
  | [] => Ok st
  | op :: rest => st' ← apply_op st op; run_ops st' rest
  end.

(** The watermark stage, skipped when [WM_ENABLED] is false: the filter
    list after it and [vf_or_complex]. The list [complex_inputs] of the
    source is extended here and never read afterwards, and is left out. *)
Definition watermark (vf : list string)
  : list string * option (string * string * string) :=
  if WM_ENABLED cfg then
    if image_usable cfg path_exists then
      (vf, Some ("-filter_complex", wm_chain cfg, "-map"))
    else (vf ++ [wm_draw cfg], None)
  else (vf, None).

(** The upload step of the VAAPI encoder, left out when the overlay graph
    is used. *)
Definition hwupload (vf : list string)
    (vf_or_complex : option (string * string * string)) : list string :=
  if vaapi then
    match vf_or_complex with
    | None => vf ++ ["format=nv12,hwupload"]
    | Some _ => vf
    end
  else vf.

(** The filter list at the end of [_apply_ops_and_watermark]. *)
Definition final_vf (st : state) : list string :=
  let '(vf, vf_or_complex) := watermark (vf_filters st) in
  hwupload vf vf_or_complex.

(** The fifth component of the result: the linear chain, the codec
    overrides and the pad label. *)
Definition vf_and_codecs (st : state) : list string :=
  let '(_, vf_or_complex) := watermark (vf_filters st) in
  (match final_vf st with
   | [] => []
   | vf => ["-vf"; join "," vf]
   end)
    ++ (vcodec_args st ++ acodec_args st)
    ++ (match vf_or_complex with
        | None => []
        | Some _ => ["[vout]"]
        end).

Definition _apply_ops_and_watermark (cmd0 : list string)
    (ops : list descriptor)
  : result (list string * option string
            * option (string * string * string) * bool * list string) :=
  st ← run_ops (CPU.init_state cmd0) ops;
  Ok (cmd st, forced_ext st, (watermark (vf_filters st)).2, is_hls st,
      vf_and_codecs st).

Definition graph_args (t : option (string * string * string)) : list string :=
  match t with
  | Some (a, b, c) => [a; b; c; "[vout]"; "-map"; "0:a?"]
  | None => []
  end.

(** The part of [process_video] after the call of
    [_apply_ops_and_watermark]. *)
Definition deliver (uuid4_hex : nat -> string) (tmpdir : string)
    (c : list string) (forced : option string)
    (complex_tuple : option (string * string * string)) (hls : bool)
    (vfc : list string) : outcome :=
  if str_in (default "" forced) ["hls"; "m3u8"] || hls then
    let hls_dir := path_join tmpdir ("hls-" +:+ take_str 8 (uuid4_hex 0%nat)) in
    let playlist := path_join hls_dir "index.m3u8" in
    let seg_tmpl := path_join hls_dir "seg_%04d.ts" in
    let codec_args := snd (_choose_container_and_codecs "hls") in
    let final := c ++ graph_args complex_tuple ++ vfc ++ codec_args
                   ++ ["-hls_segment_filename"; seg_tmpl; playlist] in
    let zip_path :=
      path_join tmpdir ("hls_" +:+ take_str 8 (uuid4_hex 1%nat) +:+ ".zip") in
    mkOutcome [MakeDirs hls_dir; RunEngine final; ZipDir hls_dir zip_path]
              zip_path "application/zip"
  else
    let out_ext := ext_or_mp4 forced in
    let '(container, codec_args) := _choose_container_and_codecs out_ext in
    let out := path_join tmpdir
                 ("out-" +:+ uuid4_hex 0%nat +:+ "." +:+ container) in
    let final := c ++ graph_args complex_tuple ++ vfc ++ codec_args ++ [out] in
    mkOutcome [RunEngine final] out (media_type_of container).

Definition process_video (uuid4_hex : nat -> string) (in_path : string)
    (ops : list descriptor) (tmpdir : string) : result outcome :=
  base_cmd ← _base_cmd in_path;
  r ← _apply_ops_and_watermark base_cmd ops;
  Ok (deliver uuid4_hex tmpdir r.1.1.1.1 r.1.1.1.2 r.1.1.2 r.1.2 r.2).

End WithConfig.
End GPU.

(* ===================================================================== *)
(** * Further parts of the repository *)
(* ===================================================================== *)

(* ===================================================================== *)
(** * More of the standard library, as the S3 helpers and the endpoints
      use it *)
(* ===================================================================== *)

Module PyLib.

(** [s.lstrip(c)] and [s.rstrip(c)] for a one-character set. *)
Definition lstrip_char (c : ascii) (s : string) : string :=
  lstrip_by (fun a => Ascii.eqb a c) s.

Definition rstrip_char (c : ascii) (s : string) : string :=
  rstrip_by (fun a => Ascii.eqb a c) s.

(** [s.endswith(c)] for a one-character suffix. *)
Fixpoint endswith (c : ascii) (s : string) : bool :=
  match s with
  | "" => false
  | String a "" => Ascii.eqb a c
  | String _ r => endswith c r
  end.

(** The environment of the process, and [os.getenv(k)], [os.getenv(k, d)]. *)
Abbreviation environ := (gmap string string).

Definition getenv (env : environ) (k d : string) : string :=
  default d (env !! k).

(** [x or y] for strings that may be [None]. *)
Definition or_else (x : option string) (y : option string) : option string :=
  match x with
  | Some s => if s == "" then y else Some s
  | None => y
  end.

(** [os.path.splitext(p)[1]]: the extension starts at the last dot of the
    last component, unless only dots stand before it in that component.
    [scan_ext] reads the path from its end. *)
Fixpoint scan_ext (rev_path : string) (ext : string) : option (string * string) :=
  match rev_path with
  | "" => None
  | String c r =>
      if Ascii.eqb c "." then Some (String "." ext, r)
      else if Ascii.eqb c "/" then None
      else scan_ext r (String c ext)
  end.

Fixpoint has_name_char (rev_stem : string) : bool :=
  match rev_stem with
  | "" => false
  | String c r =>
      if Ascii.eqb c "/" then false
      else if Ascii.eqb c "." then has_name_char r
      else true
  end.

Definition splitext_ext (p : string) : string :=
  match scan_ext (String.rev p) "" with
  | Some (ext, stem) => if has_name_char stem then ext else ""
  | None => ""
  end.

(** [os.path.basename(p)]: what follows the last slash. *)
Fixpoint basename (p : string) : string :=
  match p with
  | "" => ""
  | String c r => if contains "/" p then basename r else p
  end.

(** [urllib.parse.quote(s)] with its default [safe="/"], on the bytes of
    [s]: letters, digits and the characters [_.-~/] are kept, every other
    byte is written as a percent sign and two upper-case hexadecimal
    digits. *)
Definition is_alnum (c : ascii) : bool :=
  let n := ord c in
  ((48 <=? n) && (n <=? 57)) || ((65 <=? n) && (n <=? 90))
  || ((97 <=? n) && (n <=? 122)).

Definition quote_safe (c : ascii) : bool :=
  is_alnum c || str_in (String c "") ["_"; "."; "-"; "~"; "/"].

Definition hex_digit (n : Z) : ascii :=
  if n <? 10 then ascii_of_nat (Z.to_nat (48 + n))
  else ascii_of_nat (Z.to_nat (55 + n)).

Definition quote_char (c : ascii) : string :=
  if quote_safe c then String c ""
  else String "%" (String (hex_digit (ord c / 16))
                     (String (hex_digit (ord c mod 16)) "")).

Fixpoint quote (s : string) : string :=
  match s with
  | "" => ""
  | String c r => quote_char c +:+ quote r
  end.

End PyLib.

Import PyLib.

(* ===================================================================== *)
(** * CPU-Powered-POC/services/s3_utils.py *)
(* ===================================================================== *)

Module S3.

(** ** The module constants, read from the environment at import time *)

Definition _AWS_REGION (env : environ) : string :=
  getenv env "AWS_REGION" "ap-south-1".

Definition _S3_PREFIX (env : environ) : string :=
  lstrip_char "/" (getenv env "S3_PREFIX" "processed/").

Definition flag (env : environ) (k d : string) : bool :=
  str_in (lower (getenv env k d)) ["1"; "true"; "yes"].

Definition _CREATE_BUCKET (env : environ) : bool :=
  flag env "S3_CREATE_BUCKET" "true".

Definition _BLOCK_PUBLIC (env : environ) : bool :=
  flag env "S3_BLOCK_PUBLIC" "false".

(** [(os.getenv("AWS_ACL", "") or "").strip() or None]. *)
Definition _AWS_ACL (env : environ) : option string :=
  or_else (Some (strip (getenv env "AWS_ACL" ""))) None.

Definition _PUBLIC_BASE_URL (env : environ) : string :=
  rstrip_char "/" (getenv env "PUBLIC_BASE_URL" "").

(** ** The calls made on the S3 client, and the buckets that exist *)

Inductive call : Set :=
| HeadBucket (name : string)
| CreateBucket (name : string) (location : option string)
| PutPublicAccessBlock (name : string) (block : bool)
| UploadFile (local_path bucket key : string)
             (extra_args : list (string * string)).

Section WithEnv.
Variable env : environ.

(** [_default_bucket_name]: [account] is what STS answers, or [None] when
    that call fails, and [uuid4_hex] the identifier drawn in that case. *)
Definition _default_bucket_name (account : option string)
    (uuid4_hex : string) : string :=
  let acct := match account with
              | Some a => a
              | None => take_str 12 uuid4_hex
              end in
  let base := lower ("ffmpeg-poc-" +:+ acct +:+ "-" +:+ _AWS_REGION env) in
  rstrip_char "-" (take_str 63 base).

(** The name [ensure_bucket] settles on. *)
Definition bucket_name (bucket : option string) (account : option string)
    (uuid4_hex : string) : string :=
  lower (default (_default_bucket_name account uuid4_hex)
           (or_else bucket (or_else (env !! "S3_BUCKET") None))).

(** [ensure_bucket], on the set of the buckets that exist: [head_bucket]
    raises [ClientError] for a bucket that does not exist, and
    [create_bucket] makes it exist. It yields the name, the calls made and
    the buckets that exist afterwards. *)
Definition ensure_bucket (bucket : option string) (account : option string)
    (uuid4_hex : string) (buckets : gset string)
  : string * list call * gset string :=
  let name := bucket_name bucket account uuid4_hex in
  if negb (_CREATE_BUCKET env) then (name, [], buckets)
  else
    let block := PutPublicAccessBlock name (_BLOCK_PUBLIC env) in
    if decide (name ∈ buckets) then
      (name, [HeadBucket name; block], buckets)
    else
      let location := if _AWS_REGION env == "us-east-1" then None
                      else Some (_AWS_REGION env) in
      (name, [HeadBucket name; CreateBucket name location; block],
       {[name]} ∪ buckets).

Definition make_s3_key (filename : string) : string :=
  let prefix := if negb (_S3_PREFIX env == "")
                   && negb (endswith "/" (_S3_PREFIX env))
                then _S3_PREFIX env +:+ "/" else _S3_PREFIX env in
  lstrip_char "/" (prefix +:+ filename).

(** [upload_file], called without a bucket as the endpoint does. *)
Definition upload_file (local_path key content_type : string)
    (cache_control acl : option string) (account : option string)
    (uuid4_hex : string) (buckets : gset string)
  : string * list call * gset string :=
  let '(bkt, calls, buckets) := ensure_bucket None account uuid4_hex buckets in
  let extra :=
    [("ContentType", content_type)]
      ++ match or_else cache_control None with
         | Some c => [("CacheControl", c)]
         | None => []
         end
      ++ match or_else acl None with
         | Some a => [("ACL", a)]
         | None => []
         end in
  (bkt, calls ++ [UploadFile local_path bkt key extra], buckets).

(** The address [public_url] builds for the bucket [bkt] it has ensured. *)
Definition public_address (key bkt : string) : string :=
  if negb (_PUBLIC_BASE_URL env == "") then
    _PUBLIC_BASE_URL env +:+ "/" +:+ quote key
  else
    let host := if _AWS_REGION env == "us-east-1" then "s3.amazonaws.com"
                else "s3." +:+ _AWS_REGION env +:+ ".amazonaws.com" in
    "https://" +:+ bkt +:+ "." +:+ host +:+ "/" +:+ quote key.

Definition public_url (key : string) (bucket : option string)
    (account : option string) (uuid4_hex : string) (buckets : gset string)
  : string * list call * gset string :=
  let '(bkt, calls, buckets) := ensure_bucket bucket account uuid4_hex buckets in
  (public_address key bkt, calls, buckets).

(** [presign_get_url]: [generate_presigned_url] stands for the signing done
    by the client library, and [presign_expires] for [_PRESIGN_EXPIRES],
    the integer the import of the module has read from the environment. *)
Definition presign_get_url
    (generate_presigned_url : string -> string -> Z -> string)
    (presign_expires : Z) (key : string) (expires : option Z)
    (bucket : option string) (account : option string) (uuid4_hex : string)
    (buckets : gset string) : string * list call * gset string :=
  let '(bkt, calls, buckets) := ensure_bucket bucket account uuid4_hex buckets in
  let expires_in := match expires with
                    | Some n => if n =? 0 then presign_expires else n
                    | None => presign_expires
                    end in
  (generate_presigned_url bkt key expires_in, calls, buckets).

Definition should_return_public_url : bool :=
  negb (_PUBLIC_BASE_URL env == "")
  || ((lower (default "" (_AWS_ACL env)) == "public-read")
      && negb (_BLOCK_PUBLIC env)).

End WithEnv.
End S3.

(* ===================================================================== *)
(** * main.py and CPU-Powered-POC/main.py: the endpoint *)
(* ===================================================================== *)

(** What one request does, in order: the upload is stored, the job runs,
    the S3 client is called, the working directory is removed. *)
Inductive step : Set :=
| Save (path : string)
| Job (e : effect)
| S3Call (c : S3.call)
| RmTree (path : string).

(** The body of the JSON answer of the S3 endpoint. *)
Record body : Set := mkBody {
  bucket : string;
  bucketKey : string;
  url : string;
  contentType : string;
  ext : string
}.

Inductive reply : Set :=
| FileResponse (path media_type filename : string)
| JSONResponse (content : body)
| HTTPException (status_code : Z) (e : exn).

(** [(op or []) + (ops or [])]. *)
Definition query_values (op ops : option (list string)) : list string :=
  default [] op ++ default [] ops.

(** ** main.py: the file is sent back *)

Module Main.
Section Endpoint.
(** The service module the endpoint imports: its parser and its job. *)
Variable parse_ops_query : list string -> list descriptor.
Variable process_video :
  (nat -> string) -> string -> list descriptor -> string -> result outcome.

(** [tmpdir] is the directory [mkdtemp] has made, [in_uuid] the identifier
    drawn for the upload and [uuid4_hex] those the job draws. The removal
    of the directory is a background task of the answer, or precedes the
    error. *)
Definition process_video_endpoint (op ops : option (list string))
    (tmpdir in_uuid : string) (uuid4_hex : nat -> string)
  : list step * reply :=
  let ops_list := parse_ops_query (query_values op ops) in
  let in_path := path_join tmpdir ("in-" +:+ in_uuid) in
  match process_video uuid4_hex in_path ops_list tmpdir with
  | Ok out =>
      ([Save in_path] ++ map Job (effects out) ++ [RmTree tmpdir],
       FileResponse (out_path out) (media_type out) (basename (out_path out)))
  | Raise e => ([Save in_path; RmTree tmpdir], HTTPException 500 e)
  end.

End Endpoint.
End Main.

(** ** CPU-Powered-POC/main.py: the file is uploaded to S3 *)

Module CPUMain.
Section Endpoint.
Variable cfg : Config.
Variable path_exists : string -> bool.
Variable env : environ.
Variable generate_presigned_url : string -> string -> Z -> string.
Variable presign_expires : Z.

(** [os.path.splitext(out_path)[1].lstrip(".") or "mp4"]. *)
Definition ext_of (out_path : string) : string :=
  let e := lstrip_char "." (splitext_ext out_path) in
  if e == "" then "mp4" else e.

(** [key_uuid] is the identifier drawn for the object key; [account] and
    [bucket_uuid] are what [_default_bucket_name] gets from STS and draws
    when it is called, and [buckets] the buckets that exist. A failure of
    the S3 client, like one of the engine, is outside this model. *)
Definition process_video_endpoint (op ops : option (list string))
    (tmpdir in_uuid : string) (uuid4_hex : nat -> string) (key_uuid : string)
    (account : option string) (bucket_uuid : string) (buckets : gset string)
  : list step * reply :=
  let ops_list := CPU.parse_ops_query (query_values op ops) in
  let in_path := path_join tmpdir ("in-" +:+ in_uuid) in
  match CPU.process_video cfg path_exists uuid4_hex in_path ops_list tmpdir with
  | Ok out =>
      let ext := ext_of (out_path out) in
      let key := S3.make_s3_key env (key_uuid +:+ "." +:+ ext) in
      let up := S3.upload_file env (out_path out) key (media_type out)
                  (Some "public,max-age=31536000,immutable") (S3._AWS_ACL env)
                  account bucket_uuid buckets in
      let bucket := up.1.1 in
      let addr :=
        if S3.should_return_public_url env
        then S3.public_url env key (Some bucket) account bucket_uuid up.2
        else S3.presign_get_url env generate_presigned_url presign_expires
               key None (Some bucket) account bucket_uuid up.2 in
      ([Save in_path] ++ map Job (effects out) ++ map S3Call up.1.2
         ++ map S3Call addr.1.2 ++ [RmTree tmpdir],
       JSONResponse (mkBody bucket key addr.1.1 (media_type out) ext))
  | Raise e => ([Save in_path; RmTree tmpdir], HTTPException 500 e)
  end.

End Endpoint.
End CPUMain.

(* ===================================================================== *)
(** * Notions used by the statements *)
(* ===================================================================== *)

(** The value of a string of decimal digits. *)
Fixpoint digits_value (acc : Z) (s : string) : Z :=
  match s with
  | "" => acc
  | String c r => digits_value (10 * acc + (ord c - 48)) r
  end.

(** The coercion of an argument value as the specification words it, in
    its priority order: boolean, integer, float with fallback, string. *)
Definition coerce_spec (v : string) : value :=
  if lower v == "true" then VBool true
  else if lower v == "false" then VBool false
  else if isdigit v then VInt (digits_value 0 v)
  else if contains "." v then
    match float_of_str v with
    | Ok x => VFloat x
    | Raise _ => VStr v
    end
  else VStr v.

(** The coercion as the code performs it under the interpreter's limit on
    integer literals: a value of more than [int_max_str_digits] digits is
    not converted, and the parser keeps it as the string it is. *)
Definition coerce_amended (v : string) : value :=
  if lower v == "true" then VBool true
  else if lower v == "false" then VBool false
  else if isdigit v then
    if Z.of_nat (String.length v) <=? int_max_str_digits
    then VInt (digits_value 0 v) else VStr v
  else if contains "." v then
    match float_of_str v with
    | Ok x => VFloat x
    | Raise _ => VStr v
    end
  else VStr v.

(** A numeral of 4301 digits. *)
Definition long_numeral : string := "1" +:+ zeros 4300.

(** Both variants of the loop body give the result [r] on the rotate
    operation [op]: the CPU variant lower-cases the name it reads, the GPU
    variant compares it as it is. *)
Definition rotate_yields (cfg : Config) (st : state) (op : descriptor)
    (r : result state) : Prop :=
  (CPU.op_name op = Ok "rotate" -> CPU.apply_op st op = r)
  /\ (get op "op" (VStr "") = VStr "rotate" -> GPU.apply_op cfg st op = r).

(** The angle of the generic rotate filter for [d] degrees, [x] being
    [float(d)]. *)
Definition radians (x : float) : float :=
  fdiv (fmul x (float_lit "3.14159265")) (float_lit "180.0").

(** The descriptors of [rotate:degrees=90.5] and [rotate:degrees=360]. *)
Definition rotate_90_5 : descriptor :=
  <["degrees" := VFloat (float_lit "90.5")]> {["op" := VStr "rotate"]}.

Definition rotate_360 : descriptor :=
  <["degrees" := VInt 360]> {["op" := VStr "rotate"]}.

(** A configuration with the defaults of the source (and an ASCII
    watermark text): software encoder, text watermark at opacity 35. *)
Definition default_config : Config :=
  {| FFMPEG := "ffmpeg"; ENCODER := "libx264"; DEFAULT_CRF := "23";
     DEFAULT_PRESET := "veryfast";
     WM_ENABLED := true; WM_TEXT := "Demo Watermark"; WM_IMAGE := "";
     WM_FONT := "/usr/share/fonts/truetype/dejavu/DejaVuSans.ttf";
     WM_FONTSIZE := 28; WM_OPACITY := 35; WM_INSET := 12 |}.

(** A file system without files, and one where every path exists. *)
Definition no_files : string -> bool := fun _ => false.
Definition all_files : string -> bool := fun _ => true.

(** The name the CPU loop reads from [op] is [n]. *)
Definition named (n : string) (op : descriptor) : bool :=
  match CPU.op_name op with
  | Ok m => m == n
  | Raise _ => false
  end.

(** The extension a format operation asks for. *)
Definition format_type (op : descriptor) : string :=
  lower (py_str (get op "type" (VStr "mp4"))).

(** [out_ext = forced_ext or "mp4"], the extension [process_video]
    resolves from the result of [_apply_ops_and_watermark]. *)
Definition out_ext (cfg : Config) (path_exists : string -> bool)
    (cmd0 : list string) (ops : list descriptor) : result string :=
  r ← CPU._apply_ops_and_watermark cfg path_exists cmd0 ops;
  Ok (ext_or_mp4 r.1.1.2).

(** The effect of one operation on [forced_ext]: a format operation sets
    it, a thumbnail operation sets it to png when it is unset or empty. *)
Definition png_default (e : option string) : option string :=
  match e with
  | None | Some "" => Some "png"
  | Some x => Some x
  end.

Definition ext_step (e : option string) (op : descriptor) : option string :=
  if named "format" op then Some (format_type op)
  else if named "thumbnail" op then png_default e
  else e.

(** The descriptors of [format:type=] and [thumbnail]. *)
Definition format_empty : descriptor :=
  <["type" := VStr ""]> {["op" := VStr "format"]}.

Definition thumbnail_op : descriptor := {["op" := VStr "thumbnail"]}.

(** The name the GPU loop reads from [op] is [n]. *)
Definition gpu_named (n : string) (op : descriptor) : bool :=
  GPU.name_is (get op "op" (VStr "")) n.

(** The content type of a container as the specification lists it. *)
Definition content_type_spec (container : string) : string :=
  if container == "mp4" then "video/mp4"
  else if container == "webm" then "video/webm"
  else if container == "mkv" then "video/x-matroska"
  else if container == "mov" then "video/quicktime"
  else if container == "gif" then "image/gif"
  else "application/octet-stream".

(** The two shapes of a job. A segmented job creates its own directory,
    runs the engine once on a playlist and a segment template inside it,
    archives that directory and returns the archive as [application/zip].
    A single-file job runs the engine once on the file it returns. *)
Definition is_archive (uuid4_hex : nat -> string) (tmpdir : string)
    (out : outcome) : Prop :=
  let hls_dir := path_join tmpdir ("hls-" +:+ take_str 8 (uuid4_hex 0%nat)) in
  let zip_path :=
    path_join tmpdir ("hls_" +:+ take_str 8 (uuid4_hex 1%nat) +:+ ".zip") in
  exists argv,
    out = {| effects :=
               [MakeDirs hls_dir;
                RunEngine (argv ++ ["-hls_segment_filename";
                                    path_join hls_dir "seg_%04d.ts";
                                    path_join hls_dir "index.m3u8"]);
                ZipDir hls_dir zip_path];
             out_path := zip_path;
             media_type := "application/zip" |}.

Definition is_single_file (out : outcome) : Prop :=
  exists argv, effects out = [RunEngine (argv ++ [out_path out])].

(** What one operation may do to the extension and the segmented flag:
    nothing, set a lower-cased format, or default to png. *)
Definition ext_shape (st st' : state) : Prop :=
  (forced_ext st' = forced_ext st /\ is_hls st' = is_hls st)
  \/ (exists t, forced_ext st' = Some (lower t)
                /\ is_hls st' = if str_in (lower t) ["hls"; "m3u8"] then true
                                else is_hls st)
  \/ (forced_ext st' = png_default (forced_ext st) /\ is_hls st' = is_hls st).

(** The forced extension is lower-case, and the segmented flag is set
    whenever it is hls or m3u8. *)
Definition ext_inv (st : state) : Prop :=
  forall e, forced_ext st = Some e ->
            lower e = e /\ (str_in e ["hls"; "m3u8"] = true -> is_hls st = true).

(** The watermark stage by its two strategies, for a job whose watermark
    is [enabled]: the drawtext filter appended to the linear chain when
    the image is not usable, the overlay graph when it is. *)
Definition wm_filters (cfg : Config) (path_exists : string -> bool)
    (enabled : bool) : list string :=
  if enabled && negb (image_usable cfg path_exists) then [wm_draw cfg] else [].

Definition wm_graph (cfg : Config) (path_exists : string -> bool)
    (enabled : bool) : option (string * string * string) :=
  if enabled && image_usable cfg path_exists
  then Some ("-filter_complex", wm_chain cfg, "-map")
  else None.

(** The default configuration with the watermark switched off, and with
    the VAAPI encoder and a watermark image. *)
Definition config_wm_off : Config :=
  {| FFMPEG := "ffmpeg"; ENCODER := "libx264"; DEFAULT_CRF := "23";
     DEFAULT_PRESET := "veryfast";
     WM_ENABLED := false; WM_TEXT := "Demo Watermark"; WM_IMAGE := "";
     WM_FONT := "/usr/share/fonts/truetype/dejavu/DejaVuSans.ttf";
     WM_FONTSIZE := 28; WM_OPACITY := 35; WM_INSET := 12 |}.

Definition config_vaapi_image : Config :=
  {| FFMPEG := "ffmpeg"; ENCODER := "h264_vaapi"; DEFAULT_CRF := "23";
     DEFAULT_PRESET := "veryfast";
     WM_ENABLED := true; WM_TEXT := "Demo Watermark"; WM_IMAGE := "/wm.png";
     WM_FONT := "/usr/share/fonts/truetype/dejavu/DejaVuSans.ttf";
     WM_FONTSIZE := 28; WM_OPACITY := 35; WM_INSET := 12 |}.

Definition config_vaapi_text : Config :=
  {| FFMPEG := "ffmpeg"; ENCODER := "h264_vaapi"; DEFAULT_CRF := "23";
     DEFAULT_PRESET := "veryfast";
     WM_ENABLED := true; WM_TEXT := "Demo Watermark"; WM_IMAGE := "";
     WM_FONT := "/usr/share/fonts/truetype/dejavu/DejaVuSans.ttf";
     WM_FONTSIZE := 28; WM_OPACITY := 35; WM_INSET := 12 |}.

(** The escape of one character by [_escape_drawtext]: a backslash, a
    colon and a single quote get a backslash in front. *)
Definition is_special (c : ascii) : bool :=
  Ascii.eqb c "\" || Ascii.eqb c ":" || Ascii.eqb c "'".

Definition escape_char (c : ascii) : string :=
  if is_special c then String "\" (String c "") else String c "".

Fixpoint escape_chars (s : string) : string :=
  match s with
  | "" => ""
  | String c r => escape_char c +:+ escape_chars r
  end.

(** A text in which every backslash is followed by a special character
    it escapes, and no colon or quote stands without one. *)
Fixpoint well_escaped (s : string) : bool :=
  match s with
  | "" => true
  | String c r =>
      if Ascii.eqb c "\" then
        match r with
        | String d r' => is_special d && well_escaped r'
        | "" => false
        end
      else negb (is_special c) && well_escaped r
  end.

(** ** Notions for the argument parser *)

(** The key a non-empty part of an argument list is stored under, and the
    value stored: [k=v] stores the coerced [v] under [k], a bare word is a
    flag. *)
Definition part_key (part : string) : string :=
  if contains "=" part then strip (hd "" (split1 "=" part)) else strip part.

Definition part_value (part : string) : value :=
  if contains "=" part then CPU.coerce (strip (nth 1 (split1 "=" part) ""))
  else VBool true.

(** The value of the last non-empty part of [parts] whose key is [k]. *)
Fixpoint last_part (k : string) (parts : list string) : option value :=
  match parts with
  | [] => None
  | p :: rest =>
      match last_part k rest with
      | Some v => Some v
      | None => if negb (p == "") && (part_key p == k)
                then Some (part_value p) else None
      end
  end.

(** The entry of key [k] in the descriptor of the query value [raw], by
    the rule "the last part with that key, else the name for the key op". *)
Definition entry_of (name_of : string -> string) (raw k : string)
  : option value :=
  let '(name, args) := CPU.name_and_args raw in
  match last_part k (split "," args) with
  | Some v => Some v
  | None => if k == "op" then Some (VStr (name_of name)) else None
  end.

Definition nonempty (s : string) : bool := negb (s == "").

(** ** Notions for the failures of the loop *)

(** The rotate operation [op] fails with [e]: its angle is not accepted by
    [int], or it is an integer that is no multiple of 90 and too large for
    a float. *)
Definition rotate_fails (op : descriptor) (e : exn) : Prop :=
  py_int (get op "degrees" (VInt 0)) = Raise e
  \/ exists d, py_int (get op "degrees" (VInt 0)) = Ok d
               /\ d mod 90 <> 0 /\ float_of_int d = Raise e.

(** The name of [op] is a string. *)
Definition name_is_str (op : descriptor) : Prop :=
  exists n, get op "op" (VStr "") = VStr n.

(** ** Notions for the comparison of the two loops *)

(** The query value [raw] has no argument or flag called op, and its
    operation is not the GPU variant's [fast]. *)
Definition plain_query (raw : string) : bool :=
  let '(name, args) := CPU.name_and_args raw in
  match last_part "op" (split "," args) with
  | None => negb (lower (strip name) == "fast")
  | Some _ => false
  end.

(** The name of [op] is a lower-case string other than [fast]. *)
Definition lower_name (op : descriptor) : bool :=
  match get op "op" (VStr "") with
  | VStr n => (lower n == n) && negb (n == "fast")
  | _ => false
  end.

(** ** Notions for the container selector *)

(** The formats the GPU variant encodes with the configured H.264
    encoder. *)
Definition h264_formats : list string :=
  ["mp4"; "m4v"; "mov"; "mkv"; "hls"; "m3u8"].

(** The configuration [cfg] with another encoder. *)
Definition with_encoder (cfg : Config) (enc : string) : Config :=
  {| FFMPEG := FFMPEG cfg; ENCODER := enc; DEFAULT_CRF := DEFAULT_CRF cfg;
     DEFAULT_PRESET := DEFAULT_PRESET cfg;
     WM_ENABLED := WM_ENABLED cfg; WM_TEXT := WM_TEXT cfg;
     WM_IMAGE := WM_IMAGE cfg; WM_FONT := WM_FONT cfg;
     WM_FONTSIZE := WM_FONTSIZE cfg; WM_OPACITY := WM_OPACITY cfg;
     WM_INSET := WM_INSET cfg |}.

(** ** Notions for the loop as a whole *)

(** The state [st] extended by what a run from the empty state has
    collected in [d], with the forced extension [e]. *)
Definition after (st d : state) (e : option string) : state :=
  mkState (cmd st ++ cmd d) (vf_filters st ++ vf_filters d) e
          (is_hls st || is_hls d)
          (vcodec_args st ++ vcodec_args d) (acodec_args st ++ acodec_args d).

(** The effect of one operation on [forced_ext] in the GPU loop. *)
Definition gpu_ext_step (e : option string) (op : descriptor) : option string :=
  if gpu_named "format" op then Some (format_type op)
  else if gpu_named "thumbnail" op then png_default e
  else e.

(** [op] is a format operation that asks for segmented output. *)
Definition asks_hls (op : descriptor) : bool :=
  named "format" op && str_in (format_type op) ["hls"; "m3u8"].

Definition gpu_asks_hls (op : descriptor) : bool :=
  gpu_named "format" op && str_in (format_type op) ["hls"; "m3u8"].

(** The argument lists of the engine runs among the effects of a job. *)
Definition engine_runs (out : outcome) : list (list string) :=
  flat_map (fun e => match e with
                     | RunEngine argv => [argv]
                     | _ => []
                     end) (effects out).

(** ** Notions for the image watermark *)

(** The operations that only add a filter to the linear chain. *)
Definition filter_ops : list string :=
  ["scale"; "resize"; "fps"; "crop"; "grayscale"; "monochrome"].

(** The command the CPU variant builds around the overlay graph, from the
    state [st] the loop has reached. *)
Definition cpu_overlay_cmd (cfg : Config) (st : state) : list string :=
  cmd st ++ ["-map"; "0:a?"] ++ ["-i"; WM_IMAGE cfg]
    ++ vcodec_args st ++ acodec_args st.

(** ** Notions for the opacity of the text watermark *)

(** [n] hundredths written with two decimals. *)
Definition hundredths (n : Z) : string :=
  str_of_int (n / 100) +:+ "." +:+ str_of_int (n mod 100 / 10)
    +:+ str_of_int (n mod 10).

(** The opacity setting brought into the range 0..100. *)
Definition clamped (cfg : Config) : Z := Z.max 0 (Z.min 100 (WM_OPACITY cfg)).

(** The colours of the drawtext filter for an opacity of [n] percent. *)
Definition colours_ok (n : Z) : bool :=
  let alpha := fdiv (to_float n) (float_lit "100.0") in
  (float_fmt2 alpha == hundredths n)
  && (float_fmt2 (fmul alpha (float_lit "0.6")) == hundredths ((6 * n + 5) / 10)).

(** ** Notions for the archive *)

(** The number of files in a directory tree. *)
Fixpoint files_in (n : node) : nat :=
  match n with
  | File _ => 1
  | Dir _ children => list_sum (map files_in children)
  end.

(** ** Notions for the S3 helpers *)

(** [s] begins with the character [c]. *)
Definition startswith (c : ascii) (s : string) : bool :=
  match s with
  | String a _ => Ascii.eqb a c
  | "" => false
  end.

(** The directory part of every key: the configured prefix without its
    leading slashes, closed by a slash unless it is empty. *)
Definition key_prefix (env : environ) : string :=
  let p := S3._S3_PREFIX env in
  if (p == "") || endswith "/" p then p else p +:+ "/".

(** A character that may stand in the output of [quote]. *)
Definition url_char (c : ascii) : bool := quote_safe c || Ascii.eqb c "%".

Fixpoint all_chars (p : ascii -> bool) (s : string) : bool :=
  match s with
  | "" => true
  | String c r => p c && all_chars p r
  end.

(** The host of the bucket address when no public base URL is set. *)
Definition s3_host (env : environ) : string :=
  if S3._AWS_REGION env == "us-east-1" then "s3.amazonaws.com"
  else "s3." +:+ S3._AWS_REGION env +:+ ".amazonaws.com".

(** ** Notions for the endpoints *)

(** What a job can deliver: the name of the file in the working directory,
    its extension and its content type. *)
Definition deliverables (uuid4_hex : nat -> string)
  : list (string * string * string) :=
  [("out-" +:+ uuid4_hex 0%nat +:+ ".mp4", "mp4", "video/mp4");
   ("out-" +:+ uuid4_hex 0%nat +:+ ".webm", "webm", "video/webm");
   ("out-" +:+ uuid4_hex 0%nat +:+ ".mkv", "mkv", "video/x-matroska");
   ("out-" +:+ uuid4_hex 0%nat +:+ ".gif", "gif", "image/gif");
   ("hls_" +:+ take_str 8 (uuid4_hex 1%nat) +:+ ".zip", "zip",
    "application/zip")].

(** The job delivered the file [name] of extension [e] and type [t]. *)
Definition delivers (tmpdir : string) (out : outcome)
    (d : string * string * string) : Prop :=
  out_path out = path_join tmpdir d.1.1 /\ media_type out = d.2.

(** The S3 calls among the steps of a request that create a bucket. *)
Definition creations (steps : list step) : list string :=
  flat_map (fun s => match s with
                     | S3Call (S3.CreateBucket name _) => [name]
                     | _ => []
                     end) steps.

(** The uploads among the steps of a request. *)
Definition uploads (steps : list step)
  : list (string * string * string * list (string * string)) :=
  flat_map (fun s => match s with
                     | S3Call (S3.UploadFile p b k extra) => [(p, b, k, extra)]
                     | _ => []
                     end) steps.

(* ===================================================================== *)
(** * Properties of the built-ins *)
(* ===================================================================== *)

Lemma lower_char_idemp c : lower_char (lower_char c) = lower_char c.
Proof. destruct c as [[] [] [] [] [] [] [] []]; reflexivity. Qed.

Lemma lower_idemp s : lower (lower s) = lower s.
Proof.
  induction s as [|c s IH]; simpl; [reflexivity|].
  by rewrite lower_char_idemp, IH.
Qed.

Lemma str_in_true s l : str_in s l = true <-> In s l.
Proof.
  unfold str_in. rewrite existsb_exists. split.
  - intros (x & Hx & He). apply String.eqb_eq in He. by subst.
  - intros H. exists s. split; [done|apply String.eqb_refl].
Qed.

(** Cutting at the first separator. *)
Lemma contains_app_sep sep a b : contains sep (a +:+ String sep b) = true.
Proof.
  induction a as [|c a IH]; simpl.
  - by rewrite Ascii.eqb_refl.
  - destruct (Ascii.eqb c sep); [reflexivity|exact IH].
Qed.

Lemma split1_app sep a b :
  contains sep a = false -> split1 sep (a +:+ String sep b) = [a; b].
Proof.
  induction a as [|c a IH]; simpl; intros H.
  - by rewrite Ascii.eqb_refl.
  - destruct (Ascii.eqb c sep); [discriminate|].
    by rewrite (IH H).
Qed.

Lemma split1_no_sep sep s : contains sep s = false -> split1 sep s = [s].
Proof.
  induction s as [|c s IH]; simpl; intros H; [reflexivity|].
  destruct (Ascii.eqb c sep); [discriminate|].
  by rewrite (IH H).
Qed.

(** Strings of digits: stripping leaves them alone and [int] reads them
    in base ten. *)
Lemma digit_not_space c : is_digit c = true -> isspace_literal c = false.
Proof. destruct c as [[] [] [] [] [] [] [] []]; vm_compute; congruence. Qed.

Lemma digit_not_sign c :
  is_digit c = true -> c <> "-"%char /\ c <> "+"%char.
Proof.
  destruct c as [[] [] [] [] [] [] [] []]; vm_compute; intros; split; congruence.
Qed.

Lemma lstrip_digits s :
  all_digits s = true -> lstrip_by isspace_literal s = s.
Proof.
  destruct s as [|c s]; simpl; [reflexivity|].
  intros [Hc _]%andb_true_iff. by rewrite (digit_not_space c Hc).
Qed.

Lemma rstrip_digits s :
  all_digits s = true -> rstrip_by isspace_literal s = s.
Proof.
  induction s as [|c s IH]; simpl; [reflexivity|].
  intros [Hc Hs]%andb_true_iff. rewrite (IH Hs), (digit_not_space c Hc).
  by destruct s.
Qed.

Lemma int_digits_all_digits s : forall acc,
  all_digits s = true -> int_digits acc s = Some (digits_value acc s).
Proof.
  induction s as [|c s IH]; simpl; intros acc; [reflexivity|].
  intros [Hc Hs]%andb_true_iff. unfold digit_val. rewrite Hc. by apply IH.
Qed.

Lemma count_digits_all_digits s :
  all_digits s = true -> count_digits s = Z.of_nat (String.length s).
Proof.
  induction s as [|c s IH]; [reflexivity|].
  cbn [all_digits count_digits String.length].
  intros [Hc Hs]%andb_true_iff. rewrite Hc, (IH Hs). lia.
Qed.

Lemma int_of_str_isdigit s :
  isdigit s = true ->
  int_of_str s = if Z.of_nat (String.length s) <=? int_max_str_digits
                 then Ok (digits_value 0 s) else Raise ValueError.
Proof.
  intros H. assert (Ha : all_digits s = true) by (by destruct s).
  unfold int_of_str. rewrite (lstrip_digits s Ha), (rstrip_digits s Ha).
  rewrite (count_digits_all_digits s Ha), Z.ltb_antisym.
  destruct s as [|c s]; [discriminate|].
  simpl in Ha. apply andb_true_iff in Ha as [Hc Hs].
  destruct (digit_not_sign c Hc) as [Hm Hp].
  assert (Hu : int_unsigned (String c s) = Some (digits_value 0 (String c s))).
  { simpl. unfold digit_val. rewrite Hc.
    rewrite (int_digits_all_digits s _ Hs). reflexivity. }
  destruct c as [[] [] [] [] [] [] [] []]; try congruence; rewrite Hu;
    by destruct (_ <=? _).
Qed.

(* ===================================================================== *)
(** * The parser *)
(* ===================================================================== *)

Lemma coerce_refines v : CPU.coerce v = coerce_amended v.
Proof.
  unfold CPU.coerce, coerce_amended, str_in. simpl existsb.
  destruct (lower v == "true") eqn:Ht; simpl; [reflexivity|].
  destruct (lower v == "false") eqn:Hf; simpl; [reflexivity|].
  destruct (isdigit v) eqn:Hd; [|reflexivity].
  rewrite (int_of_str_isdigit v Hd). by destruct (_ <=? _).
Qed.

(** Up to the limit on integer literals the code coerces as the
    specification words it. *)
Lemma coerce_amended_spec v :
  Z.of_nat (String.length v) <= int_max_str_digits ->
  coerce_amended v = coerce_spec v.
Proof.
  intros H. unfold coerce_amended, coerce_spec.
  apply Z.leb_le in H. by rewrite H.
Qed.

Lemma parse_part_key_value item k v :
  contains "=" k = false ->
  CPU.parse_part item (k +:+ "=" +:+ v) = <[strip k := CPU.coerce (strip v)]> item.
Proof.
  intros Hk. unfold CPU.parse_part.
  change (k +:+ "=" +:+ v) with (k +:+ String "=" v).
  rewrite contains_app_sep, (split1_app _ _ _ Hk).
  destruct k; reflexivity.
Qed.

Lemma parse_part_flag item part :
  part <> "" -> contains "=" part = false ->
  CPU.parse_part item part = <[strip part := VBool true]> item.
Proof.
  intros Hne Hc. unfold CPU.parse_part. rewrite Hc.
  destruct (part == "") eqn:E; [|reflexivity].
  by apply String.eqb_eq in E.
Qed.

Lemma parse_item_split name args :
  contains ":" name = false -> args <> "" ->
  CPU.parse_item (name +:+ ":" +:+ args)
  = foldl CPU.parse_part {["op" := VStr (strip name)]} (split "," args).
Proof.
  intros Hn Ha. unfold CPU.parse_item, CPU.name_and_args.
  change (name +:+ ":" +:+ args) with (name +:+ String ":" args).
  rewrite (split1_app _ _ _ Hn). simpl.
  destruct (args == "") eqn:E; [|reflexivity].
  by apply String.eqb_eq in E.
Qed.

(** A bare operation name yields a descriptor with the name only. *)
Lemma parse_item_bare raw :
  contains ":" raw = false ->
  CPU.parse_item raw = {["op" := VStr (strip raw)]}.
Proof.
  intros H. unfold CPU.parse_item, CPU.name_and_args.
  by rewrite (split1_no_sep _ _ H).
Qed.

(** C4, amended. Each argument value of a raw operation string
    [name:k1=v1,...] is coerced in this priority order: a case-insensitive
    "true" or "false" becomes a boolean; otherwise a value made of digits
    only becomes that integer when it has at most 4300 digits, and stays
    the string when it has more (the conversion fails, as a failed float
    conversion does); otherwise a value with a decimal point becomes a
    float, or stays the string when the conversion fails; otherwise it
    stays a string. A key given without [=] is recorded as the flag
    [True]. Up to 4300 characters the coercion is the one the
    specification words. *)
Theorem parse_value_coercion :
  (forall v, CPU.coerce v = coerce_amended v)
  /\ (forall v, Z.of_nat (String.length v) <= int_max_str_digits ->
        CPU.coerce v = coerce_spec v)
  /\ (forall name args, contains ":" name = false -> args <> "" ->
        CPU.parse_item (name +:+ ":" +:+ args)
        = foldl CPU.parse_part {["op" := VStr (strip name)]} (split "," args))
  /\ (forall item k v, contains "=" k = false ->
        CPU.parse_part item (k +:+ "=" +:+ v)
        = <[strip k := coerce_amended (strip v)]> item)
  /\ (forall item part, part <> "" -> contains "=" part = false ->
        CPU.parse_part item part = <[strip part := VBool true]> item).
Proof.
  split; [exact coerce_refines|].
  split; [intros v Hv; by rewrite coerce_refines, coerce_amended_spec|].
  split; [exact parse_item_split|].
  split; [|exact parse_part_flag].
  intros item k v Hk. rewrite <- coerce_refines. by apply parse_part_key_value.
Qed.

(** C4 as stated fails on a value of 4301 digits: it consists of digits
    only, the specification's coercion makes it an integer, and the
    parser keeps it as a string. *)
Lemma long_numeral_stays_a_string :
  isdigit long_numeral = true
  /\ coerce_spec long_numeral = VInt (10 ^ 4300)
  /\ CPU.coerce long_numeral = VStr long_numeral
  /\ CPU.parse_part ∅ ("value=" +:+ long_numeral) !! "value"
     = Some (VStr long_numeral).
Proof. vm_compute. repeat split. Qed.

(** C4 on a concrete query string. *)
Example parse_ops_query_example :
  CPU.parse_ops_query ["crop:width=640,height=36.5,x=TRUE,y=1.2.3,exact"]
  = [list_to_map
       [("op", VStr "crop"); ("width", VInt 640);
        ("height", VFloat (float_lit "36.5")); ("x", VBool true);
        ("y", VStr "1.2.3"); ("exact", VBool true)]].
Proof. vm_compute. reflexivity. Qed.

(* ===================================================================== *)
(** * The rotate operation *)
(* ===================================================================== *)

Lemma cpu_apply_rotate st op :
  CPU.op_name op = Ok "rotate" -> CPU.apply_op st op = rotate_op st op.
Proof. intros H. unfold CPU.apply_op. rewrite H. reflexivity. Qed.

Lemma gpu_apply_rotate cfg st op :
  get op "op" (VStr "") = VStr "rotate" ->
  GPU.apply_op cfg st op = rotate_op st op.
Proof. intros H. unfold GPU.apply_op. rewrite H. reflexivity. Qed.

Lemma rotate_yields_intro cfg st op r :
  rotate_op st op = r -> rotate_yields cfg st op r.
Proof.
  intros <-. split; intros H.
  - by apply cpu_apply_rotate.
  - by apply gpu_apply_rotate.
Qed.

(** What the rotate branch does, by the integer it reads. *)
Lemma rotate_op_cases st op d :
  py_int (get op "degrees" (VInt 0)) = Ok d ->
  rotate_op st op =
    if d mod 90 =? 0 then
      if d =? 90 then Ok (add_vf st "transpose=1")
      else if d =? 180 then Ok (add_vf st "transpose=1,transpose=1")
      else if d =? 270 then Ok (add_vf st "transpose=2")
      else Ok st
    else
      x ← float_of_int d;
      Ok (add_vf st ("rotate=" +:+ float_repr (radians x) +:+ ":fillcolor=black")).
Proof. intros H. unfold rotate_op. rewrite H. reflexivity. Qed.

(** C3, as the code has it. The rotate operation reads its [degrees]
    argument through [int], that is truncated to an integer [d]. Then
    [d = 90] gives one transpose filter, [d = 180] two composed transpose
    filters, [d = 270] one transpose filter of the other direction, [d = 0]
    no filter, and every [d] that is not a multiple of 90 (and that
    converts to a float [x]) one generic rotate filter whose angle is
    [d * 3.14159265 / 180], with a black fill. *)
Theorem rotate_filters cfg st op d :
  py_int (get op "degrees" (VInt 0)) = Ok d ->
  (d = 90 -> rotate_yields cfg st op (Ok (add_vf st "transpose=1")))
  /\ (d = 180 ->
      rotate_yields cfg st op (Ok (add_vf st "transpose=1,transpose=1")))
  /\ (d = 270 -> rotate_yields cfg st op (Ok (add_vf st "transpose=2")))
  /\ (d = 0 -> rotate_yields cfg st op (Ok st))
  /\ (d mod 90 <> 0 -> forall x, float_of_int d = Ok x ->
      rotate_yields cfg st op
        (Ok (add_vf st ("rotate=" +:+ float_repr (radians x)
                          +:+ ":fillcolor=black")))).
Proof.
  intros Hd. pose proof (rotate_op_cases st op d Hd) as E.
  do 4 (split; [intros ->; apply rotate_yields_intro; exact E|]).
  intros Hm x Hx. apply rotate_yields_intro. rewrite E.
  destruct (d mod 90 =? 0) eqn:Em; [apply Z.eqb_eq in Em; contradiction|].
  rewrite Hx. reflexivity.
Qed.

(** The statement above at 45 degrees, in both variants. *)
Lemma rotate_filters_witness :
  rotate_yields default_config (CPU.init_state [])
    (<["degrees" := VInt 45]> {["op" := VStr "rotate"]})
    (Ok (add_vf (CPU.init_state [])
           "rotate=0.7853981624999999:fillcolor=black")).
Proof.
  refine (proj2 (proj2 (proj2 (proj2
    (rotate_filters default_config (CPU.init_state [])
       (<["degrees" := VInt 45]> {["op" := VStr "rotate"]}) 45 _)))) _
    (to_float 45) _).
  - reflexivity.
  - vm_compute. discriminate.
  - reflexivity.
Defined.

(** C3 as worded fails on a fractional value: 90.5 is no multiple of 90,
    and the filter it yields is the transpose of 90 degrees, not a generic
    rotate filter. *)
Lemma rotate_fractional_degrees :
  CPU.parse_ops_query ["rotate:degrees=90.5"] = [rotate_90_5]
  /\ py_str (get rotate_90_5 "degrees" (VInt 0)) = "90.5"
  /\ CPU.apply_op (CPU.init_state []) rotate_90_5
     = Ok (add_vf (CPU.init_state []) "transpose=1")
  /\ GPU.apply_op default_config (CPU.init_state []) rotate_90_5
     = Ok (add_vf (CPU.init_state []) "transpose=1")
  /\ ~ (exists angle,
          vf_filters (add_vf (CPU.init_state []) "transpose=1")
          = ["rotate=" +:+ angle +:+ ":fillcolor=black"]).
Proof.
  split; [vm_compute; reflexivity|].
  split; [vm_compute; reflexivity|].
  split; [vm_compute; reflexivity|].
  split; [vm_compute; reflexivity|].
  intros [angle H]. discriminate H.
Qed.

(** C10. A rotate operation whose degrees are a multiple of 90 other than
    90, 180 and 270 (360, 450, -90, ...) leaves the state as it is: no
    filter is emitted, exactly as for [degrees=0]. *)
Theorem rotate_other_multiples_of_90 cfg st op d :
  py_int (get op "degrees" (VInt 0)) = Ok d ->
  d mod 90 = 0 -> d <> 90 -> d <> 180 -> d <> 270 ->
  rotate_yields cfg st op (Ok st)
  /\ rotate_yields cfg st (<["degrees" := VInt 0]> op) (Ok st).
Proof.
  intros Hd Hm H90 H180 H270. split; apply rotate_yields_intro.
  - rewrite (rotate_op_cases st op d Hd).
    apply Z.eqb_eq in Hm. rewrite Hm.
    apply Z.eqb_neq in H90, H180, H270. by rewrite H90, H180, H270.
  - rewrite (rotate_op_cases st _ 0); [reflexivity|].
    unfold get. by rewrite lookup_insert_eq.
Qed.

Lemma rotate_other_multiples_of_90_witness :
  rotate_yields default_config (CPU.init_state []) rotate_360
    (Ok (CPU.init_state []))
  /\ rotate_yields default_config (CPU.init_state [])
       (<["degrees" := VInt 0]> rotate_360) (Ok (CPU.init_state [])).
Proof.
  apply (rotate_other_multiples_of_90 default_config (CPU.init_state [])
           rotate_360 360); [reflexivity|reflexivity|lia|lia|lia].
Defined.

(** The examples of C10 as they come out of the parser: 450 is read as an
    integer, -90 as the string ["-90"], which [int] converts. *)
Example rotate_450_and_minus_90 :
  (st ← CPU.run_ops (CPU.init_state [])
         (CPU.parse_ops_query ["rotate:degrees=450"; "rotate:degrees=-90"]);
   Ok (vf_filters st)) = Ok [].
Proof. vm_compute. reflexivity. Qed.

(* ===================================================================== *)
(** * The codec and container selector *)
(* ===================================================================== *)

Lemma str_in_false s l : ~ In s l -> str_in s l = false.
Proof.
  intros H. destruct (str_in s l) eqn:E; [|reflexivity].
  apply str_in_true in E. contradiction.
Qed.

(** C5. The selector of the CPU variant depends on the target format only.
    With [f] the format lower-cased (the empty format counting as mp4):
    mp4, m4v and mov select the mp4 container with the x264/aac pair; webm
    selects webm with vp9 and opus; mkv selects mkv; gif selects gif and
    its arguments disable audio; hls and m3u8 select the m3u8 profile;
    every other format selects the mp4 container with the default pair. *)
Theorem container_and_codec_selection (fmt : string) :
  let f := lower (if fmt == "" then "mp4" else fmt) in
  (In f ["mp4"; "m4v"; "mov"] ->
     CPU._choose_container_and_codecs fmt
     = ("mp4", ["-c:v"; "libx264"; "-c:a"; "aac"; "-movflags"; "+faststart"]))
  /\ (f = "webm" ->
      CPU._choose_container_and_codecs fmt
      = ("webm", ["-c:v"; "libvpx-vp9"; "-row-mt"; "1"; "-c:a"; "libopus"]))
  /\ (f = "mkv" ->
      CPU._choose_container_and_codecs fmt
      = ("mkv", ["-c:v"; "libx264"; "-c:a"; "aac"]))
  /\ (f = "gif" ->
      CPU._choose_container_and_codecs fmt = ("gif", ["-an"; "-loop"; "0"]))
  /\ (In f ["hls"; "m3u8"] ->
      CPU._choose_container_and_codecs fmt
      = ("m3u8", ["-c:v"; "libx264"; "-c:a"; "aac"; "-f"; "hls";
                  "-hls_time"; "4"; "-hls_list_size"; "0"]))
  /\ (~ In f ["mp4"; "m4v"; "mov"; "webm"; "mkv"; "gif"; "hls"; "m3u8"] ->
      CPU._choose_container_and_codecs fmt
      = ("mp4", ["-c:v"; "libx264"; "-c:a"; "aac"; "-movflags"; "+faststart"])).
Proof.
  intros f. unfold CPU._choose_container_and_codecs. fold f.
  split; [intros H; simpl in H; by destruct H as [<-|[<-|[<-|[]]]]|].
  split; [by intros ->|].
  split; [by intros ->|].
  split; [by intros ->|].
  split; [intros H; simpl in H; by destruct H as [<-|[<-|[]]]|].
  intros H.
  repeat (rewrite str_in_false; [|intros Hin; apply H; simpl in *; tauto]).
  reflexivity.
Qed.

(** The selector never yields a container besides these five, and the
    m3u8 profile only for hls or m3u8. *)
Lemma cpu_container_cases fmt :
  let f := lower (if fmt == "" then "mp4" else fmt) in
  let c := (CPU._choose_container_and_codecs fmt).1 in
  (c = "m3u8" /\ str_in f ["hls"; "m3u8"] = true)
  \/ (str_in f ["hls"; "m3u8"] = false
      /\ (c = "mp4" \/ c = "webm" \/ c = "mkv" \/ c = "gif")).
Proof.
  intros f c. subst c. unfold CPU._choose_container_and_codecs. fold f.
  destruct (str_in f ["mp4"; "m4v"; "mov"]) eqn:E1.
  { right. simpl. split; [|tauto].
    apply str_in_true in E1. simpl in E1.
    by destruct E1 as [<-|[<-|[<-|[]]]]. }
  destruct (str_in f ["webm"]) eqn:E2.
  { right. simpl. split; [|tauto].
    apply str_in_true in E2. simpl in E2. by destruct E2 as [<-|[]]. }
  destruct (str_in f ["mkv"]) eqn:E3.
  { right. simpl. split; [|tauto].
    apply str_in_true in E3. simpl in E3. by destruct E3 as [<-|[]]. }
  destruct (str_in f ["gif"]) eqn:E4.
  { right. simpl. split; [|tauto].
    apply str_in_true in E4. simpl in E4. by destruct E4 as [<-|[]]. }
  destruct (str_in f ["hls"; "m3u8"]) eqn:E5.
  { left. by split. }
  right. simpl. tauto.
Qed.

Lemma gpu_container_cases cfg fmt :
  let f := lower (if fmt == "" then "mp4" else fmt) in
  let c := (GPU._choose_container_and_codecs cfg fmt).1 in
  (c = "m3u8" /\ str_in f ["hls"; "m3u8"] = true)
  \/ (str_in f ["hls"; "m3u8"] = false
      /\ (c = "mp4" \/ c = "webm" \/ c = "mkv" \/ c = "gif")).
Proof.
  intros f c. subst c. unfold GPU._choose_container_and_codecs. fold f.
  destruct (str_in f ["mp4"; "m4v"; "mov"]) eqn:E1.
  { right. split.
    - apply str_in_true in E1. simpl in E1.
      by destruct E1 as [<-|[<-|[<-|[]]]].
    - destruct (GPU.vaapi cfg); simpl; tauto. }
  destruct (f == "webm") eqn:E2.
  { right. simpl. split; [|tauto].
    apply String.eqb_eq in E2. by rewrite E2. }
  destruct (f == "mkv") eqn:E3.
  { right. simpl. split; [|tauto].
    apply String.eqb_eq in E3. by rewrite E3. }
  destruct (f == "gif") eqn:E4.
  { right. simpl. split; [|tauto].
    apply String.eqb_eq in E4. by rewrite E4. }
  destruct (str_in f ["hls"; "m3u8"]) eqn:E5.
  { left. by split. }
  right. simpl. tauto.
Qed.

(* ===================================================================== *)
(** * The loop over the operations *)
(* ===================================================================== *)

Lemma cpu_run_ops_app l1 l2 : forall st,
  CPU.run_ops st (l1 ++ l2) = st' ← CPU.run_ops st l1; CPU.run_ops st' l2.
Proof.
  induction l1 as [|op l1 IH]; intros st; simpl; [reflexivity|].
  destruct (CPU.apply_op st op) as [st'|e]; simpl; [apply IH|reflexivity].
Qed.

Lemma gpu_run_ops_app cfg l1 l2 : forall st,
  GPU.run_ops cfg st (l1 ++ l2)
  = st' ← GPU.run_ops cfg st l1; GPU.run_ops cfg st' l2.
Proof.
  induction l1 as [|op l1 IH]; intros st; simpl; [reflexivity|].
  destruct (GPU.apply_op cfg st op) as [st'|e]; simpl; [apply IH|reflexivity].
Qed.

(** An operation whose name the loop has no branch for leaves the state
    as it is. *)
Lemma cpu_apply_unknown st d n :
  get d "op" (VStr "") = VStr n -> ~ In (lower n) CPU.recognized ->
  CPU.apply_op st d = Ok st.
Proof.
  intros Hn Hr. unfold CPU.apply_op, CPU.op_name. rewrite Hn.
  cbn [mbind result_bind].
  assert (Hne : forall s, In s CPU.recognized -> (lower n == s) = false).
  { intros s Hs. apply String.eqb_neq. intros E. subst s. contradiction. }
  unfold str_in. cbn [existsb].
  rewrite !Hne by (unfold CPU.recognized; simpl; tauto).
  reflexivity.
Qed.

(** C8, amended. A descriptor whose name is a string that is none of the
    recognized operations is ignored: the loop ends in the same state
    (filter list, codec argument lists, flags, command), without raising,
    as for the list without that descriptor, and so do
    [_apply_ops_and_watermark] and [process_video]. *)
Theorem unknown_operation_ignored cfg path_exists uuid4_hex in_path tmpdir
    cmd0 l1 d l2 n :
  get d "op" (VStr "") = VStr n -> ~ In (lower n) CPU.recognized ->
  CPU.run_ops (CPU.init_state cmd0) (l1 ++ d :: l2)
  = CPU.run_ops (CPU.init_state cmd0) (l1 ++ l2)
  /\ CPU._apply_ops_and_watermark cfg path_exists cmd0 (l1 ++ d :: l2)
     = CPU._apply_ops_and_watermark cfg path_exists cmd0 (l1 ++ l2)
  /\ CPU.process_video cfg path_exists uuid4_hex in_path (l1 ++ d :: l2) tmpdir
     = CPU.process_video cfg path_exists uuid4_hex in_path (l1 ++ l2) tmpdir.
Proof.
  intros Hn Hr.
  assert (E : forall c, CPU.run_ops (CPU.init_state c) (l1 ++ d :: l2)
                        = CPU.run_ops (CPU.init_state c) (l1 ++ l2)).
  { intros c. rewrite !cpu_run_ops_app.
    destruct (CPU.run_ops (CPU.init_state c) l1) as [st|e]; [|reflexivity].
    simpl. by rewrite (cpu_apply_unknown st d n Hn Hr). }
  split; [apply E|].
  assert (E2 : forall c,
            CPU._apply_ops_and_watermark cfg path_exists c (l1 ++ d :: l2)
            = CPU._apply_ops_and_watermark cfg path_exists c (l1 ++ l2)).
  { intros c. unfold CPU._apply_ops_and_watermark. by rewrite E. }
  split; [apply E2|].
  unfold CPU.process_video. by rewrite E2.
Qed.

Lemma unknown_operation_ignored_witness :
  CPU.run_ops (CPU.init_state ["ffmpeg"])
    (CPU.parse_ops_query ["fps:value=24"] ++
     <["level" := VInt 3]> {["op" := VStr "Denoise"]}
       :: CPU.parse_ops_query ["grayscale"])
  = CPU.run_ops (CPU.init_state ["ffmpeg"])
      (CPU.parse_ops_query ["fps:value=24"] ++ CPU.parse_ops_query ["grayscale"]).
Proof.
  refine (proj1 (unknown_operation_ignored default_config no_files
                   (fun _ => "") "in" "tmp" ["ffmpeg"] _ _ _ "Denoise" _ _)).
  - reflexivity.
  - vm_compute. intuition discriminate.
Defined.

(** C8 as stated fails on the descriptor of [denoise:op=5]: its name, the
    integer 5, is none of the recognized operations, and the loop raises
    [AttributeError] where the list without it compiles. *)
Lemma unknown_operation_with_a_number_for_name :
  get (CPU.parse_item "denoise:op=5") "op" (VStr "") = VInt 5
  /\ (st ← CPU.run_ops (CPU.init_state ["ffmpeg"])
              (CPU.parse_ops_query ["fps:value=24"; "denoise:op=5"; "grayscale"]);
      Ok (vf_filters st)) = Raise AttributeError
  /\ (st ← CPU.run_ops (CPU.init_state ["ffmpeg"])
              (CPU.parse_ops_query ["fps:value=24"; "grayscale"]);
      Ok (vf_filters st)) = Ok ["fps=24"; "format=gray"].
Proof. vm_compute. repeat split. Qed.

(** The same in the GPU variant, which compares the name as it is and
    also knows [fast]; a name that is not a string matches no branch. *)
Lemma gpu_apply_unknown cfg st d :
  (forall n, get d "op" (VStr "") = VStr n ->
             ~ In n ("fast" :: CPU.recognized)) ->
  GPU.apply_op cfg st d = Ok st.
Proof.
  intros H. unfold GPU.apply_op.
  destruct (get d "op" (VStr "")) as [b|z|x|n] eqn:Hn; try reflexivity.
  specialize (H n eq_refl).
  assert (Hne : forall s, In s ("fast" :: CPU.recognized) ->
                          (n == s) = false).
  { intros s Hs. apply String.eqb_neq. intros E. subst s. contradiction. }
  unfold GPU.name_is.
  rewrite !Hne by (unfold CPU.recognized; simpl; tauto).
  reflexivity.
Qed.

Lemma gpu_ignores_unknown_operation cfg path_exists uuid4_hex in_path tmpdir
    l1 d l2 :
  (forall n, get d "op" (VStr "") = VStr n ->
             ~ In n ("fast" :: CPU.recognized)) ->
  GPU.process_video cfg path_exists uuid4_hex in_path (l1 ++ d :: l2) tmpdir
  = GPU.process_video cfg path_exists uuid4_hex in_path (l1 ++ l2) tmpdir.
Proof.
  intros H. unfold GPU.process_video, GPU._apply_ops_and_watermark.
  destruct (GPU._base_cmd cfg in_path) as [c|e]; [|reflexivity].
  cbn [mbind result_bind]. rewrite !gpu_run_ops_app.
  destruct (GPU.run_ops cfg _ l1) as [st|e]; [|reflexivity].
  simpl. by rewrite (gpu_apply_unknown cfg st d H).
Qed.

(* ===================================================================== *)
(** * The output extension *)
(* ===================================================================== *)

Lemma rotate_op_frame st op st' :
  rotate_op st op = Ok st' ->
  forced_ext st' = forced_ext st /\ is_hls st' = is_hls st
  /\ cmd st' = cmd st /\ vcodec_args st' = vcodec_args st
  /\ acodec_args st' = acodec_args st.
Proof.
  unfold rotate_op.
  destruct (py_int (get op "degrees" (VInt 0))) as [d|e]; [|discriminate].
  cbn [mbind result_bind].
  destruct (d mod 90 =? 0).
  - destruct (d =? 90); [by intros [= <-]|].
    destruct (d =? 180); [by intros [= <-]|].
    destruct (d =? 270); [by intros [= <-]|].
    by intros [= <-].
  - destruct (float_of_int d) as [x|e]; [|discriminate].
    by intros [= <-].
Qed.

Lemma cpu_apply_forced_ext st op st' :
  CPU.apply_op st op = Ok st' ->
  forced_ext st' = ext_step (forced_ext st) op.
Proof.
  unfold CPU.apply_op, ext_step, named.
  destruct (CPU.op_name op) as [name|e]; [|discriminate].
  cbn [mbind result_bind].
  destruct (name == "format") eqn:Ef.
  { by intros [= <-]. }
  destruct (name == "thumbnail") eqn:Et.
  { apply String.eqb_eq in Et. subst name. simpl.
    intros [= <-]. simpl. by destruct (forced_ext st) as [[|]|]. }
  destruct ((name == "scale") || (name == "resize"))%bool; [by intros [= <-]|].
  destruct (name == "fps"); [by intros [= <-]|].
  destruct (name == "crop"); [by intros [= <-]|].
  destruct (name == "bitrate").
  { intros [= <-]. by destruct (op !! "video"), (op !! "audio"). }
  destruct (name == "crf"); [by intros [= <-]|].
  destruct (name == "preset"); [by intros [= <-]|].
  destruct (name == "audio").
  { intros [= <-]. by destruct (truthy _). }
  destruct (name == "rotate").
  { intros H. by apply rotate_op_frame in H as [-> _]. }
  destruct (str_in name ["grayscale"; "monochrome"]); by intros [= <-].
Qed.

Lemma cpu_run_forced_ext ops : forall st st',
  CPU.run_ops st ops = Ok st' ->
  forced_ext st' = foldl ext_step (forced_ext st) ops.
Proof.
  induction ops as [|op ops IH]; simpl; intros st st'.
  - by intros [= <-].
  - destruct (CPU.apply_op st op) as [st1|e] eqn:E; [|discriminate].
    cbn [mbind result_bind]. intros H.
    rewrite (IH _ _ H). by rewrite (cpu_apply_forced_ext _ _ _ E).
Qed.

Lemma ext_fold_no_format l : forall e,
  forallb (fun o => negb (named "format" o)) l = true ->
  foldl ext_step e l
  = if existsb (named "thumbnail") l then png_default e else e.
Proof.
  induction l as [|op l IH]; simpl; intros e; [reflexivity|].
  intros [Hf Hl]%andb_true_iff. apply negb_true_iff in Hf.
  rewrite (IH _ Hl). unfold ext_step. rewrite Hf.
  destruct (named "thumbnail" op); simpl; [|reflexivity].
  destruct (existsb (named "thumbnail") l); [|reflexivity].
  by destruct e as [[|]|].
Qed.

Lemma ext_fold_last_format l1 f l2 e :
  named "format" f = true ->
  forallb (fun o => negb (named "format" o)) l2 = true ->
  foldl ext_step e (l1 ++ f :: l2)
  = if existsb (named "thumbnail") l2 then png_default (Some (format_type f))
    else Some (format_type f).
Proof.
  intros Hf Hl. rewrite foldl_app. simpl.
  rewrite (ext_fold_no_format _ _ Hl). unfold ext_step. by rewrite Hf.
Qed.

Lemma out_ext_run cfg path_exists cmd0 ops st :
  CPU.run_ops (CPU.init_state cmd0) ops = Ok st ->
  out_ext cfg path_exists cmd0 ops = Ok (ext_or_mp4 (forced_ext st)).
Proof.
  intros H. unfold out_ext, CPU._apply_ops_and_watermark. rewrite H.
  cbn [mbind result_bind]. unfold CPU.watermark.
  by destruct (image_usable cfg path_exists).
Qed.

(** C2, as the code has it. One extension is resolved per job,
    [forced_ext or "mp4"]. When format operations are present, the type of
    the last one, lower-cased, is that extension wherever the other
    operations stand, provided it is not empty; an empty type counts as
    no extension set, so a later thumbnail gives png and otherwise mp4.
    Without a format operation a thumbnail operation gives png, an image
    extension, and without either the extension is mp4. *)
Theorem output_extension_resolution cfg path_exists cmd0 ops st :
  CPU.run_ops (CPU.init_state cmd0) ops = Ok st ->
  exists ext,
    out_ext cfg path_exists cmd0 ops = Ok ext
    /\ (forall l1 f l2,
          ops = l1 ++ f :: l2 -> named "format" f = true ->
          forallb (fun o => negb (named "format" o)) l2 = true ->
          (format_type f <> "" -> ext = format_type f)
          /\ (format_type f = "" ->
              ext = if existsb (named "thumbnail") l2 then "png" else "mp4"))
    /\ (forallb (fun o => negb (named "format" o)) ops = true ->
        ext = if existsb (named "thumbnail") ops then "png" else "mp4").
Proof.
  intros Hrun. exists (ext_or_mp4 (forced_ext st)).
  split; [by apply out_ext_run|].
  rewrite (cpu_run_forced_ext _ _ _ Hrun). simpl.
  split.
  - intros l1 f l2 -> Hf Hl. rewrite (ext_fold_last_format _ _ _ _ Hf Hl).
    split.
    + intros Hne. destruct (format_type f) as [|c t]; [done|].
      by destruct (existsb (named "thumbnail") l2).
    + intros ->. by destruct (existsb (named "thumbnail") l2).
  - intros Hl. rewrite (ext_fold_no_format _ _ Hl).
    by destruct (existsb (named "thumbnail") ops).
Qed.

Lemma output_extension_resolution_witness :
  exists ext,
    out_ext default_config no_files ["ffmpeg"]
      (CPU.parse_ops_query ["thumbnail:at=5"; "format:type=WebM"; "fps"])
    = Ok ext
    /\ ext = "webm".
Proof.
  destruct (output_extension_resolution default_config no_files ["ffmpeg"]
              (CPU.parse_ops_query ["thumbnail:at=5"; "format:type=WebM"; "fps"])
              _ eq_refl) as (ext & Hext & Hfmt & _).
  exists ext. split; [exact Hext|].
  refine (proj1 (Hfmt (CPU.parse_ops_query ["thumbnail:at=5"])
                   (<["type" := VStr "WebM"]> {["op" := VStr "format"]})
                   (CPU.parse_ops_query ["fps"]) _ _ _) _).
  - vm_compute. reflexivity.
  - reflexivity.
  - reflexivity.
  - vm_compute. discriminate.
Defined.

(** C2 as worded fails when the type is empty: with the same format
    operation, the extension is png when a thumbnail follows it and mp4
    when the thumbnail precedes it. *)
Lemma format_position_matters :
  CPU.parse_ops_query ["format:type="; "thumbnail"]
  = [format_empty; thumbnail_op]
  /\ out_ext default_config no_files [] [format_empty; thumbnail_op] = Ok "png"
  /\ out_ext default_config no_files [] [thumbnail_op; format_empty] = Ok "mp4".
Proof.
  split; [vm_compute; reflexivity|].
  split; vm_compute; reflexivity.
Qed.

(* ===================================================================== *)
(** * Single-file and segmented jobs *)
(* ===================================================================== *)

Lemma rotate_op_shape st op st' : rotate_op st op = Ok st' -> ext_shape st st'.
Proof. intros H. left. apply rotate_op_frame in H. tauto. Qed.

Lemma cpu_apply_shape st op st' :
  CPU.apply_op st op = Ok st' -> ext_shape st st'.
Proof.
  unfold CPU.apply_op.
  destruct (CPU.op_name op) as [name|e]; [|discriminate].
  cbn [mbind result_bind].
  destruct (name == "format").
  { intros [= <-]. right. left. by eexists. }
  destruct ((name == "scale") || (name == "resize"))%bool;
    [intros [= <-]; by left|].
  destruct (name == "fps"); [intros [= <-]; by left|].
  destruct (name == "crop"); [intros [= <-]; by left|].
  destruct (name == "bitrate").
  { intros [= <-]. left. by destruct (op !! "video"), (op !! "audio"). }
  destruct (name == "crf"); [intros [= <-]; by left|].
  destruct (name == "preset"); [intros [= <-]; by left|].
  destruct (name == "audio").
  { intros [= <-]. left. by destruct (truthy _). }
  destruct (name == "rotate"); [apply rotate_op_shape|].
  destruct (str_in name ["grayscale"; "monochrome"]);
    [intros [= <-]; by left|].
  destruct (name == "thumbnail"); intros [= <-]; [|by left].
  right. right. by split.
Qed.

Lemma gpu_apply_shape cfg st op st' :
  GPU.apply_op cfg st op = Ok st' -> ext_shape st st'.
Proof.
  unfold GPU.apply_op. set (name := get op "op" (VStr "")).
  destruct (GPU.name_is name "format").
  { intros [= <-]. right. left. by eexists. }
  destruct (GPU.name_is name "resize" || GPU.name_is name "scale")%bool;
    [intros [= <-]; by left|].
  destruct (GPU.name_is name "fps"); [intros [= <-]; by left|].
  destruct (GPU.name_is name "crop"); [intros [= <-]; by left|].
  destruct (GPU.name_is name "bitrate").
  { intros [= <-]. left. by destruct (op !! "video"), (op !! "audio"). }
  destruct (GPU.name_is name "crf"); [intros [= <-]; by left|].
  destruct (GPU.name_is name "preset" && negb (GPU.vaapi cfg))%bool;
    [intros [= <-]; by left|].
  destruct (GPU.name_is name "audio" && truthy _)%bool;
    [intros [= <-]; by left|].
  destruct (GPU.name_is name "rotate"); [apply rotate_op_shape|].
  destruct (GPU.name_is name "grayscale" || GPU.name_is name "monochrome")%bool;
    [intros [= <-]; by left|].
  destruct (GPU.name_is name "thumbnail").
  { intros [= <-]. right. right. by split. }
  destruct (GPU.name_is name "fast"); intros [= <-]; by left.
Qed.

Lemma ext_shape_inv st st' : ext_shape st st' -> ext_inv st -> ext_inv st'.
Proof.
  intros [[He Hh]|[(t & He & Hh)|[He Hh]]] Hinv e; rewrite ?He, ?Hh.
  - apply Hinv.
  - intros [= <-]. split; [apply lower_idemp|]. by intros ->.
  - destruct (forced_ext st) as [[|c x]|] eqn:Ef; simpl; intros [= <-].
    + by split.
    + apply (Hinv _ Ef).
    + by split.
Qed.

Lemma ext_shape_hls st st' :
  ext_shape st st' -> is_hls st = true -> is_hls st' = true.
Proof.
  intros [[_ Hh]|[(t & _ & Hh)|[_ Hh]]] H; rewrite Hh, ?H; [done| |done].
  by destruct (str_in _ _).
Qed.

Lemma init_state_inv c : ext_inv (CPU.init_state c).
Proof. intros e. discriminate. Qed.

Lemma cpu_run_inv ops : forall st st',
  CPU.run_ops st ops = Ok st' -> ext_inv st -> ext_inv st'.
Proof.
  induction ops as [|op ops IH]; simpl; intros st st'.
  - by intros [= <-].
  - destruct (CPU.apply_op st op) as [st1|e] eqn:E; [|discriminate].
    cbn [mbind result_bind]. intros H Hi. apply (IH _ _ H).
    eapply ext_shape_inv; [by eapply cpu_apply_shape|exact Hi].
Qed.

Lemma gpu_run_inv cfg ops : forall st st',
  GPU.run_ops cfg st ops = Ok st' -> ext_inv st -> ext_inv st'.
Proof.
  induction ops as [|op ops IH]; simpl; intros st st'.
  - by intros [= <-].
  - destruct (GPU.apply_op cfg st op) as [st1|e] eqn:E; [|discriminate].
    cbn [mbind result_bind]. intros H Hi. apply (IH _ _ H).
    eapply ext_shape_inv; [by eapply gpu_apply_shape|exact Hi].
Qed.

Lemma cpu_run_hls ops : forall st st',
  CPU.run_ops st ops = Ok st' -> is_hls st = true -> is_hls st' = true.
Proof.
  induction ops as [|op ops IH]; simpl; intros st st'.
  - by intros [= <-].
  - destruct (CPU.apply_op st op) as [st1|e] eqn:E; [|discriminate].
    cbn [mbind result_bind]. intros H Hi. apply (IH _ _ H).
    eapply ext_shape_hls; [by eapply cpu_apply_shape|exact Hi].
Qed.

Lemma gpu_run_hls cfg ops : forall st st',
  GPU.run_ops cfg st ops = Ok st' -> is_hls st = true -> is_hls st' = true.
Proof.
  induction ops as [|op ops IH]; simpl; intros st st'.
  - by intros [= <-].
  - destruct (GPU.apply_op cfg st op) as [st1|e] eqn:E; [|discriminate].
    cbn [mbind result_bind]. intros H Hi. apply (IH _ _ H).
    eapply ext_shape_hls; [by eapply gpu_apply_shape|exact Hi].
Qed.

(** A format operation asking for hls or m3u8 sets the segmented flag. *)
Lemma cpu_apply_hls st f st' :
  CPU.apply_op st f = Ok st' -> named "format" f = true ->
  str_in (format_type f) ["hls"; "m3u8"] = true -> is_hls st' = true.
Proof.
  unfold CPU.apply_op, named.
  destruct (CPU.op_name f) as [name|e]; [|discriminate].
  cbn [mbind result_bind]. intros H Hn. rewrite Hn in H.
  injection H as <-. unfold format_type. simpl. by intros ->.
Qed.

Lemma gpu_apply_hls cfg st f st' :
  GPU.apply_op cfg st f = Ok st' -> gpu_named "format" f = true ->
  str_in (format_type f) ["hls"; "m3u8"] = true -> is_hls st' = true.
Proof.
  unfold GPU.apply_op, gpu_named. intros H Hn. rewrite Hn in H.
  injection H as <-. unfold format_type. simpl. by intros ->.
Qed.

Lemma cpu_run_hls_format ops : forall st st' f,
  CPU.run_ops st ops = Ok st' -> In f ops -> named "format" f = true ->
  str_in (format_type f) ["hls"; "m3u8"] = true -> is_hls st' = true.
Proof.
  induction ops as [|op ops IH]; simpl; intros st st' f; [tauto|].
  destruct (CPU.apply_op st op) as [st1|e] eqn:E; [|discriminate].
  cbn [mbind result_bind]. intros H [->|Hin] Hn Ht.
  - apply (cpu_run_hls _ _ _ H). by eapply cpu_apply_hls.
  - by eapply IH.
Qed.

Lemma gpu_run_hls_format cfg ops : forall st st' f,
  GPU.run_ops cfg st ops = Ok st' -> In f ops -> gpu_named "format" f = true ->
  str_in (format_type f) ["hls"; "m3u8"] = true -> is_hls st' = true.
Proof.
  induction ops as [|op ops IH]; simpl; intros st st' f; [tauto|].
  destruct (GPU.apply_op cfg st op) as [st1|e] eqn:E; [|discriminate].
  cbn [mbind result_bind]. intros H [->|Hin] Hn Ht.
  - apply (gpu_run_hls _ _ _ _ H). by eapply gpu_apply_hls.
  - by eapply IH.
Qed.

(** [process_video] fails exactly when the loop over the operations
    does, and otherwise delivers what [deliver] builds. *)
Lemma cpu_process_video_run cfg path_exists uuid4_hex in_path ops tmpdir st :
  CPU.run_ops (CPU.init_state (CPU._base_cmd cfg in_path)) ops = Ok st ->
  exists c ct,
    CPU.process_video cfg path_exists uuid4_hex in_path ops tmpdir
    = Ok (CPU.deliver uuid4_hex tmpdir c (forced_ext st) ct (is_hls st)).
Proof.
  intros H. unfold CPU.process_video, CPU._apply_ops_and_watermark.
  rewrite H. cbn [mbind result_bind]. unfold CPU.watermark.
  destruct (image_usable cfg path_exists); cbn; eauto.
Qed.

Lemma cpu_process_video_ok cfg path_exists uuid4_hex in_path ops tmpdir out :
  CPU.process_video cfg path_exists uuid4_hex in_path ops tmpdir = Ok out ->
  exists st,
    CPU.run_ops (CPU.init_state (CPU._base_cmd cfg in_path)) ops = Ok st.
Proof.
  unfold CPU.process_video, CPU._apply_ops_and_watermark.
  destruct (CPU.run_ops _ ops) as [st|e]; [eauto|discriminate].
Qed.

(** The base command of the GPU variant: that of the CPU variant with the
    software encoder, a [NameError] with the VAAPI encoder. *)
Lemma gpu_base_cmd_software cfg in_path :
  ENCODER cfg <> "h264_vaapi" ->
  GPU._base_cmd cfg in_path = Ok (CPU._base_cmd cfg in_path).
Proof.
  intros H. apply String.eqb_neq in H. unfold GPU._base_cmd, GPU.vaapi.
  by rewrite H.
Qed.

Lemma gpu_base_cmd_vaapi cfg in_path :
  ENCODER cfg = "h264_vaapi" -> GPU._base_cmd cfg in_path = Raise NameError.
Proof. intros H. unfold GPU._base_cmd, GPU.vaapi. by rewrite H. Qed.

Lemma gpu_base_cmd_ok cfg in_path c0 :
  GPU._base_cmd cfg in_path = Ok c0 ->
  ENCODER cfg <> "h264_vaapi" /\ c0 = CPU._base_cmd cfg in_path.
Proof.
  unfold GPU._base_cmd, GPU.vaapi.
  destruct (String.eqb_spec (ENCODER cfg) "h264_vaapi"); [discriminate|].
  by intros [= <-].
Qed.

Lemma gpu_process_video_vaapi cfg path_exists uuid4_hex in_path ops tmpdir :
  ENCODER cfg = "h264_vaapi" ->
  GPU.process_video cfg path_exists uuid4_hex in_path ops tmpdir
  = Raise NameError.
Proof.
  intros H. unfold GPU.process_video. by rewrite (gpu_base_cmd_vaapi _ _ H).
Qed.

Lemma gpu_process_video_run cfg path_exists uuid4_hex in_path ops tmpdir c0 st :
  GPU._base_cmd cfg in_path = Ok c0 ->
  GPU.run_ops cfg (CPU.init_state c0) ops = Ok st ->
  exists c ct vfc,
    GPU.process_video cfg path_exists uuid4_hex in_path ops tmpdir
    = Ok (GPU.deliver cfg uuid4_hex tmpdir c (forced_ext st) ct (is_hls st) vfc).
Proof.
  intros Hb H. unfold GPU.process_video, GPU._apply_ops_and_watermark.
  rewrite Hb. cbn [mbind result_bind]. rewrite H. cbn. eauto.
Qed.

Lemma gpu_process_video_ok cfg path_exists uuid4_hex in_path ops tmpdir out :
  GPU.process_video cfg path_exists uuid4_hex in_path ops tmpdir = Ok out ->
  exists c0 st,
    GPU._base_cmd cfg in_path = Ok c0
    /\ GPU.run_ops cfg (CPU.init_state c0) ops = Ok st.
Proof.
  unfold GPU.process_video, GPU._apply_ops_and_watermark.
  destruct (GPU._base_cmd cfg in_path) as [c0|e]; [|discriminate].
  cbn [mbind result_bind].
  destruct (GPU.run_ops _ _ ops) as [st|e] eqn:E; [|discriminate].
  intros _. by exists c0, st.
Qed.

Lemma cpu_deliver_archive uuid4_hex tmpdir c forced ct :
  is_archive uuid4_hex tmpdir (CPU.deliver uuid4_hex tmpdir c forced ct true).
Proof.
  unfold is_archive, CPU.deliver.
  exists (c ++ CPU.tuple_list ct ++ (CPU._choose_container_and_codecs "hls").2).
  by rewrite <- !app_assoc.
Qed.

Lemma cpu_deliver_single uuid4_hex tmpdir c forced ct :
  is_single_file (CPU.deliver uuid4_hex tmpdir c forced ct false).
Proof.
  unfold is_single_file, CPU.deliver.
  destruct (CPU._choose_container_and_codecs (ext_or_mp4 forced))
    as [container codec_args].
  exists (c ++ CPU.tuple_list ct ++ codec_args). simpl.
  by rewrite <- !app_assoc.
Qed.

Lemma gpu_deliver_archive cfg uuid4_hex tmpdir c forced ct hls vfc :
  (str_in (default "" forced) ["hls"; "m3u8"] || hls)%bool = true ->
  is_archive uuid4_hex tmpdir (GPU.deliver cfg uuid4_hex tmpdir c forced ct hls vfc).
Proof.
  intros H. unfold is_archive, GPU.deliver. rewrite H.
  exists (c ++ GPU.graph_args ct ++ vfc
            ++ (GPU._choose_container_and_codecs cfg "hls").2).
  by rewrite <- !app_assoc.
Qed.

Lemma gpu_deliver_single cfg uuid4_hex tmpdir c forced ct hls vfc :
  (str_in (default "" forced) ["hls"; "m3u8"] || hls)%bool = false ->
  is_single_file (GPU.deliver cfg uuid4_hex tmpdir c forced ct hls vfc).
Proof.
  intros H. unfold is_single_file, GPU.deliver. rewrite H.
  destruct (GPU._choose_container_and_codecs cfg (ext_or_mp4 forced))
    as [container codec_args].
  exists (c ++ GPU.graph_args ct ++ vfc ++ codec_args). simpl.
  by rewrite <- !app_assoc.
Qed.

Lemma archive_not_single uuid4_hex tmpdir out :
  ~ (is_archive uuid4_hex tmpdir out /\ is_single_file out).
Proof.
  intros [[argv ->] [argv' H]]. simpl in H. discriminate H.
Qed.

Lemma zip_dir_has_file contents name :
  In (File name) contents -> In name (_zip_dir contents).
Proof.
  intros H. unfold _zip_dir, files_here. apply in_app_iff. left.
  apply in_flat_map. exists (File name). split; [exact H|by left].
Qed.

(** The two shapes of a job. A job that yields a result yields one
    deliverable of one of the two shapes and never of both, in either
    variant; and whenever the operations include a format operation of
    type hls or m3u8 it is the archive: the engine writes the playlist and
    the segments into a directory of the job's own, that directory is
    archived, and the archive is returned as [application/zip]. The
    archive holds every file of that directory under its own name. A job
    of the CPU variant, and one of the GPU variant with another encoder
    than VAAPI, yields a result unless the loop over its operations
    raises; a job of the GPU variant with the VAAPI encoder raises
    [NameError] before it reads its operations. *)
Lemma hls_job_yields_one_archive cfg path_exists uuid4_hex in_path tmpdir ops :
  ((forall st,
      CPU.run_ops (CPU.init_state (CPU._base_cmd cfg in_path)) ops = Ok st ->
      exists out,
        CPU.process_video cfg path_exists uuid4_hex in_path ops tmpdir = Ok out)
   /\ (forall out,
         CPU.process_video cfg path_exists uuid4_hex in_path ops tmpdir = Ok out ->
         (is_archive uuid4_hex tmpdir out \/ is_single_file out)
         /\ ~ (is_archive uuid4_hex tmpdir out /\ is_single_file out)
         /\ ((exists f, In f ops /\ named "format" f = true
                        /\ str_in (format_type f) ["hls"; "m3u8"] = true) ->
             is_archive uuid4_hex tmpdir out)))
  /\ ((forall c0 st,
         GPU._base_cmd cfg in_path = Ok c0 ->
         GPU.run_ops cfg (CPU.init_state c0) ops = Ok st ->
         exists out,
           GPU.process_video cfg path_exists uuid4_hex in_path ops tmpdir = Ok out)
      /\ (forall out,
            GPU.process_video cfg path_exists uuid4_hex in_path ops tmpdir = Ok out ->
            (is_archive uuid4_hex tmpdir out \/ is_single_file out)
            /\ ~ (is_archive uuid4_hex tmpdir out /\ is_single_file out)
            /\ ((exists f, In f ops /\ gpu_named "format" f = true
                           /\ str_in (format_type f) ["hls"; "m3u8"] = true) ->
                is_archive uuid4_hex tmpdir out)))
  /\ (ENCODER cfg = "h264_vaapi" ->
      GPU.process_video cfg path_exists uuid4_hex in_path ops tmpdir
      = Raise NameError)
  /\ (forall contents name,
        In (File name) contents -> In name (_zip_dir contents)).
Proof.
  split; [|split; [|split; [apply gpu_process_video_vaapi
                          |exact zip_dir_has_file]]]; split.
  - intros st H.
    destruct (cpu_process_video_run cfg path_exists uuid4_hex _ _ tmpdir _ H)
      as (c & ct & E). eauto.
  - intros out Hout.
    destruct (cpu_process_video_ok _ _ _ _ _ _ _ Hout) as [st Hst].
    destruct (cpu_process_video_run cfg path_exists uuid4_hex _ _ tmpdir _ Hst)
      as (c & ct & E).
    rewrite E in Hout. injection Hout as <-.
    split; [|split; [apply archive_not_single|]].
    + destruct (is_hls st);
        [left; apply cpu_deliver_archive|right; apply cpu_deliver_single].
    + intros (f & Hin & Hn & Ht).
      rewrite (cpu_run_hls_format _ _ _ _ Hst Hin Hn Ht).
      apply cpu_deliver_archive.
  - intros c0 st Hb H.
    destruct (gpu_process_video_run cfg path_exists uuid4_hex _ _ tmpdir _ _
                Hb H) as (c & ct & vfc & E). eauto.
  - intros out Hout.
    destruct (gpu_process_video_ok _ _ _ _ _ _ _ Hout) as (c0 & st & Hb & Hst).
    destruct (gpu_process_video_run cfg path_exists uuid4_hex _ _ tmpdir _ _
                Hb Hst) as (c & ct & vfc & E).
    rewrite E in Hout. injection Hout as <-.
    split; [|split; [apply archive_not_single|]].
    + destruct (str_in (default "" (forced_ext st)) ["hls"; "m3u8"]
                || is_hls st)%bool eqn:Eh;
        [left; by apply gpu_deliver_archive|right; by apply gpu_deliver_single].
    + intros (f & Hin & Hn & Ht).
      apply gpu_deliver_archive.
      rewrite (gpu_run_hls_format _ _ _ _ _ Hst Hin Hn Ht).
      apply orb_true_r.
Qed.

(** C6. The claim fails in the GPU variant with the VAAPI encoder: a job
    that asks for hls raises [NameError] when its base command is built
    and yields no archive, where the same job with the software encoder
    yields the archive as [application/zip]. *)
Theorem hls_job_fails_with_the_vaapi_encoder :
  ENCODER config_vaapi_text = "h264_vaapi"
  /\ GPU.process_video config_vaapi_text no_files (fun _ => "0123456789abcdef")
       "/tmp/ffx/in" (GPU.parse_ops_query ["format:type=hls"]) "/tmp/ffx"
     = Raise NameError
  /\ GPU.process_video default_config no_files (fun _ => "0123456789abcdef")
       "/tmp/ffx/in" (GPU.parse_ops_query ["format:type=hls"]) "/tmp/ffx"
     ≫= (fun out => Ok (out_path out, media_type out))
     = Ok ("/tmp/ffx/hls_01234567.zip", "application/zip").
Proof. vm_compute. repeat split. Qed.

(** The entries of an archived directory, evaluated. *)
Example zip_dir_example :
  _zip_dir [File "index.m3u8"; Dir "x" [File "a"; Dir "y" [File "b"]];
            File "seg_0000.ts"; File "seg_0001.ts"]
  = ["index.m3u8"; "seg_0000.ts"; "seg_0001.ts"; "x/a"; "x/y/b"].
Proof. reflexivity. Qed.

(** A segmented job of the CPU variant, evaluated. *)
Example hls_job_example :
  CPU.process_video default_config no_files (fun _ => "0123456789abcdef")
    "/tmp/ffx/in" (CPU.parse_ops_query ["fps:value=24"; "format:type=HLS"])
    "/tmp/ffx"
  = Ok {| effects :=
            [MakeDirs "/tmp/ffx/hls-01234567";
             RunEngine
               ["ffmpeg"; "-hide_banner"; "-nostdin"; "-y"; "-loglevel";
                "error"; "-i"; "/tmp/ffx/in"; "-vf";
                "fps=24,drawtext=fontfile='/usr/share/fonts/truetype/dejavu/DejaVuSans.ttf':text='Demo Watermark':fontsize=28:fontcolor=white@0.35:borderw=2:bordercolor=black@0.21:x=w-tw-12:y=h-th-12";
                "-c:v"; "libx264"; "-c:a"; "aac"; "-f"; "hls"; "-hls_time";
                "4"; "-hls_list_size"; "0"; "-hls_segment_filename";
                "/tmp/ffx/hls-01234567/seg_%04d.ts";
                "/tmp/ffx/hls-01234567/index.m3u8"];
             ZipDir "/tmp/ffx/hls-01234567" "/tmp/ffx/hls_01234567.zip"];
          out_path := "/tmp/ffx/hls_01234567.zip";
          media_type := "application/zip" |}.
Proof. vm_compute. reflexivity. Qed.

(* ===================================================================== *)
(** * The content type of a single-file job *)
(* ===================================================================== *)

(** When the segmented flag is not set, the selector is not asked for hls
    or m3u8. *)
Lemma single_file_not_m3u8 st :
  ext_inv st -> is_hls st = false ->
  let fmt := ext_or_mp4 (forced_ext st) in
  str_in (lower (if fmt == "" then "mp4" else fmt)) ["hls"; "m3u8"] = false.
Proof.
  intros Hinv Hh. destruct (forced_ext st) as [[|c x]|] eqn:E;
    try reflexivity.
  destruct (Hinv _ E) as [Hl Hi]. cbv zeta.
  change (ext_or_mp4 (Some (String c x))) with (String c x).
  change (String c x == "") with false. cbv iota. rewrite Hl.
  destruct (str_in (String c x) ["hls"; "m3u8"]) eqn:Es; [|reflexivity].
  rewrite (Hi eq_refl) in Hh. discriminate.
Qed.

Lemma media_type_of_spec c :
  In c ["mp4"; "webm"; "mkv"; "gif"] -> media_type_of c = content_type_spec c.
Proof. simpl. by intros [<-|[<-|[<-|[<-|[]]]]]. Qed.

(** C7, as the code has it. The content type of a single-file job of the
    CPU variant is the one the specification lists for its container,
    and the container is mp4, webm, mkv or gif. For [format:type=mov] the
    container is mp4, so the content type is video/mp4: the entry of the
    table for a mov container is never used. *)
Theorem single_file_content_type cfg path_exists uuid4_hex in_path tmpdir
    ops st :
  CPU.run_ops (CPU.init_state (CPU._base_cmd cfg in_path)) ops = Ok st ->
  is_hls st = false ->
  let container :=
    (CPU._choose_container_and_codecs (ext_or_mp4 (forced_ext st))).1 in
  exists out,
    CPU.process_video cfg path_exists uuid4_hex in_path ops tmpdir = Ok out
    /\ is_single_file out
    /\ In container ["mp4"; "webm"; "mkv"; "gif"]
    /\ media_type out = content_type_spec container
    /\ (forced_ext st = Some "mov" ->
        container = "mp4" /\ media_type out = "video/mp4").
Proof.
  intros Hrun Hh container.
  destruct (cpu_process_video_run cfg path_exists uuid4_hex _ _ tmpdir _ Hrun)
    as (c & ct & E).
  rewrite Hh in E. eexists. split; [exact E|].
  split; [apply cpu_deliver_single|].
  assert (Hc : In container ["mp4"; "webm"; "mkv"; "gif"]).
  { pose proof (single_file_not_m3u8 st
                  (cpu_run_inv _ _ _ Hrun (init_state_inv _)) Hh) as Hn.
    destruct (cpu_container_cases (ext_or_mp4 (forced_ext st)))
      as [[_ Hm]|[_ Hc]].
    - simpl in Hn, Hm. rewrite Hn in Hm. discriminate.
    - subst container. destruct Hc as [-> | [-> | [-> | ->]]]; simpl; tauto. }
  assert (Hm : media_type
                 (CPU.deliver uuid4_hex tmpdir c (forced_ext st) ct false)
               = media_type_of container).
  { unfold CPU.deliver. subst container.
    by destruct (CPU._choose_container_and_codecs _). }
  split; [exact Hc|].
  split; [rewrite Hm; by apply media_type_of_spec|].
  intros Hmov. rewrite Hm. subst container. by rewrite Hmov.
Qed.

Lemma single_file_content_type_witness :
  exists out,
    CPU.process_video default_config no_files (fun _ => "0123456789abcdef")
      "/tmp/ffx/in" (CPU.parse_ops_query ["format:type=gif"]) "/tmp/ffx"
    = Ok out
    /\ media_type out = "image/gif".
Proof.
  destruct (single_file_content_type default_config no_files
              (fun _ => "0123456789abcdef") "/tmp/ffx/in" "/tmp/ffx"
              (CPU.parse_ops_query ["format:type=gif"]) _ eq_refl eq_refl)
    as (out & Hout & _ & _ & Hm & _).
  exists out. split; [exact Hout|exact Hm].
Defined.

(** C7 as worded fails for mov: the job of [format:type=mov] returns an
    mp4 file with the content type video/mp4, not video/quicktime. *)
Lemma mov_job_content_type :
  CPU.process_video default_config no_files (fun _ => "0123456789abcdef")
    "/tmp/ffx/in" (CPU.parse_ops_query ["format:type=mov"]) "/tmp/ffx"
  = Ok {| effects :=
            [RunEngine
               ["ffmpeg"; "-hide_banner"; "-nostdin"; "-y"; "-loglevel";
                "error"; "-i"; "/tmp/ffx/in"; "-vf";
                "drawtext=fontfile='/usr/share/fonts/truetype/dejavu/DejaVuSans.ttf':text='Demo Watermark':fontsize=28:fontcolor=white@0.35:borderw=2:bordercolor=black@0.21:x=w-tw-12:y=h-th-12";
                "-c:v"; "libx264"; "-c:a"; "aac"; "-movflags"; "+faststart";
                "/tmp/ffx/out-0123456789abcdef.mp4"]];
          out_path := "/tmp/ffx/out-0123456789abcdef.mp4";
          media_type := "video/mp4" |}
  /\ GPU.process_video default_config no_files (fun _ => "0123456789abcdef")
       "/tmp/ffx/in" (GPU.parse_ops_query ["format:type=mov"]) "/tmp/ffx"
     ≫= (fun out => Ok (media_type out))
     = Ok "video/mp4".
Proof. split; vm_compute; reflexivity. Qed.

(** The same holds in the GPU variant when its base command is built. *)
Lemma gpu_content_type_of_single_file cfg path_exists uuid4_hex in_path tmpdir
    ops c0 st :
  GPU._base_cmd cfg in_path = Ok c0 ->
  GPU.run_ops cfg (CPU.init_state c0) ops = Ok st ->
  is_hls st = false ->
  let container :=
    (GPU._choose_container_and_codecs cfg (ext_or_mp4 (forced_ext st))).1 in
  exists out,
    GPU.process_video cfg path_exists uuid4_hex in_path ops tmpdir = Ok out
    /\ is_single_file out
    /\ In container ["mp4"; "webm"; "mkv"; "gif"]
    /\ media_type out = content_type_spec container.
Proof.
  intros Hb Hrun Hh container.
  destruct (gpu_process_video_run cfg path_exists uuid4_hex _ _ tmpdir _ _
              Hb Hrun) as (c & ct & vfc & E).
  pose proof (gpu_run_inv _ _ _ _ Hrun (init_state_inv _)) as Hinv.
  assert (Hs : (str_in (default "" (forced_ext st)) ["hls"; "m3u8"]
                || is_hls st)%bool = false).
  { rewrite Hh, orb_false_r.
    destruct (forced_ext st) as [e|] eqn:Ee; [|reflexivity].
    change (default "" (Some e)) with e.
    destruct (str_in e ["hls"; "m3u8"]) eqn:Es; [|reflexivity].
    destruct (Hinv _ Ee) as [_ Hi]. rewrite (Hi Es) in Hh. discriminate. }
  eexists. split; [exact E|].
  split; [by apply gpu_deliver_single|].
  assert (Hc : In container ["mp4"; "webm"; "mkv"; "gif"]).
  { pose proof (single_file_not_m3u8 st Hinv Hh) as Hn.
    destruct (gpu_container_cases cfg (ext_or_mp4 (forced_ext st)))
      as [[_ Hm]|[_ Hc]].
    - simpl in Hn, Hm. rewrite Hn in Hm. discriminate.
    - subst container. destruct Hc as [-> | [-> | [-> | ->]]]; simpl; tauto. }
  split; [exact Hc|].
  unfold GPU.deliver. rewrite Hs. subst container.
  destruct (GPU._choose_container_and_codecs cfg _) as [k a]. simpl in *.
  by apply media_type_of_spec.
Qed.

(* ===================================================================== *)
(** * The watermark stage and the upload step *)
(* ===================================================================== *)

Lemma gpu_watermark_eq cfg path_exists vf :
  GPU.watermark cfg path_exists vf
  = (vf ++ wm_filters cfg path_exists (WM_ENABLED cfg),
     wm_graph cfg path_exists (WM_ENABLED cfg)).
Proof.
  unfold GPU.watermark, wm_filters, wm_graph.
  destruct (WM_ENABLED cfg), (image_usable cfg path_exists); simpl;
    by rewrite ?app_nil_r.
Qed.

Lemma gpu_final_vf_eq cfg path_exists st :
  GPU.final_vf cfg path_exists st
  = GPU.hwupload cfg
      (vf_filters st ++ wm_filters cfg path_exists (WM_ENABLED cfg))
      (wm_graph cfg path_exists (WM_ENABLED cfg)).
Proof. unfold GPU.final_vf. by rewrite gpu_watermark_eq. Qed.

(** C1, as the code has it. In the CPU variant the watermark stage is
    always there, whatever the operations and whatever the enable flag,
    which that variant does not read: the overlay graph when the image is
    usable, and otherwise the drawtext filter as the last filter of the
    linear chain, after every filter of the client's operations. In the
    GPU variant the stage is there, in the same two forms, exactly when
    the enable flag is true; in the linear chain only the upload step of
    the VAAPI encoder may follow the drawtext filter. *)
Theorem watermark_stage cfg path_exists cmd0 ops :
  (forall st,
     CPU.run_ops (CPU.init_state cmd0) ops = Ok st ->
     exists c,
       CPU._apply_ops_and_watermark cfg path_exists cmd0 ops
       = Ok (c, forced_ext st, wm_graph cfg path_exists true, is_hls st)
       /\ (image_usable cfg path_exists = false ->
           c = cmd st
               ++ ["-vf"; join "," (vf_filters st ++ [wm_draw cfg])]
               ++ vcodec_args st ++ acodec_args st))
  /\ (forall st,
        GPU.run_ops cfg (CPU.init_state cmd0) ops = Ok st ->
        GPU._apply_ops_and_watermark cfg path_exists cmd0 ops
        = Ok (cmd st, forced_ext st,
              wm_graph cfg path_exists (WM_ENABLED cfg), is_hls st,
              GPU.vf_and_codecs cfg path_exists st)
        /\ GPU.final_vf cfg path_exists st
           = GPU.hwupload cfg
               (vf_filters st ++ wm_filters cfg path_exists (WM_ENABLED cfg))
               (wm_graph cfg path_exists (WM_ENABLED cfg))
        /\ (WM_ENABLED cfg = true ->
            wm_graph cfg path_exists (WM_ENABLED cfg)
            = Some ("-filter_complex", wm_chain cfg, "-map")
            \/ In (wm_draw cfg) (GPU.final_vf cfg path_exists st))
        /\ (WM_ENABLED cfg = false ->
            wm_graph cfg path_exists (WM_ENABLED cfg) = None
            /\ GPU.final_vf cfg path_exists st
               = GPU.hwupload cfg (vf_filters st) None)).
Proof.
  split.
  - intros st H. unfold CPU._apply_ops_and_watermark. rewrite H.
    cbn [mbind result_bind]. unfold CPU.watermark, wm_graph.
    destruct (image_usable cfg path_exists) eqn:Ei; simpl.
    + eexists. split; [reflexivity|discriminate].
    + eexists. split; [reflexivity|]. intros _. unfold CPU.assemble. simpl.
      destruct (vf_filters st ++ [wm_draw cfg]) as [|x l] eqn:El;
        [by destruct (vf_filters st)|].
      by rewrite app_nil_r, <- app_assoc.
  - intros st H. unfold GPU._apply_ops_and_watermark. rewrite H.
    cbn [mbind result_bind]. rewrite gpu_watermark_eq. simpl.
    split; [reflexivity|]. split; [apply gpu_final_vf_eq|].
    rewrite gpu_final_vf_eq. unfold wm_graph, wm_filters, GPU.hwupload.
    split; intros ->; simpl.
    + destruct (image_usable cfg path_exists); simpl; [by left|right].
      destruct (GPU.vaapi cfg); rewrite !in_app_iff; simpl; tauto.
    + by rewrite app_nil_r.
Qed.

(** C1 as worded fails on the enable flag: with the flag false the CPU
    variant still appends the drawtext watermark, and the GPU variant
    emits no watermark. *)
Lemma watermark_flag_ignored_by_cpu :
  WM_ENABLED config_wm_off = false
  /\ CPU._apply_ops_and_watermark config_wm_off no_files ["ffmpeg"] []
     = Ok (["ffmpeg"; "-vf";
            "drawtext=fontfile='/usr/share/fonts/truetype/dejavu/DejaVuSans.ttf':text='Demo Watermark':fontsize=28:fontcolor=white@0.35:borderw=2:bordercolor=black@0.21:x=w-tw-12:y=h-th-12"],
           None, None, false)
  /\ GPU._apply_ops_and_watermark config_wm_off no_files ["ffmpeg"] []
     = Ok (["ffmpeg"], None, None, false, []).
Proof.
  split; [reflexivity|]. split; vm_compute; reflexivity.
Qed.

Lemma gpu_process_video_eq cfg path_exists uuid4_hex in_path ops tmpdir c0 st :
  GPU._base_cmd cfg in_path = Ok c0 ->
  GPU.run_ops cfg (CPU.init_state c0) ops = Ok st ->
  GPU.process_video cfg path_exists uuid4_hex in_path ops tmpdir
  = Ok (GPU.deliver cfg uuid4_hex tmpdir (cmd st) (forced_ext st)
          (wm_graph cfg path_exists (WM_ENABLED cfg)) (is_hls st)
          (GPU.vf_and_codecs cfg path_exists st)).
Proof.
  intros Hb H. unfold GPU.process_video, GPU._apply_ops_and_watermark.
  rewrite Hb. cbn [mbind result_bind]. rewrite H. cbn [mbind result_bind].
  by rewrite gpu_watermark_eq.
Qed.

(** The one engine run of a job: the command, the graph arguments, the
    chain with the codec overrides, the codec arguments of the selected
    profile, and the output. *)
Lemma gpu_deliver_run cfg uuid4_hex tmpdir c forced ct hls vfc :
  exists fmt tail,
    In (RunEngine (c ++ GPU.graph_args ct ++ vfc
                     ++ (GPU._choose_container_and_codecs cfg fmt).2 ++ tail))
       (effects (GPU.deliver cfg uuid4_hex tmpdir c forced ct hls vfc)).
Proof.
  unfold GPU.deliver.
  destruct (str_in (default "" forced) ["hls"; "m3u8"] || hls)%bool.
  - eexists "hls", _. right. left. reflexivity.
  - destruct (GPU._choose_container_and_codecs cfg (ext_or_mp4 forced))
      as [k a] eqn:Ek.
    eexists (ext_or_mp4 forced), _. left. rewrite Ek. reflexivity.
Qed.

(** C9, amended. With the VAAPI encoder, when the overlay graph of the
    image watermark is not used, the linear chain that
    [_apply_ops_and_watermark] returns ends in the pixel-format conversion
    and the upload, after the client's filters and the drawtext filter,
    and stands before the codec overrides. When the overlay graph is
    used, no upload step is appended. *)
Theorem upload_step_after_cpu_filters cfg path_exists cmd0 ops st :
  ENCODER cfg = "h264_vaapi" ->
  GPU.run_ops cfg (CPU.init_state cmd0) ops = Ok st ->
  (wm_graph cfg path_exists (WM_ENABLED cfg) = None ->
   GPU.final_vf cfg path_exists st
   = (vf_filters st ++ wm_filters cfg path_exists (WM_ENABLED cfg))
       ++ ["format=nv12,hwupload"]
   /\ GPU._apply_ops_and_watermark cfg path_exists cmd0 ops
      = Ok (cmd st, forced_ext st, None, is_hls st,
            ["-vf"; join "," (GPU.final_vf cfg path_exists st)]
              ++ (vcodec_args st ++ acodec_args st)))
  /\ (wm_graph cfg path_exists (WM_ENABLED cfg) <> None ->
      GPU.final_vf cfg path_exists st = vf_filters st
      /\ exists graph,
           GPU._apply_ops_and_watermark cfg path_exists cmd0 ops
           = Ok (cmd st, forced_ext st, Some graph, is_hls st,
                 match vf_filters st with
                 | [] => []
                 | vf => ["-vf"; join "," vf]
                 end ++ (vcodec_args st ++ acodec_args st) ++ ["[vout]"])).
Proof.
  intros Henc Hrun.
  assert (Hv : GPU.vaapi cfg = true) by (unfold GPU.vaapi; by rewrite Henc).
  assert (Ha : GPU._apply_ops_and_watermark cfg path_exists cmd0 ops
               = Ok (cmd st, forced_ext st,
                     wm_graph cfg path_exists (WM_ENABLED cfg), is_hls st,
                     GPU.vf_and_codecs cfg path_exists st)).
  { unfold GPU._apply_ops_and_watermark. rewrite Hrun.
    cbn [mbind result_bind]. by rewrite gpu_watermark_eq. }
  split.
  - intros Hg.
    assert (Hf : GPU.final_vf cfg path_exists st
                 = (vf_filters st ++ wm_filters cfg path_exists (WM_ENABLED cfg))
                     ++ ["format=nv12,hwupload"]).
    { rewrite gpu_final_vf_eq, Hg. unfold GPU.hwupload. by rewrite Hv. }
    split; [exact Hf|].
    rewrite Ha, Hg. do 2 f_equal.
    unfold GPU.vf_and_codecs. rewrite gpu_watermark_eq, Hg, Hf.
    destruct (vf_filters st ++ wm_filters cfg path_exists (WM_ENABLED cfg));
      simpl; by rewrite app_nil_r.
  - intros Hg.
    assert (Hf : GPU.final_vf cfg path_exists st = vf_filters st).
    { rewrite gpu_final_vf_eq. unfold GPU.hwupload. rewrite Hv.
      unfold wm_filters. unfold wm_graph in *.
      destruct (WM_ENABLED cfg), (image_usable cfg path_exists); simpl in *;
        try congruence.
      by rewrite app_nil_r. }
    split; [exact Hf|].
    destruct (wm_graph cfg path_exists (WM_ENABLED cfg)) as [graph|] eqn:Eg;
      [|done].
    exists graph. rewrite Ha. do 2 f_equal.
    unfold GPU.vf_and_codecs. by rewrite gpu_watermark_eq, Eg, Hf.
Qed.

Lemma upload_step_after_cpu_filters_witness :
  GPU.final_vf config_vaapi_text no_files
    (add_vf (CPU.init_state ["ffmpeg"; "-i"; "/tmp/ffx/in"]) "fps=24")
  = ["fps=24";
     "drawtext=fontfile='/usr/share/fonts/truetype/dejavu/DejaVuSans.ttf':text='Demo Watermark':fontsize=28:fontcolor=white@0.35:borderw=2:bordercolor=black@0.21:x=w-tw-12:y=h-th-12";
     "format=nv12,hwupload"]
  /\ GPU._apply_ops_and_watermark config_vaapi_text no_files
       ["ffmpeg"; "-i"; "/tmp/ffx/in"] (GPU.parse_ops_query ["fps:value=24"])
     = Ok (["ffmpeg"; "-i"; "/tmp/ffx/in"], None, None, false,
           ["-vf";
            "fps=24,drawtext=fontfile='/usr/share/fonts/truetype/dejavu/DejaVuSans.ttf':text='Demo Watermark':fontsize=28:fontcolor=white@0.35:borderw=2:bordercolor=black@0.21:x=w-tw-12:y=h-th-12,format=nv12,hwupload"]).
Proof.
  exact (proj1 (upload_step_after_cpu_filters config_vaapi_text no_files
                  ["ffmpeg"; "-i"; "/tmp/ffx/in"]
                  (GPU.parse_ops_query ["fps:value=24"])
                  (add_vf (CPU.init_state ["ffmpeg"; "-i"; "/tmp/ffx/in"])
                     "fps=24")
                  eq_refl eq_refl) eq_refl).
Defined.

(** C9 as worded fails on the overlay path: with the VAAPI encoder and a
    usable watermark image, the scale filter of the client is in the
    chain [_apply_ops_and_watermark] returns and no upload step follows
    it. *)
Lemma no_upload_step_with_overlay_graph :
  ENCODER config_vaapi_image = "h264_vaapi"
  /\ GPU._apply_ops_and_watermark config_vaapi_image all_files
       ["ffmpeg"; "-i"; "/tmp/ffx/in"] (GPU.parse_ops_query ["scale:width=1280"])
     = Ok (["ffmpeg"; "-i"; "/tmp/ffx/in"], None,
           Some ("-filter_complex",
                 "[1:v]format=rgba,colorchannelmixer=aa=0.35[wm];[0:v][wm]overlay=W-w-12:H-h-12[vout]",
                 "-map"),
           false, ["-vf"; "scale=1280:-2"; "[vout]"]).
Proof. vm_compute. repeat split. Qed.

(* ===================================================================== *)
(** * More properties of the built-ins *)
(* ===================================================================== *)

Lemma str_app_cons (x : ascii) (a b : string) :
  String x a +:+ b = String x (a +:+ b).
Proof. reflexivity. Qed.

Lemma str_app_assoc (a b c : string) : (a +:+ b) +:+ c = a +:+ (b +:+ c).
Proof.
  induction a as [|x a IH]; [reflexivity|].
  rewrite !str_app_cons. by rewrite IH.
Qed.

Lemma str_app_nil_r (a : string) : a +:+ "" = a.
Proof.
  induction a as [|x a IH]; [reflexivity|].
  rewrite str_app_cons. by rewrite IH.
Qed.

Lemma str_length_app (a b : string) :
  String.length (a +:+ b) = (String.length a + String.length b)%nat.
Proof.
  induction a as [|x a IH]; [reflexivity|].
  rewrite str_app_cons. simpl. by rewrite IH.
Qed.

(* ===================================================================== *)
(** * Escaping the watermark text *)
(* ===================================================================== *)

Lemma replace_app c t a b :
  replace c t (a +:+ b) = replace c t a +:+ replace c t b.
Proof.
  induction a as [|x a IH]; [reflexivity|].
  rewrite str_app_cons. cbn [replace]. by rewrite IH, str_app_assoc.
Qed.

Lemma escape_one c :
  replace "'" "\'" (replace ":" "\:" (replace "\" "\\" (String c "")))
  = escape_char c.
Proof. destruct c as [[] [] [] [] [] [] [] []]; reflexivity. Qed.

Lemma escape_drawtext_chars s : _escape_drawtext s = escape_chars s.
Proof.
  unfold _escape_drawtext. induction s as [|c s IH]; [reflexivity|].
  change (String c s) with (String c "" +:+ s).
  rewrite !replace_app, IH, escape_one. reflexivity.
Qed.

Lemma escape_chars_well_escaped s : well_escaped (escape_chars s) = true.
Proof.
  induction s as [|c s IH]; [reflexivity|].
  cbn [escape_chars]. unfold escape_char.
  destruct (is_special c) eqn:E.
  - change (well_escaped (String "\" (String c (escape_chars s))) = true).
    cbn [well_escaped]. change (Ascii.eqb "\" "\") with true. cbv iota.
    by rewrite E, IH.
  - change (well_escaped (String c (escape_chars s)) = true).
    cbn [well_escaped].
    assert (Ascii.eqb c "\" = false) as ->.
    { unfold is_special in E. by destruct (Ascii.eqb c "\"). }
    by rewrite E, IH.
Qed.

Lemma escape_chars_inj s : forall t, escape_chars s = escape_chars t -> s = t.
Proof.
  induction s as [|c s IH]; intros [|d t]; cbn [escape_chars];
    unfold escape_char.
  - reflexivity.
  - destruct (is_special d); discriminate.
  - destruct (is_special c); discriminate.
  - destruct (is_special c) eqn:Ec, (is_special d) eqn:Ed;
      rewrite ?str_app_cons; change ("" +:+ ?x) with x.
    + intros [= -> H]. by rewrite (IH _ H).
    + intros [= <- H]. by vm_compute in Ed.
    + intros [= -> H]. by vm_compute in Ec.
    + intros [= -> H]. by rewrite (IH _ H).
Qed.

(** X1. [_escape_drawtext] puts one backslash in front of every
    backslash, colon and single quote of the text and changes nothing
    else: the three replacements in a row do not escape each other's
    output. So the escaped text has no bare colon or quote, texts are
    escaped piece by piece, and two different texts never have the same
    escape. *)
Theorem escape_drawtext_sound :
  (forall s, _escape_drawtext s = escape_chars s)
  /\ (forall s, well_escaped (_escape_drawtext s) = true)
  /\ (forall a b,
        _escape_drawtext (a +:+ b) = _escape_drawtext a +:+ _escape_drawtext b)
  /\ (forall s t, _escape_drawtext s = _escape_drawtext t -> s = t).
Proof.
  split; [exact escape_drawtext_chars|].
  split; [intros s; rewrite escape_drawtext_chars;
          apply escape_chars_well_escaped|].
  split.
  - intros a b. rewrite !escape_drawtext_chars.
    induction a as [|c a IH]; [reflexivity|].
    rewrite str_app_cons. cbn [escape_chars]. by rewrite IH, str_app_assoc.
  - intros s t. rewrite !escape_drawtext_chars. apply escape_chars_inj.
Qed.

(* ===================================================================== *)
(** * The argument parser *)
(* ===================================================================== *)

Lemma split1_contains sep s :
  contains sep s = true ->
  exists k v, split1 sep s = [k; v].
Proof.
  induction s as [|c s IH]; [discriminate|].
  cbn [contains split1]. destruct (Ascii.eqb c sep); [by eauto|].
  intros H. destruct (IH H) as (k & v & ->). by eauto.
Qed.

Lemma parse_part_insert item part :
  part <> "" ->
  CPU.parse_part item part = <[part_key part := part_value part]> item.
Proof.
  intros Hp. unfold CPU.parse_part, part_key, part_value.
  destruct (String.eqb_spec part ""); [done|].
  destruct (contains "=" part) eqn:E; [|done].
  by destruct (split1_contains _ _ E) as (k & v & ->).
Qed.

Lemma foldl_parse_part_lookup parts k : forall item : descriptor,
  foldl CPU.parse_part item parts !! k
  = match last_part k parts with
    | Some v => Some v
    | None => item !! k
    end.
Proof.
  induction parts as [|p rest IH]; intros item; [done|].
  cbn [foldl last_part]. rewrite IH.
  destruct (last_part k rest); [done|].
  destruct (String.eqb_spec p "") as [->|Hp]; [done|].
  rewrite (parse_part_insert _ _ Hp). cbn [negb andb].
  destruct (String.eqb_spec (part_key p) k) as [<-|Hk].
  - by rewrite lookup_insert_eq.
  - by rewrite lookup_insert_ne.
Qed.

Lemma last_part_empty k : last_part k [""] = None.
Proof. reflexivity. Qed.

Lemma cpu_parse_item_lookup raw k :
  CPU.parse_item raw !! k = entry_of strip raw k.
Proof.
  unfold CPU.parse_item, entry_of.
  destruct (CPU.name_and_args raw) as [name args].
  destruct (String.eqb_spec args "") as [->|Ha].
  - change (split "," "") with [""]. rewrite last_part_empty.
    destruct (String.eqb_spec k "op") as [->|Hk].
    + by rewrite lookup_singleton_eq.
    + by rewrite lookup_singleton_ne.
  - rewrite foldl_parse_part_lookup.
    destruct (last_part k (split "," args)); [done|].
    destruct (String.eqb_spec k "op") as [->|Hk].
    + by rewrite lookup_singleton_eq.
    + by rewrite lookup_singleton_ne.
Qed.

Lemma gpu_parse_item_lookup raw k :
  GPU.parse_item raw !! k = entry_of (fun n => lower (strip n)) raw k.
Proof.
  unfold GPU.parse_item, entry_of.
  destruct (CPU.name_and_args raw) as [name args].
  destruct (String.eqb_spec args "") as [->|Ha].
  - change (split "," "") with [""]. rewrite last_part_empty.
    destruct (String.eqb_spec k "op") as [->|Hk].
    + by rewrite lookup_singleton_eq.
    + by rewrite lookup_singleton_ne.
  - rewrite foldl_parse_part_lookup.
    destruct (last_part k (split "," args)); [done|].
    destruct (String.eqb_spec k "op") as [->|Hk].
    + by rewrite lookup_singleton_eq.
    + by rewrite lookup_singleton_ne.
Qed.

(** X2. The descriptor of a query value holds, under every key, the value
    of the last non-empty part of the argument list with that key: a
    repeated argument overrides the earlier one. Only the key op falls back
    on the operation name (stripped, and lower-cased by the GPU variant),
    so an argument or a flag called op replaces the name. *)
Theorem parse_item_last_part_wins raw k :
  CPU.parse_item raw !! k = entry_of strip raw k
  /\ GPU.parse_item raw !! k = entry_of (fun n => lower (strip n)) raw k.
Proof. split; [apply cpu_parse_item_lookup|apply gpu_parse_item_lookup]. Qed.

Lemma cpu_parse_ops_query_filter l :
  CPU.parse_ops_query l = map CPU.parse_item (filter (fun r => nonempty r) l).
Proof.
  induction l as [|r l IH]; [done|].
  cbn [CPU.parse_ops_query]. unfold nonempty at 1.
  rewrite filter_cons. unfold nonempty at 1.
  destruct (String.eqb_spec r ""); cbn.
  - by rewrite decide_False by naive_solver.
  - rewrite decide_True by naive_solver. cbn. by rewrite IH.
Qed.

Lemma gpu_parse_ops_query_filter l :
  GPU.parse_ops_query l = map GPU.parse_item (filter (fun r => nonempty r) l).
Proof.
  induction l as [|r l IH]; [done|].
  cbn [GPU.parse_ops_query]. unfold nonempty at 1.
  rewrite filter_cons. unfold nonempty at 1.
  destruct (String.eqb_spec r ""); cbn.
  - by rewrite decide_False by naive_solver.
  - rewrite decide_True by naive_solver. cbn. by rewrite IH.
Qed.

Lemma entry_of_op name_of raw : is_Some (entry_of name_of raw "op").
Proof.
  unfold entry_of. destruct (CPU.name_and_args raw) as [name args].
  destruct (last_part "op" (split "," args)); by eauto.
Qed.

(** X3. The parser handles the query values one by one and skips the
    empty ones, so the list the endpoint builds from its two parameters
    is parsed as the operations of the first followed by those of the
    second; and every descriptor it returns has an entry for the key op,
    so the default of the loop's lookup of the name is never used on
    parsed input. *)
Theorem parse_ops_query_app :
  (forall a b,
     CPU.parse_ops_query (a ++ b)
     = CPU.parse_ops_query a ++ CPU.parse_ops_query b)
  /\ (forall a b,
        GPU.parse_ops_query (a ++ b)
        = GPU.parse_ops_query a ++ GPU.parse_ops_query b)
  /\ (forall l,
        CPU.parse_ops_query l
        = map CPU.parse_item (filter (fun r => nonempty r) l)
        /\ GPU.parse_ops_query l
           = map GPU.parse_item (filter (fun r => nonempty r) l))
  /\ (forall l d,
        In d (CPU.parse_ops_query l) \/ In d (GPU.parse_ops_query l) ->
        is_Some (d !! "op")).
Proof.
  split; [|split; [|split]].
  - intros a b. by rewrite !cpu_parse_ops_query_filter, filter_app, map_app.
  - intros a b. by rewrite !gpu_parse_ops_query_filter, filter_app, map_app.
  - intros l. split;
      [apply cpu_parse_ops_query_filter|apply gpu_parse_ops_query_filter].
  - intros l d [H|H].
    + rewrite cpu_parse_ops_query_filter in H.
      apply in_map_iff in H as (raw & <- & _).
      rewrite cpu_parse_item_lookup. apply entry_of_op.
    + rewrite gpu_parse_ops_query_filter in H.
      apply in_map_iff in H as (raw & <- & _).
      rewrite gpu_parse_item_lookup. apply entry_of_op.
Qed.

(* ===================================================================== *)
(** * What makes the loop fail *)
(* ===================================================================== *)

Lemma py_int_exn v e :
  py_int v = Raise e -> e = ValueError \/ e = OverflowError.
Proof.
  destruct v as [b|n|x|s]; cbn; try discriminate.
  - destruct x; cbn; intros [= <-]; by eauto.
  - unfold int_of_str. repeat case_match; intros [= <-]; by eauto.
Qed.

Lemma float_of_int_exn n e : float_of_int n = Raise e -> e = OverflowError.
Proof. unfold float_of_int. case_match; by intros [= <-]. Qed.

Lemma rotate_op_exn st op e :
  rotate_op st op = Raise e -> rotate_fails op e.
Proof.
  unfold rotate_op, rotate_fails.
  destruct (py_int (get op "degrees" (VInt 0))) as [d|e'] eqn:E;
    cbn [mbind result_bind]; [|intros [= <-]; by left].
  destruct (d mod 90 =? 0) eqn:Em.
  - repeat case_match; discriminate.
  - destruct (float_of_int d) as [x|e'] eqn:Ef; cbn [mbind result_bind];
      [discriminate|].
    intros [= <-]. right. exists d. apply Z.eqb_neq in Em. by eauto.
Qed.

Lemma cpu_apply_op_exn st op e :
  CPU.apply_op st op = Raise e ->
  (e = AttributeError /\ ~ name_is_str op)
  \/ (named "rotate" op = true /\ rotate_op st op = Raise e).
Proof.
  unfold CPU.apply_op, named, CPU.op_name, name_is_str.
  destruct (get op "op" (VStr "")) as [b|n|x|s] eqn:E; cbn [mbind result_bind];
    try (intros [= <-]; left; split; [done|intros [? ?]; discriminate]).
  intros H. right.
  repeat (match type of H with
          | (if ?c then _ else _) = _ => destruct c eqn:?
          end; try discriminate).
  by split.
Qed.

Lemma gpu_apply_op_exn cfg st op e :
  GPU.apply_op cfg st op = Raise e ->
  gpu_named "rotate" op = true /\ rotate_op st op = Raise e.
Proof.
  unfold GPU.apply_op, gpu_named. intros H.
  repeat (match type of H with
          | (if ?c then _ else _) = _ => destruct c eqn:?
          end; try discriminate).
  by split.
Qed.

Lemma rotate_fails_exn op e :
  rotate_fails op e -> e = ValueError \/ e = OverflowError.
Proof.
  intros [H|(d & _ & _ & H)]; [by apply py_int_exn in H|].
  right. by apply float_of_int_exn in H.
Qed.

Lemma cpu_run_ops_exn ops : forall st e,
  CPU.run_ops st ops = Raise e ->
  exists st' op, In op ops /\ CPU.apply_op st' op = Raise e.
Proof.
  induction ops as [|op ops IH]; intros st e; [discriminate|].
  cbn [CPU.run_ops]. destruct (CPU.apply_op st op) as [st'|e'] eqn:E;
    cbn [mbind result_bind].
  - intros H. destruct (IH _ _ H) as (s & o & Ho & Hs).
    exists s, o. split; [by right|done].
  - intros [= <-]. exists st, op. split; [by left|done].
Qed.

Lemma gpu_run_ops_exn cfg ops : forall st e,
  GPU.run_ops cfg st ops = Raise e ->
  exists st' op, In op ops /\ GPU.apply_op cfg st' op = Raise e.
Proof.
  induction ops as [|op ops IH]; intros st e; [discriminate|].
  cbn [GPU.run_ops]. destruct (GPU.apply_op cfg st op) as [st'|e'] eqn:E;
    cbn [mbind result_bind].
  - intros H. destruct (IH _ _ H) as (s & o & Ho & Hs).
    exists s, o. split; [by right|done].
  - intros [= <-]. exists st, op. split; [by left|done].
Qed.

Lemma cpu_process_video_exn cfg path_exists uuid4_hex in_path ops tmpdir e :
  CPU.process_video cfg path_exists uuid4_hex in_path ops tmpdir = Raise e ->
  CPU.run_ops (CPU.init_state (CPU._base_cmd cfg in_path)) ops = Raise e.
Proof.
  unfold CPU.process_video, CPU._apply_ops_and_watermark.
  destruct (CPU.run_ops _ ops) as [st|e']; cbn [mbind result_bind].
  - destruct (CPU.watermark cfg path_exists st) as [[? ?] ?].
    cbn [mbind result_bind]. discriminate.
  - by intros [= <-].
Qed.

Lemma gpu_process_video_exn cfg path_exists uuid4_hex in_path ops tmpdir e :
  GPU.process_video cfg path_exists uuid4_hex in_path ops tmpdir = Raise e ->
  (ENCODER cfg = "h264_vaapi" /\ e = NameError)
  \/ (ENCODER cfg <> "h264_vaapi"
      /\ GPU.run_ops cfg (CPU.init_state (CPU._base_cmd cfg in_path)) ops
         = Raise e).
Proof.
  destruct (String.eqb_spec (ENCODER cfg) "h264_vaapi") as [Hv|Hv].
  - rewrite (gpu_process_video_vaapi _ _ _ _ _ _ Hv). intros [= <-]. by left.
  - unfold GPU.process_video, GPU._apply_ops_and_watermark.
    rewrite (gpu_base_cmd_software _ _ Hv). cbn [mbind result_bind].
    destruct (GPU.run_ops cfg _ ops) as [st|e']; cbn [mbind result_bind].
    + discriminate.
    + intros [= <-]. by right.
Qed.

(** X4. A job can only fail, before the engine is started, in these ways.
    In the CPU variant: with an [AttributeError] at an operation whose
    name is not a string, or with a [ValueError] or an [OverflowError] at a
    rotate operation whose angle [int] rejects or that is too large for a
    float. In the GPU variant: with a [NameError] before any operation is
    read, which happens with the VAAPI encoder and only with it, or at a
    rotate operation as in the CPU variant. A job of the CPU variant
    without such operations, and one of the GPU variant with another
    encoder and without a rotate operation, yields its result. *)
Theorem how_a_job_can_fail cfg path_exists uuid4_hex in_path tmpdir ops :
  (forall e,
     CPU.process_video cfg path_exists uuid4_hex in_path ops tmpdir = Raise e ->
     exists op, In op ops
       /\ ((e = AttributeError /\ ~ name_is_str op)
           \/ (named "rotate" op = true /\ rotate_fails op e
               /\ (e = ValueError \/ e = OverflowError))))
  /\ (forall e,
        GPU.process_video cfg path_exists uuid4_hex in_path ops tmpdir = Raise e ->
        (ENCODER cfg = "h264_vaapi" /\ e = NameError)
        \/ (ENCODER cfg <> "h264_vaapi"
            /\ exists op, In op ops /\ gpu_named "rotate" op = true
                          /\ rotate_fails op e
                          /\ (e = ValueError \/ e = OverflowError)))
  /\ (ENCODER cfg = "h264_vaapi" ->
      GPU.process_video cfg path_exists uuid4_hex in_path ops tmpdir
      = Raise NameError)
  /\ ((forall op, In op ops -> name_is_str op /\ named "rotate" op = false) ->
      exists out,
        CPU.process_video cfg path_exists uuid4_hex in_path ops tmpdir = Ok out)
  /\ (ENCODER cfg <> "h264_vaapi" ->
      (forall op, In op ops -> gpu_named "rotate" op = false) ->
      exists out,
        GPU.process_video cfg path_exists uuid4_hex in_path ops tmpdir = Ok out).
Proof.
  assert (forall e,
     CPU.process_video cfg path_exists uuid4_hex in_path ops tmpdir = Raise e ->
     exists op, In op ops
       /\ ((e = AttributeError /\ ~ name_is_str op)
           \/ (named "rotate" op = true /\ rotate_fails op e
               /\ (e = ValueError \/ e = OverflowError)))) as HC.
  { intros e H. apply cpu_process_video_exn, cpu_run_ops_exn in H.
    destruct H as (st & op & Hin & H). exists op. split; [done|].
    apply cpu_apply_op_exn in H as [H|[Hn H]]; [by left|right].
    apply rotate_op_exn in H. split; [done|]. split; [done|].
    by apply rotate_fails_exn in H. }
  assert (forall e,
     GPU.process_video cfg path_exists uuid4_hex in_path ops tmpdir = Raise e ->
     (ENCODER cfg = "h264_vaapi" /\ e = NameError)
     \/ (ENCODER cfg <> "h264_vaapi"
         /\ exists op, In op ops /\ gpu_named "rotate" op = true
                       /\ rotate_fails op e
                       /\ (e = ValueError \/ e = OverflowError))) as HG.
  { intros e H. apply gpu_process_video_exn in H as [H|[Hv H]]; [by left|].
    right. split; [done|]. apply gpu_run_ops_exn in H.
    destruct H as (st & op & Hin & H). exists op. split; [done|].
    apply gpu_apply_op_exn in H as [Hn H].
    apply rotate_op_exn in H. split; [done|]. split; [done|].
    by apply rotate_fails_exn in H. }
  split; [exact HC|]. split; [exact HG|].
  split; [apply gpu_process_video_vaapi|]. split.
  - intros Hall.
    destruct (CPU.process_video cfg path_exists uuid4_hex in_path ops tmpdir)
      as [out|e] eqn:E; [by eauto|].
    destruct (HC e eq_refl) as (op & Hin & [[_ Hs]|[Hr _]]);
      destruct (Hall op Hin) as [Hs' Hr']; [done|congruence].
  - intros Hv Hall.
    destruct (GPU.process_video cfg path_exists uuid4_hex in_path ops tmpdir)
      as [out|e] eqn:E; [by eauto|].
    destruct (HG e eq_refl) as [[Hv' _]|(_ & op & Hin & Hr & _)]; [done|].
    rewrite (Hall op Hin) in Hr. discriminate.
Qed.

Lemma cpu_apply_op_not_str st op :
  ~ name_is_str op -> CPU.apply_op st op = Raise AttributeError.
Proof.
  unfold CPU.apply_op, CPU.op_name, name_is_str. intros H.
  destruct (get op "op" (VStr "")) as [b|n|x|s]; try reflexivity.
  destruct H. by eauto.
Qed.

(** X5. An operation whose name is not a string (the parser produces one
    from an argument or a flag called op, as in [scale:op]) stops the CPU
    job with an [AttributeError] as soon as the operations before it have
    been applied, whatever follows it; the GPU job ignores it. *)
Theorem name_that_is_not_a_string cfg path_exists uuid4_hex in_path tmpdir
    l1 d l2 st1 :
  ~ name_is_str d ->
  CPU.run_ops (CPU.init_state (CPU._base_cmd cfg in_path)) l1 = Ok st1 ->
  CPU.process_video cfg path_exists uuid4_hex in_path (l1 ++ d :: l2) tmpdir
  = Raise AttributeError
  /\ GPU.process_video cfg path_exists uuid4_hex in_path (l1 ++ d :: l2) tmpdir
     = GPU.process_video cfg path_exists uuid4_hex in_path (l1 ++ l2) tmpdir.
Proof.
  intros Hd H1. split.
  - unfold CPU.process_video, CPU._apply_ops_and_watermark.
    rewrite cpu_run_ops_app, H1. cbn [mbind result_bind CPU.run_ops].
    by rewrite (cpu_apply_op_not_str _ _ Hd).
  - apply gpu_ignores_unknown_operation. intros n Hn.
    destruct Hd. by exists n.
Qed.

Lemma name_that_is_not_a_string_witness :
  CPU.process_video default_config no_files (fun _ => "0123456789abcdef")
    "/tmp/ffx/in"
    (CPU.parse_ops_query ["fps"] ++ CPU.parse_item "scale:width=640,op"
       :: CPU.parse_ops_query ["grayscale"]) "/tmp/ffx"
  = Raise AttributeError
  /\ GPU.process_video default_config no_files (fun _ => "0123456789abcdef")
       "/tmp/ffx/in"
       (CPU.parse_ops_query ["fps"] ++ CPU.parse_item "scale:width=640,op"
          :: CPU.parse_ops_query ["grayscale"]) "/tmp/ffx"
     = GPU.process_video default_config no_files (fun _ => "0123456789abcdef")
         "/tmp/ffx/in"
         (CPU.parse_ops_query ["fps"] ++ CPU.parse_ops_query ["grayscale"])
         "/tmp/ffx".
Proof.
  apply (name_that_is_not_a_string default_config no_files
           (fun _ => "0123456789abcdef") "/tmp/ffx/in" "/tmp/ffx"
           (CPU.parse_ops_query ["fps"])
           (CPU.parse_item "scale:width=640,op")
           (CPU.parse_ops_query ["grayscale"])
           (add_vf (CPU.init_state (CPU._base_cmd default_config "/tmp/ffx/in"))
                   "fps=30")).
  - intros [n Hn]. vm_compute in Hn. discriminate.
  - vm_compute. reflexivity.
Defined.

(* ===================================================================== *)
(** * The two loops on the software encoder *)
(* ===================================================================== *)

Lemma software_apply_op cfg st op n :
  ENCODER cfg <> "h264_vaapi" ->
  get op "op" (VStr "") = VStr n -> lower n = n -> n <> "fast" ->
  GPU.apply_op cfg st op = CPU.apply_op st op.
Proof.
  intros He Hn Hl Hf.
  apply String.eqb_neq in He. apply String.eqb_neq in Hf.
  unfold GPU.apply_op, CPU.apply_op, CPU.op_name, GPU.vaapi.
  rewrite Hn, Hl, He. cbn [mbind result_bind GPU.name_is negb].
  unfold str_in. cbn [existsb].
  rewrite !orb_false_r, !andb_true_r, Hf.
  rewrite (orb_comm (n == "resize")).
  destruct (n == "format"); [done|].
  destruct ((n == "scale") || (n == "resize")); [done|].
  destruct (n == "fps"); [done|].
  destruct (n == "crop"); [done|].
  destruct (n == "bitrate"); [done|].
  destruct (n == "crf"); [done|].
  destruct (n == "preset"); [done|].
  destruct (String.eqb_spec n "audio") as [->|Ha].
  - cbn. by destruct (truthy (get op "remove" (VBool false))).
  - cbn [andb]. done.
Qed.

Lemma software_run_ops cfg ops : forall st,
  ENCODER cfg <> "h264_vaapi" -> forallb lower_name ops = true ->
  GPU.run_ops cfg st ops = CPU.run_ops st ops.
Proof.
  induction ops as [|op ops IH]; intros st He Hall; [done|].
  cbn [forallb] in Hall. apply andb_true_iff in Hall as [Hop Hall].
  cbn [GPU.run_ops CPU.run_ops].
  unfold lower_name in Hop.
  destruct (get op "op" (VStr "")) as [| | |n] eqn:Hn; try discriminate.
  apply andb_true_iff in Hop as [Hl Hf].
  apply String.eqb_eq in Hl. apply negb_true_iff, String.eqb_neq in Hf.
  rewrite (software_apply_op cfg st op n He Hn Hl Hf).
  destruct (CPU.apply_op st op); cbn [mbind result_bind]; [|done].
  by apply IH.
Qed.

Lemma get_ext (a b : descriptor) k d : a !! k = b !! k -> get a k d = get b k d.
Proof. unfold get. by intros ->. Qed.

Lemma cpu_apply_op_ext st (a b : descriptor) :
  CPU.op_name a = CPU.op_name b ->
  (forall k, k <> "op" -> a !! k = b !! k) ->
  CPU.apply_op st a = CPU.apply_op st b.
Proof.
  intros Hn Hk.
  assert (forall k d, k <> "op" -> get a k d = get b k d) as Hg.
  { intros k d H. by apply get_ext, Hk. }
  unfold CPU.apply_op, rotate_op. rewrite Hn.
  rewrite !Hg by done. by rewrite !Hk by done.
Qed.

Lemma plain_query_names raw :
  plain_query raw = true ->
  exists n, CPU.parse_item raw !! "op" = Some (VStr n)
            /\ GPU.parse_item raw !! "op" = Some (VStr (lower n))
            /\ lower n <> "fast".
Proof.
  unfold plain_query. rewrite cpu_parse_item_lookup, gpu_parse_item_lookup.
  unfold entry_of. destruct (CPU.name_and_args raw) as [name args].
  destruct (last_part "op" (split "," args)); [discriminate|].
  intros H. apply negb_true_iff, String.eqb_neq in H.
  exists (strip name). by cbn.
Qed.

Lemma parse_item_other_keys raw k :
  k <> "op" -> GPU.parse_item raw !! k = CPU.parse_item raw !! k.
Proof.
  intros Hk. rewrite cpu_parse_item_lookup, gpu_parse_item_lookup.
  unfold entry_of. destruct (CPU.name_and_args raw) as [name args].
  destruct (last_part k (split "," args)); [done|].
  by destruct (String.eqb_spec k "op").
Qed.

Lemma software_parse_item cfg st raw :
  ENCODER cfg <> "h264_vaapi" -> plain_query raw = true ->
  GPU.apply_op cfg st (GPU.parse_item raw)
  = CPU.apply_op st (CPU.parse_item raw).
Proof.
  intros He Hp. destruct (plain_query_names _ Hp) as (n & Hc & Hg & Hf).
  rewrite (software_apply_op cfg st _ (lower n) He).
  - apply cpu_apply_op_ext.
    + unfold CPU.op_name, get. rewrite Hc, Hg. cbn. by rewrite lower_idemp.
    + intros k Hk. by apply parse_item_other_keys.
  - unfold get. by rewrite Hg.
  - apply lower_idemp.
  - done.
Qed.

(** X6. On the software encoder the two loops do the same. For operations
    whose name is a lower-case string other than [fast] the GPU loop gives
    the state, or the exception, of the CPU loop; and for query values
    without an argument called op, parsing them with the GPU parser (which
    lower-cases the name) and running the GPU loop gives what the CPU
    parser and the CPU loop (which lower-cases the name it reads) give. *)
Theorem software_encoder_loops_agree cfg st :
  ENCODER cfg <> "h264_vaapi" ->
  (forall ops, forallb lower_name ops = true ->
     GPU.run_ops cfg st ops = CPU.run_ops st ops)
  /\ (forall l, forallb plain_query l = true ->
        GPU.run_ops cfg st (GPU.parse_ops_query l)
        = CPU.run_ops st (CPU.parse_ops_query l)).
Proof.
  intros He. split.
  - intros ops H. by apply software_run_ops.
  - intros l. revert st. induction l as [|raw l IH]; intros st H; [done|].
    cbn [forallb] in H. apply andb_true_iff in H as [Hr Hl].
    cbn [GPU.parse_ops_query CPU.parse_ops_query].
    destruct (raw == ""); [by apply IH|].
    cbn [GPU.run_ops CPU.run_ops].
    rewrite (software_parse_item cfg st raw He Hr).
    destruct (CPU.apply_op st (CPU.parse_item raw)); cbn [mbind result_bind];
      [|done].
    by apply IH.
Qed.

Lemma software_encoder_loops_agree_witness :
  GPU.run_ops default_config (CPU.init_state ["ffmpeg"])
    (GPU.parse_ops_query ["Scale:width=640"; "FPS:value=24"; "rotate:degrees=x"])
  = CPU.run_ops (CPU.init_state ["ffmpeg"])
      (CPU.parse_ops_query ["Scale:width=640"; "FPS:value=24"; "rotate:degrees=x"]).
Proof.
  apply (software_encoder_loops_agree default_config (CPU.init_state ["ffmpeg"])).
  - discriminate.
  - reflexivity.
Defined.

(* ===================================================================== *)
(** * The container selector of the two variants *)
(* ===================================================================== *)

Ltac selector_cases f :=
  unfold str_in; cbn [existsb]; rewrite ?orb_false_r;
  destruct (f == "mp4"), (f == "m4v"), (f == "mov"), (f == "webm"),
    (f == "mkv"), (f == "gif"), (f == "hls"), (f == "m3u8").

(** X7. The two variants choose the same container for every format; the
    container is itself a format the selector maps to the same container
    and, in the CPU variant, to the same codec arguments; the GPU variant
    always asks for all cores first; and its encoder setting matters only
    for the formats encoded as H.264 by name: for webm, gif and every
    format it does not know, the GPU variant selects the same software
    codec arguments whatever the encoder. *)
Theorem selector_of_the_two_variants cfg fmt :
  let f := lower (if fmt == "" then "mp4" else fmt) in
  let c := (CPU._choose_container_and_codecs fmt).1 in
  (GPU._choose_container_and_codecs cfg fmt).1 = c
  /\ CPU._choose_container_and_codecs c = CPU._choose_container_and_codecs fmt
  /\ (GPU._choose_container_and_codecs cfg c).1 = c
  /\ (exists rest,
        (GPU._choose_container_and_codecs cfg fmt).2 = "-threads" :: "0" :: rest)
  /\ (str_in f h264_formats = false ->
      forall enc,
        GPU._choose_container_and_codecs (with_encoder cfg enc) fmt
        = GPU._choose_container_and_codecs cfg fmt).
Proof.
  intros f c. subst c.
  unfold GPU._choose_container_and_codecs, CPU._choose_container_and_codecs.
  fold f. unfold h264_formats.
  split; [|split; [|split; [|split]]].
  - selector_cases f; by destruct (GPU.vaapi cfg).
  - selector_cases f; reflexivity.
  - selector_cases f; by destruct (GPU.vaapi cfg).
  - selector_cases f; destruct (GPU.vaapi cfg); by eexists.
  - intros H enc. revert H. unfold GPU.h264_args, GPU.vaapi. cbn [ENCODER with_encoder DEFAULT_CRF DEFAULT_PRESET].
    selector_cases f; cbn; try discriminate; reflexivity.
Qed.

(* ===================================================================== *)
(** * The loop only appends *)
(* ===================================================================== *)

Ltac frame_done st :=
  cbn; unfold after; cbn; rewrite ?app_nil_r, ?orb_false_r;
  destruct st; reflexivity.

Lemma rotate_op_after st op :
  rotate_op st op
  = (d ← rotate_op (CPU.init_state []) op; Ok (after st d (forced_ext st))).
Proof.
  unfold rotate_op.
  destruct (py_int (get op "degrees" (VInt 0))) as [d|e]; [|done].
  cbn [mbind result_bind].
  destruct (d mod 90 =? 0).
  - destruct (d =? 90); [frame_done st|].
    destruct (d =? 180); [frame_done st|].
    destruct (d =? 270); frame_done st.
  - destruct (float_of_int d) as [x|e]; [|done]. frame_done st.
Qed.

Lemma cpu_apply_op_after st op :
  CPU.apply_op st op
  = (d ← CPU.apply_op (CPU.init_state []) op;
     Ok (after st d (ext_step (forced_ext st) op))).
Proof.
  unfold CPU.apply_op, ext_step, named.
  destruct (CPU.op_name op) as [name|e]; [|done].
  cbn [mbind result_bind].
  destruct (name == "format") eqn:Ef.
  { cbn [mbind result_bind]. unfold after, format_type, set_format.
    cbn [cmd vf_filters forced_ext is_hls vcodec_args acodec_args
         CPU.init_state].
    destruct (str_in _ _); rewrite ?app_nil_r, ?orb_false_r, ?orb_true_r;
      by destruct st. }
  destruct (name == "thumbnail") eqn:Et.
  { apply String.eqb_eq in Et. subst name. frame_done st. }
  destruct ((name == "scale") || (name == "resize"))%bool; [frame_done st|].
  destruct (name == "fps"); [frame_done st|].
  destruct (name == "crop"); [frame_done st|].
  destruct (name == "bitrate").
  { destruct (op !! "video"), (op !! "audio"); frame_done st. }
  destruct (name == "crf"); [frame_done st|].
  destruct (name == "preset"); [frame_done st|].
  destruct (name == "audio").
  { destruct (truthy _); frame_done st. }
  destruct (name == "rotate"); [apply rotate_op_after|].
  destruct (str_in name ["grayscale"; "monochrome"]); frame_done st.
Qed.

Lemma gpu_apply_op_after cfg st op :
  GPU.apply_op cfg st op
  = (d ← GPU.apply_op cfg (CPU.init_state []) op;
     Ok (after st d (gpu_ext_step (forced_ext st) op))).
Proof.
  unfold GPU.apply_op, gpu_ext_step, gpu_named.
  set (name := get op "op" (VStr "")).
  destruct (GPU.name_is name "format") eqn:Ef.
  { cbn [mbind result_bind]. unfold after, format_type, set_format.
    cbn [cmd vf_filters forced_ext is_hls vcodec_args acodec_args
         CPU.init_state].
    destruct (str_in _ _); rewrite ?app_nil_r, ?orb_false_r, ?orb_true_r;
      by destruct st. }
  destruct (GPU.name_is name "thumbnail") eqn:Et.
  { assert (name = VStr "thumbnail") as ->.
    { destruct name as [| | |n]; try discriminate.
      cbn in Et. by apply String.eqb_eq in Et as ->. }
    frame_done st. }
  destruct (GPU.name_is name "resize" || GPU.name_is name "scale")%bool;
    [frame_done st|].
  destruct (GPU.name_is name "fps"); [frame_done st|].
  destruct (GPU.name_is name "crop"); [frame_done st|].
  destruct (GPU.name_is name "bitrate").
  { destruct (op !! "video"), (op !! "audio"); frame_done st. }
  destruct (GPU.name_is name "crf"); [frame_done st|].
  destruct (GPU.name_is name "preset" && negb (GPU.vaapi cfg))%bool;
    [frame_done st|].
  destruct (GPU.name_is name "audio" && truthy _)%bool; [frame_done st|].
  destruct (GPU.name_is name "rotate"); [apply rotate_op_after|].
  destruct (GPU.name_is name "grayscale" || GPU.name_is name "monochrome")%bool;
    [frame_done st|].
  destruct (GPU.name_is name "fast"); frame_done st.
Qed.

Lemma after_after st d1 d2 e1 e2 e :
  after (after st d1 e1) d2 e = after st (after d1 d2 e2) e.
Proof.
  unfold after. cbn. by rewrite !app_assoc, orb_assoc.
Qed.

Lemma after_init st e :
  after st (CPU.init_state []) e
  = mkState (cmd st) (vf_filters st) e (is_hls st) (vcodec_args st)
            (acodec_args st).
Proof. unfold after. cbn. by rewrite !app_nil_r, orb_false_r. Qed.

Lemma cpu_run_ops_after ops : forall st,
  CPU.run_ops st ops
  = (d ← CPU.run_ops (CPU.init_state []) ops;
     Ok (after st d (foldl ext_step (forced_ext st) ops))).
Proof.
  induction ops as [|op ops IH]; intros st.
  - cbn. rewrite after_init. by destruct st.
  - cbn [CPU.run_ops foldl].
    rewrite (cpu_apply_op_after st op).
    destruct (CPU.apply_op (CPU.init_state []) op) as [d1|e]; [|done].
    cbn [mbind result_bind].
    rewrite (IH (after st d1 _)), (IH d1).
    destruct (CPU.run_ops (CPU.init_state []) ops) as [d2|e]; [|done].
    cbn [mbind result_bind]. f_equal.
    apply after_after.
Qed.

Lemma gpu_run_ops_after cfg ops : forall st,
  GPU.run_ops cfg st ops
  = (d ← GPU.run_ops cfg (CPU.init_state []) ops;
     Ok (after st d (foldl gpu_ext_step (forced_ext st) ops))).
Proof.
  induction ops as [|op ops IH]; intros st.
  - cbn. rewrite after_init. by destruct st.
  - cbn [GPU.run_ops foldl].
    rewrite (gpu_apply_op_after cfg st op).
    destruct (GPU.apply_op cfg (CPU.init_state []) op) as [d1|e]; [|done].
    cbn [mbind result_bind].
    rewrite (IH (after st d1 _)), (IH d1).
    destruct (GPU.run_ops cfg (CPU.init_state []) ops) as [d2|e]; [|done].
    cbn [mbind result_bind]. f_equal.
    apply after_after.
Qed.

(** X8. The loop over the operations only appends, and what it appends
    does not depend on what it was given: running it from any state gives
    the lists of that state followed by the lists a run from the empty
    state collects, the segmented flag of either, and the forced extension
    folded over the operations; and it fails exactly when the run from
    the empty state fails, with the same exception. *)
Theorem loop_only_appends cfg st ops :
  CPU.run_ops st ops
  = (d ← CPU.run_ops (CPU.init_state []) ops;
     Ok (after st d (foldl ext_step (forced_ext st) ops)))
  /\ GPU.run_ops cfg st ops
     = (d ← GPU.run_ops cfg (CPU.init_state []) ops;
        Ok (after st d (foldl gpu_ext_step (forced_ext st) ops))).
Proof. split; [apply cpu_run_ops_after|apply gpu_run_ops_after]. Qed.

(* ===================================================================== *)
(** * Which jobs are segmented, and what the engine is given *)
(* ===================================================================== *)

Lemma rotate_op_hls st op st' : rotate_op st op = Ok st' -> is_hls st' = is_hls st.
Proof. intros H. apply rotate_op_frame in H. tauto. Qed.

Lemma cpu_apply_op_hls st op st' :
  CPU.apply_op st op = Ok st' -> is_hls st' = is_hls st || asks_hls op.
Proof.
  unfold CPU.apply_op, asks_hls, named, format_type.
  destruct (CPU.op_name op) as [name|e]; [|discriminate].
  cbn [mbind result_bind].
  destruct (name == "format").
  { intros [= <-]. cbn [is_hls set_format andb].
    destruct (str_in _ _); by rewrite ?orb_true_r, ?orb_false_r. }
  cbn [andb]. rewrite orb_false_r.
  destruct ((name == "scale") || (name == "resize"))%bool; [by intros [= <-]|].
  destruct (name == "fps"); [by intros [= <-]|].
  destruct (name == "crop"); [by intros [= <-]|].
  destruct (name == "bitrate").
  { intros [= <-]. by destruct (op !! "video"), (op !! "audio"). }
  destruct (name == "crf"); [by intros [= <-]|].
  destruct (name == "preset"); [by intros [= <-]|].
  destruct (name == "audio").
  { intros [= <-]. by destruct (truthy _). }
  destruct (name == "rotate"); [apply rotate_op_hls|].
  destruct (str_in name ["grayscale"; "monochrome"]); [by intros [= <-]|].
  destruct (name == "thumbnail"); by intros [= <-].
Qed.

Lemma gpu_apply_op_hls cfg st op st' :
  GPU.apply_op cfg st op = Ok st' -> is_hls st' = is_hls st || gpu_asks_hls op.
Proof.
  unfold GPU.apply_op, gpu_asks_hls, gpu_named, format_type.
  set (name := get op "op" (VStr "")).
  destruct (GPU.name_is name "format").
  { intros [= <-]. cbn [is_hls set_format andb].
    destruct (str_in _ _); by rewrite ?orb_true_r, ?orb_false_r. }
  cbn [andb]. rewrite orb_false_r.
  destruct (GPU.name_is name "resize" || GPU.name_is name "scale")%bool;
    [by intros [= <-]|].
  destruct (GPU.name_is name "fps"); [by intros [= <-]|].
  destruct (GPU.name_is name "crop"); [by intros [= <-]|].
  destruct (GPU.name_is name "bitrate").
  { intros [= <-]. by destruct (op !! "video"), (op !! "audio"). }
  destruct (GPU.name_is name "crf"); [by intros [= <-]|].
  destruct (GPU.name_is name "preset" && negb (GPU.vaapi cfg))%bool;
    [by intros [= <-]|].
  destruct (GPU.name_is name "audio" && truthy _)%bool; [by intros [= <-]|].
  destruct (GPU.name_is name "rotate"); [apply rotate_op_hls|].
  destruct (GPU.name_is name "grayscale" || GPU.name_is name "monochrome")%bool;
    [by intros [= <-]|].
  destruct (GPU.name_is name "thumbnail"); [by intros [= <-]|].
  destruct (GPU.name_is name "fast"); by intros [= <-].
Qed.

Lemma cpu_run_ops_hls ops : forall st st',
  CPU.run_ops st ops = Ok st' ->
  is_hls st' = is_hls st || existsb asks_hls ops.
Proof.
  induction ops as [|op ops IH]; intros st st'; cbn [CPU.run_ops existsb].
  - intros [= <-]. by rewrite orb_false_r.
  - destruct (CPU.apply_op st op) as [st1|e] eqn:E; [|discriminate].
    cbn [mbind result_bind]. intros H.
    by rewrite (IH _ _ H), (cpu_apply_op_hls _ _ _ E), orb_assoc.
Qed.

Lemma gpu_run_ops_hls cfg ops : forall st st',
  GPU.run_ops cfg st ops = Ok st' ->
  is_hls st' = is_hls st || existsb gpu_asks_hls ops.
Proof.
  induction ops as [|op ops IH]; intros st st'; cbn [GPU.run_ops existsb].
  - intros [= <-]. by rewrite orb_false_r.
  - destruct (GPU.apply_op cfg st op) as [st1|e] eqn:E; [|discriminate].
    cbn [mbind result_bind]. intros H.
    by rewrite (IH _ _ H), (gpu_apply_op_hls _ _ _ _ E), orb_assoc.
Qed.

(** The HLS test of the GPU variant's [process_video] reads the forced
    extension too, but on every state the loop reaches the flag decides. *)
Lemma gpu_hls_test st :
  ext_inv st ->
  str_in (default "" (forced_ext st)) ["hls"; "m3u8"] || is_hls st = is_hls st.
Proof.
  intros Hinv. destruct (forced_ext st) as [e|] eqn:Ee; [|reflexivity].
  change (default "" (Some e)) with e.
  destruct (str_in e ["hls"; "m3u8"]) eqn:Es; [|reflexivity].
  destruct (Hinv e Ee) as [_ H]. by rewrite (H Es).
Qed.

(** X9. A job is delivered as an archive exactly when one of its
    operations is a format operation of type hls or m3u8, wherever it
    stands and whatever format operations follow it; every other job is
    delivered as the single file the engine wrote. The GPU variant's
    test of the forced extension adds nothing to its test of the flag,
    whatever command the loop starts from. *)
Theorem archive_iff_hls_requested cfg path_exists uuid4_hex in_path tmpdir
    ops :
  (forall out,
     CPU.process_video cfg path_exists uuid4_hex in_path ops tmpdir = Ok out ->
     (existsb asks_hls ops = true -> is_archive uuid4_hex tmpdir out)
     /\ (existsb asks_hls ops = false -> is_single_file out))
  /\ (forall out,
        GPU.process_video cfg path_exists uuid4_hex in_path ops tmpdir = Ok out ->
        (existsb gpu_asks_hls ops = true -> is_archive uuid4_hex tmpdir out)
        /\ (existsb gpu_asks_hls ops = false -> is_single_file out))
  /\ (forall cmd0 st,
        GPU.run_ops cfg (CPU.init_state cmd0) ops = Ok st ->
        str_in (default "" (forced_ext st)) ["hls"; "m3u8"] || is_hls st
        = existsb gpu_asks_hls ops).
Proof.
  split; [|split].
  - intros out H.
    destruct (cpu_process_video_ok _ _ _ _ _ _ _ H) as [st Hst].
    destruct (cpu_process_video_run cfg path_exists uuid4_hex in_path ops
                tmpdir st Hst) as (c & ct & Hout).
    rewrite H in Hout. injection Hout as ->.
    rewrite (cpu_run_ops_hls _ _ _ Hst). cbn [is_hls CPU.init_state orb].
    split; intros ->; [apply cpu_deliver_archive|apply cpu_deliver_single].
  - intros out H.
    destruct (gpu_process_video_ok _ _ _ _ _ _ _ H) as (c0 & st & Hb & Hst).
    destruct (gpu_process_video_run cfg path_exists uuid4_hex in_path ops
                tmpdir c0 st Hb Hst) as (c & ct & vfc & Hout).
    rewrite H in Hout. injection Hout as ->.
    assert (str_in (default "" (forced_ext st)) ["hls"; "m3u8"] || is_hls st
            = existsb gpu_asks_hls ops) as Ht.
    { rewrite gpu_hls_test
        by (eapply gpu_run_inv; [exact Hst|apply init_state_inv]).
      by rewrite (gpu_run_ops_hls _ _ _ _ Hst). }
    split; intros Hx; rewrite Hx in Ht;
      [by apply gpu_deliver_archive|by apply gpu_deliver_single].
  - intros cmd0 st Hst.
    rewrite gpu_hls_test
      by (eapply gpu_run_inv; [exact Hst|apply init_state_inv]).
    by rewrite (gpu_run_ops_hls _ _ _ _ Hst).
Qed.

Lemma cpu_run_ops_cmd ops st st' :
  CPU.run_ops st ops = Ok st' -> exists rest, cmd st' = cmd st ++ rest.
Proof.
  rewrite cpu_run_ops_after.
  destruct (CPU.run_ops (CPU.init_state []) ops) as [d|e]; [|discriminate].
  intros [= <-]. by exists (cmd d).
Qed.

Lemma gpu_run_ops_cmd cfg ops st st' :
  GPU.run_ops cfg st ops = Ok st' -> exists rest, cmd st' = cmd st ++ rest.
Proof.
  rewrite gpu_run_ops_after.
  destruct (GPU.run_ops cfg (CPU.init_state []) ops) as [d|e]; [|discriminate].
  intros [= <-]. by exists (cmd d).
Qed.

Lemma cpu_process_video_cmd cfg path_exists uuid4_hex in_path ops tmpdir st :
  CPU.run_ops (CPU.init_state (CPU._base_cmd cfg in_path)) ops = Ok st ->
  exists rest ct,
    CPU.process_video cfg path_exists uuid4_hex in_path ops tmpdir
    = Ok (CPU.deliver uuid4_hex tmpdir (cmd st ++ rest) (forced_ext st) ct
            (is_hls st)).
Proof.
  intros H. unfold CPU.process_video, CPU._apply_ops_and_watermark.
  rewrite H. cbn [mbind result_bind]. unfold CPU.watermark.
  destruct (image_usable cfg path_exists).
  - cbn [mbind result_bind fst snd]. unfold CPU.assemble.
    cbn [cmd add_cmd vf_filters vcodec_args acodec_args forced_ext is_hls].
    eexists _, _. do 2 f_equal.
    destruct (vf_filters st); by rewrite <- !app_assoc.
  - cbn [mbind result_bind fst snd]. unfold CPU.assemble.
    cbn [cmd add_vf vf_filters vcodec_args acodec_args forced_ext is_hls].
    destruct (vf_filters st ++ [wm_draw cfg]) as [|f fs] eqn:E.
    { by destruct (vf_filters st). }
    eexists _, _. do 2 f_equal. by rewrite app_nil_r, <- !app_assoc.
Qed.

Lemma cpu_deliver_runs uuid4_hex tmpdir c forced ct hls :
  exists rest,
    engine_runs (CPU.deliver uuid4_hex tmpdir c forced ct hls) = [c ++ rest].
Proof.
  unfold CPU.deliver. destruct hls.
  - by eexists.
  - destruct (CPU._choose_container_and_codecs _). by eexists.
Qed.

Lemma gpu_deliver_runs cfg uuid4_hex tmpdir c forced ct hls vfc :
  exists rest,
    engine_runs (GPU.deliver cfg uuid4_hex tmpdir c forced ct hls vfc)
    = [c ++ rest].
Proof.
  unfold GPU.deliver. destruct (_ || _).
  - by eexists.
  - destruct (GPU._choose_container_and_codecs _ _). by eexists.
Qed.

(** X10. Every job that yields a result starts the engine exactly once,
    and the argument list of that run begins with the program, the options
    [-hide_banner -nostdin -y -loglevel error] and [-i] with the uploaded
    file: they stand before everything the operations and the watermark
    add. A job of the GPU variant yields a result only with another
    encoder than VAAPI. *)
Theorem engine_runs_once_on_the_base_command cfg path_exists uuid4_hex
    in_path tmpdir ops :
  (forall out,
     CPU.process_video cfg path_exists uuid4_hex in_path ops tmpdir = Ok out ->
     exists rest,
       engine_runs out
       = [[FFMPEG cfg; "-hide_banner"; "-nostdin"; "-y"; "-loglevel"; "error";
           "-i"; in_path] ++ rest])
  /\ (forall out,
        GPU.process_video cfg path_exists uuid4_hex in_path ops tmpdir = Ok out ->
        ENCODER cfg <> "h264_vaapi"
        /\ exists rest,
             engine_runs out
             = [[FFMPEG cfg; "-hide_banner"; "-nostdin"; "-y"; "-loglevel";
                 "error"; "-i"; in_path] ++ rest]).
Proof.
  split; intros out H.
  - destruct (cpu_process_video_ok _ _ _ _ _ _ _ H) as [st Hst].
    destruct (cpu_process_video_cmd cfg path_exists uuid4_hex in_path ops
                tmpdir st Hst) as (r1 & ct & Hout).
    rewrite H in Hout. injection Hout as ->.
    destruct (cpu_run_ops_cmd _ _ _ Hst) as [r0 ->].
    destruct (cpu_deliver_runs uuid4_hex tmpdir
                ((cmd (CPU.init_state (CPU._base_cmd cfg in_path)) ++ r0) ++ r1)
                (forced_ext st) ct (is_hls st)) as [r2 ->].
    cbn [cmd CPU.init_state]. exists (r0 ++ r1 ++ r2).
    unfold CPU._base_cmd. by rewrite <- !app_assoc.
  - destruct (gpu_process_video_ok _ _ _ _ _ _ _ H) as (c0 & st & Hb & Hst).
    rewrite (gpu_process_video_eq _ path_exists uuid4_hex _ _ tmpdir _ _
               Hb Hst) in H.
    injection H as <-.
    destruct (gpu_base_cmd_ok _ _ _ Hb) as [Hv ->]. split; [exact Hv|].
    destruct (gpu_run_ops_cmd _ _ _ _ Hst) as [r0 ->].
    destruct (gpu_deliver_runs cfg uuid4_hex tmpdir
                (cmd (CPU.init_state (CPU._base_cmd cfg in_path)) ++ r0)
                (forced_ext st) (wm_graph cfg path_exists (WM_ENABLED cfg))
                (is_hls st) (GPU.vf_and_codecs cfg path_exists st)) as [r2 ->].
    cbn [cmd CPU.init_state]. exists (r0 ++ r2).
    unfold CPU._base_cmd. by rewrite <- !app_assoc.
Qed.

Lemma gpu_ext_fold_no_format l : forall e,
  existsb (gpu_named "format") l = false ->
  foldl gpu_ext_step e l
  = if existsb (gpu_named "thumbnail") l then png_default e else e.
Proof.
  induction l as [|op l IH]; intros e; [done|].
  cbn [existsb foldl]. intros H. apply orb_false_iff in H as [Hf Hl].
  rewrite (IH _ Hl). unfold gpu_ext_step. rewrite Hf.
  destruct (gpu_named "thumbnail" op); cbn [orb];
    destruct (existsb (gpu_named "thumbnail") l); try done.
  by destruct e as [[|]|].
Qed.

Lemma no_format_forallb l :
  existsb (named "format") l = false ->
  forallb (fun o => negb (named "format" o)) l = true.
Proof.
  induction l as [|op l IH]; [done|]. cbn [existsb forallb].
  intros H. apply orb_false_iff in H as [-> Hl]. by rewrite (IH Hl).
Qed.

Lemma no_format_not_hls l :
  existsb (named "format") l = false -> existsb asks_hls l = false.
Proof.
  induction l as [|op l IH]; [done|]. cbn [existsb].
  intros H. apply orb_false_iff in H as [Hf Hl].
  rewrite (IH Hl). unfold asks_hls. by rewrite Hf.
Qed.

Lemma gpu_no_format_not_hls l :
  existsb (gpu_named "format") l = false -> existsb gpu_asks_hls l = false.
Proof.
  induction l as [|op l IH]; [done|]. cbn [existsb].
  intros H. apply orb_false_iff in H as [Hf Hl].
  rewrite (IH Hl). unfold gpu_asks_hls. by rewrite Hf.
Qed.

(** X11. A thumbnail operation forces the extension png when no format
    operation is given, but the container selector does not know png and
    falls back on mp4: in both variants such a job is delivered as a file
    named [.mp4] with the content type [video/mp4], not as a PNG image (in
    the GPU variant when its base command is built, that is with another
    encoder than VAAPI). *)
Theorem thumbnail_job_is_delivered_as_mp4 cfg path_exists uuid4_hex in_path
    tmpdir :
  (forall ops st,
     CPU.run_ops (CPU.init_state (CPU._base_cmd cfg in_path)) ops = Ok st ->
     existsb (named "format") ops = false ->
     existsb (named "thumbnail") ops = true ->
     forced_ext st = Some "png"
     /\ exists effs,
          CPU.process_video cfg path_exists uuid4_hex in_path ops tmpdir
          = Ok {| effects := effs;
                  out_path := path_join tmpdir
                                ("out-" +:+ uuid4_hex 0%nat +:+ ".mp4");
                  media_type := "video/mp4" |})
  /\ (forall ops c0 st,
        GPU._base_cmd cfg in_path = Ok c0 ->
        GPU.run_ops cfg (CPU.init_state c0) ops = Ok st ->
        existsb (gpu_named "format") ops = false ->
        existsb (gpu_named "thumbnail") ops = true ->
        ENCODER cfg <> "h264_vaapi"
        /\ forced_ext st = Some "png"
        /\ exists effs,
             GPU.process_video cfg path_exists uuid4_hex in_path ops tmpdir
             = Ok {| effects := effs;
                     out_path := path_join tmpdir
                                   ("out-" +:+ uuid4_hex 0%nat +:+ ".mp4");
                     media_type := "video/mp4" |}).
Proof.
  split; [intros ops st Hst Hf Ht|intros ops c0 st Hb Hst Hf Ht].
  - assert (forced_ext st = Some "png") as He.
    { rewrite (cpu_run_forced_ext _ _ _ Hst).
      rewrite ext_fold_no_format by by apply no_format_forallb.
      by rewrite Ht. }
    split; [done|].
    destruct (cpu_process_video_cmd cfg path_exists uuid4_hex in_path ops
                tmpdir st Hst) as (r & ct & ->).
    rewrite (cpu_run_ops_hls _ _ _ Hst), (no_format_not_hls _ Hf), He.
    by eexists.
  - assert (forced_ext st = Some "png") as He.
    { pose proof (gpu_run_ops_after cfg ops (CPU.init_state c0)) as Ha.
      rewrite Hst in Ha.
      destruct (GPU.run_ops cfg (CPU.init_state []) ops) as [d|e];
        [|discriminate].
      injection Ha as ->. cbn [forced_ext after CPU.init_state].
      rewrite gpu_ext_fold_no_format by done. by rewrite Ht. }
    split; [by destruct (gpu_base_cmd_ok _ _ _ Hb)|].
    split; [done|].
    rewrite (gpu_process_video_eq _ path_exists uuid4_hex _ _ tmpdir _ _
               Hb Hst).
    rewrite (gpu_run_ops_hls _ _ _ _ Hst), (gpu_no_format_not_hls _ Hf), He.
    unfold GPU.deliver. cbn [default orb CPU.init_state is_hls].
    change (str_in (default "" (Some "png")) ["hls"; "m3u8"]) with false.
    cbn [orb]. unfold GPU._choose_container_and_codecs.
    change (ext_or_mp4 (Some "png")) with "png".
    change (lower (if "png" == "" then "mp4" else "png")) with "png".
    change (str_in "png" ["mp4"; "m4v"; "mov"]) with false.
    change (str_in "png" ["hls"; "m3u8"]) with false.
    change ("png" == "webm") with false. change ("png" == "mkv") with false.
    change ("png" == "gif") with false. cbv iota.
    by eexists.
Qed.

Example thumbnail_job_example :
  CPU.process_video default_config no_files (fun _ => "0123456789abcdef")
    "/tmp/ffx/in" (CPU.parse_ops_query ["thumbnail:at=5"]) "/tmp/ffx"
  ≫= (fun out => Ok (out_path out, media_type out))
  = Ok ("/tmp/ffx/out-0123456789abcdef.mp4", "video/mp4").
Proof. vm_compute. reflexivity. Qed.

(* ===================================================================== *)
(** * The CPU variant with a watermark image *)
(* ===================================================================== *)

Lemma cpu_image_job cfg path_exists uuid4_hex in_path ops tmpdir st :
  image_usable cfg path_exists = true ->
  CPU.run_ops (CPU.init_state (CPU._base_cmd cfg in_path)) ops = Ok st ->
  CPU.process_video cfg path_exists uuid4_hex in_path ops tmpdir
  = Ok (CPU.deliver uuid4_hex tmpdir (cpu_overlay_cmd cfg st) (forced_ext st)
          (Some ("-filter_complex", wm_chain cfg, "-map")) (is_hls st)).
Proof.
  intros Hi H. unfold CPU.process_video, CPU._apply_ops_and_watermark.
  rewrite H. cbn [mbind result_bind]. unfold CPU.watermark. rewrite Hi.
  cbn [mbind result_bind fst snd]. unfold CPU.assemble, cpu_overlay_cmd.
  cbn [cmd add_cmd vf_filters vcodec_args acodec_args forced_ext is_hls].
  do 2 f_equal. destruct (vf_filters st); by rewrite <- !app_assoc.
Qed.

Lemma cpu_apply_filter_op st d n :
  get d "op" (VStr "") = VStr n -> In (lower n) filter_ops ->
  exists f, CPU.apply_op st d = Ok (add_vf st f).
Proof.
  intros Hn Hin. unfold CPU.apply_op, CPU.op_name. rewrite Hn.
  cbn [mbind result_bind]. unfold filter_ops in Hin. cbn [In] in Hin.
  destruct Hin as [<-|[<-|[<-|[<-|[<-|[<-|[]]]]]]]; by eexists.
Qed.

Lemma after_add_vf st f d e :
  after (add_vf st f) d e
  = mkState (cmd st ++ cmd d) ((vf_filters st ++ [f]) ++ vf_filters d) e
            (is_hls st || is_hls d) (vcodec_args st ++ vcodec_args d)
            (acodec_args st ++ acodec_args d).
Proof. reflexivity. Qed.

(** X12. When the watermark image is usable, the CPU variant gives the
    engine the command of the loop, the audio mapping, the image as a
    second input, the codec overrides and the first three graph
    arguments; the linear filter chain is not part of it. So an operation
    that only adds a filter (scale, resize, fps, crop, grayscale,
    monochrome) has no effect on such a job: removing it gives the same
    result. *)
Theorem cpu_overlay_drops_the_filter_chain cfg path_exists uuid4_hex in_path
    tmpdir :
  image_usable cfg path_exists = true ->
  (forall ops st,
     CPU.run_ops (CPU.init_state (CPU._base_cmd cfg in_path)) ops = Ok st ->
     CPU.process_video cfg path_exists uuid4_hex in_path ops tmpdir
     = Ok (CPU.deliver uuid4_hex tmpdir (cpu_overlay_cmd cfg st)
             (forced_ext st)
             (Some ("-filter_complex", wm_chain cfg, "-map")) (is_hls st)))
  /\ (forall l1 d l2 n,
        get d "op" (VStr "") = VStr n -> In (lower n) filter_ops ->
        CPU.process_video cfg path_exists uuid4_hex in_path (l1 ++ d :: l2) tmpdir
        = CPU.process_video cfg path_exists uuid4_hex in_path (l1 ++ l2) tmpdir).
Proof.
  intros Hi. split.
  - intros ops st. by apply cpu_image_job.
  - intros l1 d l2 n Hn Hin.
    set (s0 := CPU.init_state (CPU._base_cmd cfg in_path)).
    destruct (CPU.run_ops s0 l1) as [st1|e] eqn:E1.
    2:{ unfold CPU.process_video, CPU._apply_ops_and_watermark. fold s0.
        by rewrite !cpu_run_ops_app, E1. }
    destruct (cpu_apply_filter_op st1 d n Hn Hin) as [f Hf].
    assert (CPU.run_ops s0 (l1 ++ d :: l2) = CPU.run_ops (add_vf st1 f) l2) as Ha.
    { rewrite cpu_run_ops_app, E1. cbn [mbind result_bind CPU.run_ops].
      by rewrite Hf. }
    assert (CPU.run_ops s0 (l1 ++ l2) = CPU.run_ops st1 l2) as Hb.
    { by rewrite cpu_run_ops_app, E1. }
    rewrite (cpu_run_ops_after l2 (add_vf st1 f)) in Ha.
    rewrite (cpu_run_ops_after l2 st1) in Hb.
    destruct (CPU.run_ops (CPU.init_state []) l2) as [d2|e] eqn:E2.
    + cbn [mbind result_bind] in Ha, Hb.
      rewrite (cpu_image_job _ _ _ _ _ _ _ Hi Ha).
      by rewrite (cpu_image_job _ _ _ _ _ _ _ Hi Hb).
    + cbn [mbind result_bind] in Ha, Hb.
      unfold CPU.process_video, CPU._apply_ops_and_watermark. fold s0.
      by rewrite Ha, Hb.
Qed.

Lemma cpu_overlay_drops_the_filter_chain_witness :
  CPU.process_video config_vaapi_image all_files (fun _ => "0123456789abcdef")
    "/tmp/ffx/in"
    (CPU.parse_ops_query ["crf:value=20"] ++
       CPU.parse_item "Scale:width=640,height=360"
       :: CPU.parse_ops_query ["format:type=webm"]) "/tmp/ffx"
  = CPU.process_video config_vaapi_image all_files (fun _ => "0123456789abcdef")
      "/tmp/ffx/in"
      (CPU.parse_ops_query ["crf:value=20"]
         ++ CPU.parse_ops_query ["format:type=webm"]) "/tmp/ffx".
Proof.
  apply (cpu_overlay_drops_the_filter_chain config_vaapi_image all_files
           (fun _ => "0123456789abcdef") "/tmp/ffx/in" "/tmp/ffx" eq_refl)
    with (n := "Scale").
  - vm_compute. reflexivity.
  - vm_compute. tauto.
Defined.

(* ===================================================================== *)
(** * The opacity of the text watermark *)
(* ===================================================================== *)

Lemma colours_ok_upto_100 :
  forallb colours_ok (map Z.of_nat (seq 0 101)) = true.
Proof. vm_compute. reflexivity. Qed.

Lemma colours_ok_in_range n : 0 <= n <= 100 -> colours_ok n = true.
Proof.
  intros Hn. pose proof colours_ok_upto_100 as H.
  rewrite forallb_forall in H. apply H.
  apply in_map_iff. exists (Z.to_nat n). split; [lia|].
  apply in_seq. lia.
Qed.

(** X13. The opacity setting is clamped to 0..100 whatever its value, and
    the two colours of the drawtext filter are that percentage and six
    tenths of it (rounded to the nearest hundredth), each printed with
    two decimals: the fill is [white@] and the border [black@] followed by
    a number between 0.00 and 1.00. *)
Theorem text_watermark_colours cfg :
  0 <= clamped cfg <= 100
  /\ (0 <= WM_OPACITY cfg <= 100 -> clamped cfg = WM_OPACITY cfg)
  /\ float_fmt2 (wm_alpha cfg) = hundredths (clamped cfg)
  /\ float_fmt2 (fmul (wm_alpha cfg) (float_lit "0.6"))
     = hundredths ((6 * clamped cfg + 5) / 10)
  /\ wm_draw cfg
     = "drawtext=fontfile='" +:+ WM_FONT cfg +:+ "':text='"
         +:+ _escape_drawtext (WM_TEXT cfg)
         +:+ "':fontsize=" +:+ str_of_int (WM_FONTSIZE cfg)
         +:+ ":fontcolor=white@" +:+ hundredths (clamped cfg)
         +:+ ":borderw=2:bordercolor=black@"
         +:+ hundredths ((6 * clamped cfg + 5) / 10)
         +:+ ":x=w-tw-" +:+ str_of_int (WM_INSET cfg)
         +:+ ":y=h-th-" +:+ str_of_int (WM_INSET cfg).
Proof.
  assert (0 <= clamped cfg <= 100) as Hr by (unfold clamped; lia).
  pose proof (colours_ok_in_range _ Hr) as Hc.
  unfold colours_ok in Hc. apply andb_true_iff in Hc as [Hf Hs].
  apply String.eqb_eq in Hf. apply String.eqb_eq in Hs.
  fold (wm_alpha cfg) in Hs.
  change (fdiv (to_float (clamped cfg)) (float_lit "100.0"))
    with (wm_alpha cfg) in Hf, Hs.
  split; [done|]. split; [unfold clamped; lia|].
  split; [done|]. split; [done|].
  unfold wm_draw. cbv zeta. rewrite Hf, Hs.
  by rewrite !str_app_assoc.
Qed.

(* ===================================================================== *)
(** * The archive of a segmented job *)
(* ===================================================================== *)

Lemma node_ind (P : node -> Prop) :
  (forall f, P (File f)) ->
  (forall name children, Forall P children -> P (Dir name children)) ->
  forall n, P n.
Proof.
  intros HF HD. fix IH 1. intros [f|name children]; [apply HF|].
  apply HD. induction children as [|c cs IHcs]; constructor;
    [apply IH|apply IHcs].
Qed.

Lemma walk_length n : forall rel,
  length (walk rel n)
  = match n with
    | File _ => 0%nat
    | Dir _ children => list_sum (map files_in children)
    end.
Proof.
  induction n as [f|name children IH] using node_ind; intros rel; [done|].
  cbn [walk]. generalize (rel_join rel name) as r. intros r.
  induction IH as [|c cs Hc _ IHcs]; [done|].
  rewrite length_app in IHcs.
  change (files_here r (c :: cs))
    with (match c with
          | File f => [rel_join r f]
          | Dir _ _ => []
          end ++ files_here r cs).
  cbn [flat_map map list_sum]. rewrite !length_app, Hc.
  change (list_sum (files_in c :: map files_in cs))
    with (files_in c + list_sum (map files_in cs))%nat.
  destruct c as [f|d cs']; cbn [length files_in]; lia.
Qed.

Lemma zip_dir_length contents :
  length (_zip_dir contents) = list_sum (map files_in contents).
Proof.
  change (_zip_dir contents) with (walk "" (Dir "" contents)).
  apply (walk_length (Dir "" contents)).
Qed.

Lemma zip_dir_flat names : _zip_dir (map File names) = names.
Proof.
  unfold _zip_dir.
  assert (flat_map (walk "") (map File names) = []) as ->.
  { induction names as [|f fs IH]; [done|]. exact IH. }
  rewrite app_nil_r. induction names as [|f fs IH]; [done|].
  change (files_here "" (map File (f :: fs)))
    with (f :: files_here "" (map File fs)).
  by rewrite IH.
Qed.

(** X14. The archive of a directory has one entry for every file below
    it and none for the directories themselves, so empty directories are
    not stored; and a directory that holds only files, as the engine
    leaves it with the playlist and the segments, is archived as exactly
    those files, in the order they are listed. *)
Theorem zip_dir_stores_the_files :
  (forall contents,
     length (_zip_dir contents) = list_sum (map files_in contents))
  /\ (forall names, _zip_dir (map File names) = names).
Proof. split; [apply zip_dir_length|apply zip_dir_flat]. Qed.

(* ===================================================================== *)
(** * Integers through the parser and back *)
(* ===================================================================== *)

Lemma pretty_N_char_digit d :
  (d < 10)%N ->
  is_digit (pretty_N_char d) = true /\ ord (pretty_N_char d) - 48 = Z.of_N d.
Proof.
  intros H.
  assert (d = 0 \/ d = 1 \/ d = 2 \/ d = 3 \/ d = 4 \/ d = 5 \/ d = 6
          \/ d = 7 \/ d = 8 \/ d = 9)%N as Hd by lia.
  destruct Hd as [->|[->|[->|[->|[->|[->|[->|[->|[->| ->]]]]]]]]];
    by vm_compute.
Qed.

Lemma pretty_N_go_app x : forall s,
  pretty_N_go x s = pretty_N_go x "" +:+ s.
Proof.
  induction (N.lt_wf_0 x) as [x _ IH]; intros s.
  destruct (decide (x = 0)%N) as [->|Hx]; [by rewrite !pretty_N_go_0|].
  rewrite !(pretty_N_go_step x) by lia.
  assert (x `div` 10 < x)%N as Hlt by (apply N.div_lt; lia).
  rewrite (IH _ Hlt (String _ s)), (IH _ Hlt (String _ "")).
  by rewrite str_app_assoc.
Qed.

Lemma pretty_N_go_snoc x :
  (0 < x)%N ->
  pretty_N_go x ""
  = pretty_N_go (x `div` 10) "" +:+ String (pretty_N_char (x `mod` 10)) "".
Proof.
  intros Hx. rewrite pretty_N_go_step by done. apply pretty_N_go_app.
Qed.

Lemma all_digits_app a b :
  all_digits (a +:+ b) = all_digits a && all_digits b.
Proof.
  induction a as [|c a IH]; [done|].
  rewrite str_app_cons. cbn [all_digits]. by rewrite IH, andb_assoc.
Qed.

Lemma digits_value_app a : forall acc b,
  digits_value acc (a +:+ b) = digits_value (digits_value acc a) b.
Proof.
  induction a as [|c a IH]; intros acc b; [done|].
  rewrite str_app_cons. cbn [digits_value]. by rewrite IH.
Qed.

Lemma pretty_N_go_digits x :
  all_digits (pretty_N_go x "") = true
  /\ digits_value 0 (pretty_N_go x "") = Z.of_N x.
Proof.
  induction (N.lt_wf_0 x) as [x _ IH].
  destruct (decide (x = 0)%N) as [->|Hx]; [by rewrite pretty_N_go_0|].
  rewrite pretty_N_go_snoc by lia.
  destruct (IH (x `div` 10)%N) as [Ha Hv]; [apply N.div_lt; lia|].
  destruct (pretty_N_char_digit (x `mod` 10)%N) as [Hd Ho];
    [apply N.mod_lt; lia|].
  rewrite all_digits_app, digits_value_app, Ha, Hv.
  cbn [all_digits digits_value andb]. rewrite Hd, Ho. split; [done|].
  rewrite (N.div_mod x 10) at 3 by lia. lia.
Qed.

Lemma pretty_N_go_nonempty x : (0 < x)%N -> pretty_N_go x "" <> "".
Proof.
  intros Hx. rewrite pretty_N_go_snoc by done.
  by destruct (pretty_N_go (x `div` 10) "").
Qed.

(** The decimal numeral of a positive number. *)
Lemma str_of_pos p :
  str_of_int (Z.pos p) <> ""
  /\ all_digits (str_of_int (Z.pos p)) = true
  /\ digits_value 0 (str_of_int (Z.pos p)) = Z.pos p.
Proof.
  change (str_of_int (Z.pos p)) with (pretty_N_go (N.pos p) "").
  destruct (pretty_N_go_digits (N.pos p)) as [Ha Hv].
  split; [by apply pretty_N_go_nonempty|]. by split.
Qed.

Lemma int_unsigned_digits s :
  s <> "" -> all_digits s = true -> int_unsigned s = Some (digits_value 0 s).
Proof.
  destruct s as [|c r]; [done|]. intros _ H. cbn [all_digits] in H.
  apply andb_true_iff in H as [Hc Hr].
  unfold int_unsigned, digit_val. rewrite Hc.
  by rewrite (int_digits_all_digits _ _ Hr).
Qed.

Lemma isdigit_digits s : s <> "" -> all_digits s = true -> isdigit s = true.
Proof. by destruct s. Qed.

Lemma digit_lower c : is_digit c = true -> lower_char c = c.
Proof.
  unfold is_digit, lower_char. intros H.
  apply andb_true_iff in H as [H1 H2].
  apply Z.leb_le in H1. apply Z.leb_le in H2.
  destruct (65 <=? ord c) eqn:E; [|done].
  apply Z.leb_le in E. lia.
Qed.

Lemma digit_not_dot c : is_digit c = true -> Ascii.eqb c "." = false.
Proof.
  destruct (Ascii.eqb_spec c ".") as [->|]; [by vm_compute|done].
Qed.

Lemma all_digits_lower s : all_digits s = true -> lower s = s.
Proof.
  induction s as [|c r IH]; [done|]. cbn [all_digits lower].
  intros H. apply andb_true_iff in H as [Hc Hr].
  by rewrite (digit_lower _ Hc), (IH Hr).
Qed.

Lemma all_digits_no_dot s : all_digits s = true -> contains "." s = false.
Proof.
  induction s as [|c r IH]; [done|]. cbn [all_digits contains].
  intros H. apply andb_true_iff in H as [Hc Hr].
  by rewrite (digit_not_dot _ Hc), (IH Hr).
Qed.

Lemma all_digits_zeros k : all_digits (zeros k) = true.
Proof. induction k as [|k IH]; [done|]. exact IH. Qed.

Lemma digits_value_zeros k : digits_value 0 (zeros k) = 0.
Proof. induction k as [|k IH]; [done|]. exact IH. Qed.

Lemma coerce_digits s :
  s <> "" -> all_digits s = true ->
  CPU.coerce s = if Z.of_nat (String.length s) <=? int_max_str_digits
                 then VInt (digits_value 0 s) else VStr s.
Proof.
  intros Hs Ha. rewrite coerce_refines. unfold coerce_amended.
  rewrite (all_digits_lower _ Ha).
  destruct (String.eqb_spec s "true") as [->|_]; [discriminate|].
  destruct (String.eqb_spec s "false") as [->|_]; [discriminate|].
  by rewrite (isdigit_digits _ Hs Ha).
Qed.

Lemma zeros_length k : String.length (zeros k) = k.
Proof. induction k as [|k IH]; [done|]. cbn [zeros String.length]. by rewrite IH. Qed.

Lemma str_of_neg p : str_of_int (Z.neg p) = String "-" (str_of_int (Z.pos p)).
Proof. reflexivity. Qed.

Lemma int_of_str_neg s :
  s <> "" -> all_digits s = true ->
  int_of_str (String "-" s)
  = if Z.of_nat (String.length s) <=? int_max_str_digits
    then Ok (- digits_value 0 s) else Raise ValueError.
Proof.
  intros Hs Ha. unfold int_of_str.
  change (lstrip_by isspace_literal (String "-" s)) with (String "-" s).
  cbn [rstrip_by]. rewrite (rstrip_digits _ Ha).
  change (isspace_literal "-") with false.
  destruct s as [|c r]; [done|].
  rewrite (int_unsigned_digits _ Hs Ha).
  cbn [option_map].
  change (count_digits (String "-" (String c r)))
    with (0 + count_digits (String c r)).
  rewrite Z.add_0_l, (count_digits_all_digits _ Ha), Z.ltb_antisym.
  by destruct (_ <=? _).
Qed.

Lemma coerce_neg s :
  all_digits s = true -> CPU.coerce (String "-" s) = VStr (String "-" s).
Proof.
  intros Ha. rewrite coerce_refines. unfold coerce_amended.
  cbn [lower]. change (lower_char "-") with "-"%char.
  change (String "-" (lower s) == "true") with false.
  change (String "-" (lower s) == "false") with false.
  cbn [isdigit all_digits contains].
  change (is_digit "-") with false. change (Ascii.eqb "-" ".") with false.
  cbn [andb]. by rewrite (all_digits_no_dot _ Ha).
Qed.

(** X15. An integer written in decimal survives the parser up to the
    interpreter's limit of 4300 digits. [int] reads back what [str] prints
    for an integer of at most that many digits. A value made of more than
    4300 digits is rejected by [int] with [ValueError] and kept by the
    coercion as the string it is. The coercion turns a numeral without
    sign of at most 4300 characters into the integer it denotes, dropping
    leading zeros, and leaves a negative numeral a string. Within the
    limit the value is printed into a filter as the client wrote it
    (leading zeros apart) and read by [int] as that integer. *)
Theorem integers_survive_the_parser :
  (forall n,
     Z.of_nat (String.length (str_of_int (Z.abs n))) <= int_max_str_digits ->
     int_of_str (str_of_int n) = Ok n)
  /\ (forall s,
        isdigit s = true ->
        int_max_str_digits < Z.of_nat (String.length s) ->
        int_of_str s = Raise ValueError /\ CPU.coerce s = VStr s)
  /\ (forall n k, 0 <= n ->
        Z.of_nat (k + String.length (str_of_int n)) <= int_max_str_digits ->
        CPU.coerce (zeros k +:+ str_of_int n) = VInt n)
  /\ (forall n, n < 0 ->
        Z.of_nat (String.length (str_of_int (Z.abs n))) <= int_max_str_digits ->
        CPU.coerce (str_of_int n) = VStr (str_of_int n))
  /\ (forall n,
        Z.of_nat (String.length (str_of_int (Z.abs n))) <= int_max_str_digits ->
        py_str (CPU.coerce (str_of_int n)) = str_of_int n
        /\ py_int (CPU.coerce (str_of_int n)) = Ok n).
Proof.
  assert (forall n,
            int_of_str (str_of_int n)
            = if Z.of_nat (String.length (str_of_int (Z.abs n)))
                 <=? int_max_str_digits
              then Ok n else Raise ValueError) as Hint.
  { intros [|p|p].
    - reflexivity.
    - destruct (str_of_pos p) as (Hs & Ha & Hv).
      rewrite (int_of_str_isdigit _ (isdigit_digits _ Hs Ha)), Hv. done.
    - destruct (str_of_pos p) as (Hs & Ha & Hv).
      rewrite str_of_neg, (int_of_str_neg _ Hs Ha), Hv. done. }
  assert (forall n k, 0 <= n ->
            CPU.coerce (zeros k +:+ str_of_int n)
            = if Z.of_nat (k + String.length (str_of_int n))
                 <=? int_max_str_digits
              then VInt n else VStr (zeros k +:+ str_of_int n)) as Hpos.
  { intros n k Hn.
    assert (str_of_int n <> "" /\ all_digits (str_of_int n) = true
            /\ digits_value 0 (str_of_int n) = n) as (Hs & Ha & Hv).
    { destruct n as [|p|p]; [done|apply str_of_pos|lia]. }
    rewrite coerce_digits.
    - by rewrite str_length_app, zeros_length, digits_value_app,
        digits_value_zeros, Hv.
    - destruct k; [done|]. cbn [zeros]. by rewrite str_app_cons.
    - by rewrite all_digits_app, all_digits_zeros, Ha. }
  assert (forall n, n < 0 -> CPU.coerce (str_of_int n) = VStr (str_of_int n))
    as Hneg.
  { intros [|p|p] Hn; try lia.
    destruct (str_of_pos p) as (Hs & Ha & Hv).
    by rewrite str_of_neg, (coerce_neg _ Ha). }
  split; [|split; [|split; [|split]]].
  - intros n Hn. rewrite Hint. apply Z.leb_le in Hn. by rewrite Hn.
  - intros s Hd Hl. apply Z.leb_gt in Hl.
    rewrite (int_of_str_isdigit _ Hd), Hl. split; [done|].
    assert (s <> "" /\ all_digits s = true) as [Hs Ha] by by destruct s.
    by rewrite (coerce_digits _ Hs Ha), Hl.
  - intros n k Hn Hl. rewrite (Hpos n k Hn). apply Z.leb_le in Hl.
    by rewrite Hl.
  - intros n Hn _. by apply Hneg.
  - intros n Hl. destruct (Z.lt_ge_cases n 0) as [Hn|Hn].
    + rewrite (Hneg n Hn). cbn [py_str py_int]. split; [done|].
      rewrite Hint. apply Z.leb_le in Hl. by rewrite Hl.
    + pose proof (Hpos n 0%nat Hn) as H0.
      change (zeros 0 +:+ str_of_int n) with (str_of_int n) in H0.
      rewrite Z.abs_eq in Hl by done.
      change (0 + String.length (str_of_int n))%nat
        with (String.length (str_of_int n)) in H0.
      apply Z.leb_le in Hl. rewrite Hl in H0.
      rewrite H0. cbn [py_str py_int]. by split.
Qed.

(* ===================================================================== *)
(** * The S3 helpers *)
(* ===================================================================== *)

Lemma lstrip_char_startswith c s : startswith c (lstrip_char c s) = false.
Proof.
  unfold lstrip_char. induction s as [|a s IH]; [done|].
  cbn [lstrip_by]. destruct (Ascii.eqb a c) eqn:E; [done|].
  cbn [startswith]. done.
Qed.

Lemma lstrip_char_id c s : startswith c s = false -> lstrip_char c s = s.
Proof.
  unfold lstrip_char. destruct s as [|a s]; [done|].
  cbn [startswith lstrip_by]. by intros ->.
Qed.

Lemma startswith_app c a b :
  a <> "" -> startswith c (a +:+ b) = startswith c a.
Proof. by destruct a. Qed.

Lemma endswith_snoc c s : endswith c (s +:+ String c "") = true.
Proof.
  induction s as [|a s IH]; [apply Ascii.eqb_refl|].
  rewrite str_app_cons. cbn [endswith].
  destruct (s +:+ String c "") eqn:E; [by destruct s|done].
Qed.

Lemma key_prefix_shape env :
  key_prefix env = "" \/ endswith "/" (key_prefix env) = true.
Proof.
  unfold key_prefix.
  destruct (String.eqb_spec (S3._S3_PREFIX env) "") as [->|Hp]; [by left|].
  cbn [orb]. destruct (endswith "/" (S3._S3_PREFIX env)) eqn:E; [by right|].
  right. apply endswith_snoc.
Qed.

Lemma key_prefix_startswith env : startswith "/" (key_prefix env) = false.
Proof.
  unfold key_prefix.
  destruct (String.eqb_spec (S3._S3_PREFIX env) "") as [->|Hp]; [done|].
  cbn [orb]. destruct (endswith "/" (S3._S3_PREFIX env));
    rewrite ?startswith_app by done; apply lstrip_char_startswith.
Qed.

Lemma make_s3_key_prefix env filename :
  S3.make_s3_key env filename = lstrip_char "/" (key_prefix env +:+ filename).
Proof.
  unfold S3.make_s3_key, key_prefix.
  destruct (S3._S3_PREFIX env == ""); [done|].
  by destruct (endswith "/" (S3._S3_PREFIX env)).
Qed.

(** X16. An object key never begins with a slash. It is the file name
    behind the key prefix, which is the configured prefix without its
    leading slashes and closed by a slash, or empty; only when that prefix
    is empty can leading slashes of the file name be lost. With the
    default setting the key is [processed/] followed by the file name. *)
Theorem make_s3_key_shape env filename :
  startswith "/" (S3.make_s3_key env filename) = false
  /\ (key_prefix env = "" \/ endswith "/" (key_prefix env) = true)
  /\ (key_prefix env <> "" \/ startswith "/" filename = false ->
      S3.make_s3_key env filename = key_prefix env +:+ filename)
  /\ (key_prefix env = "" ->
      S3.make_s3_key env filename = lstrip_char "/" filename)
  /\ (env !! "S3_PREFIX" = None ->
      S3.make_s3_key env filename = "processed/" +:+ filename).
Proof.
  rewrite make_s3_key_prefix.
  split; [apply lstrip_char_startswith|].
  split; [apply key_prefix_shape|].
  split; [|split].
  - intros H. apply lstrip_char_id.
    destruct (String.eqb_spec (key_prefix env) "") as [E|E].
    + destruct H as [H|H]; [done|]. by rewrite E.
    + rewrite startswith_app by done. apply key_prefix_startswith.
  - by intros ->.
  - intros H. unfold key_prefix, S3._S3_PREFIX, getenv. by rewrite H.
Qed.

Lemma take_str_length n : forall s, (String.length (take_str n s) <= n)%nat.
Proof.
  induction n as [|n IH]; intros [|c s]; cbn [take_str String.length]; try lia.
  specialize (IH s). lia.
Qed.

Lemma take_drop_str n : forall s, take_str n s +:+ drop_str n s = s.
Proof.
  induction n as [|n IH]; intros [|c s]; try done.
  cbn [take_str drop_str]. by rewrite str_app_cons, IH.
Qed.

Lemma rstrip_by_keep sp c s :
  sp c = false -> rstrip_by sp (String c s) = String c (rstrip_by sp s).
Proof. intros H. cbn [rstrip_by]. rewrite H. by destruct (rstrip_by sp s). Qed.

Lemma rstrip_by_cons sp c s :
  rstrip_by sp s <> "" -> rstrip_by sp (String c s) = String c (rstrip_by sp s).
Proof. intros H. cbn [rstrip_by]. by destruct (rstrip_by sp s). Qed.

Lemma rstrip_by_prefix sp s : exists t, s = rstrip_by sp s +:+ t.
Proof.
  induction s as [|c s [t IH]]; [by exists ""|].
  cbn [rstrip_by]. destruct (rstrip_by sp s) as [|a r] eqn:E.
  - destruct (sp c); [by exists (String c s)|].
    exists s. by rewrite str_app_cons.
  - exists t. rewrite str_app_cons. by rewrite <- IH.
Qed.

Lemma rstrip_char_endswith c s : endswith c (rstrip_char c s) = false.
Proof.
  unfold rstrip_char. induction s as [|a s IH]; [done|].
  cbn [rstrip_by]. destruct (rstrip_by _ s) as [|b r] eqn:E.
  - destruct (Ascii.eqb a c) eqn:Ea; [done|]. cbn [endswith]. done.
  - cbn [endswith] in *. done.
Qed.

Lemma str_length_le_prefix a t : (String.length a <= String.length (a +:+ t))%nat.
Proof. rewrite str_length_app. lia. Qed.

Lemma lower_prefix a : forall t, lower (a +:+ t) = a +:+ t -> lower a = a.
Proof.
  induction a as [|c a IH]; intros t; [done|].
  rewrite str_app_cons. cbn [lower]. intros [= Hc H].
  by rewrite Hc, (IH _ H).
Qed.

Lemma default_bucket_name_prefix env account uuid4_hex :
  exists rest, S3._default_bucket_name env account uuid4_hex = "ffmpeg-poc" +:+ rest.
Proof.
  unfold S3._default_bucket_name.
  set (acct := match account with
               | Some a => a
               | None => take_str 12 uuid4_hex
               end).
  change (lower ("ffmpeg-poc-" +:+ acct +:+ "-" +:+ S3._AWS_REGION env))
    with ("ffmpeg-poc-" +:+ lower (acct +:+ "-" +:+ S3._AWS_REGION env)).
  set (x := lower (acct +:+ "-" +:+ S3._AWS_REGION env)).
  change (take_str 63 ("ffmpeg-poc-" +:+ x))
    with ("ffmpeg-poc" +:+ String "-" (take_str 52 x)).
  unfold rstrip_char.
  change ("ffmpeg-poc" +:+ String "-" (take_str 52 x))
    with (String "f" (String "f" (String "m" (String "p" (String "e"
           (String "g" (String "-" (String "p" (String "o" (String "c"
             (String "-" (take_str 52 x)))))))))))).
  set (sp := fun a : ascii => Ascii.eqb a "-").
  set (r := rstrip_by sp (String "-" (take_str 52 x))).
  assert (rstrip_by sp
            (String "p" (String "o" (String "c" (String "-" (take_str 52 x)))))
          = String "p" (String "o" (String "c" r))) as Hr.
  { by rewrite 3!rstrip_by_keep by done. }
  rewrite 6!rstrip_by_keep by done.
  rewrite (rstrip_by_cons sp "-") by by rewrite Hr.
  rewrite Hr. by exists r.
Qed.

(** X17. The default bucket name has at most 63 characters, does not end
    with a hyphen, is in lower case and begins with [ffmpeg-poc], whatever
    the account identifier and the region are. *)
Theorem default_bucket_name_is_well_formed env account uuid4_hex :
  let b := S3._default_bucket_name env account uuid4_hex in
  (String.length b <= 63)%nat
  /\ endswith "-" b = false
  /\ lower b = b
  /\ exists rest, b = "ffmpeg-poc" +:+ rest.
Proof.
  cbv zeta. unfold S3._default_bucket_name.
  set (acct := match account with
               | Some a => a
               | None => take_str 12 uuid4_hex
               end).
  set (base := lower ("ffmpeg-poc-" +:+ acct +:+ "-" +:+ S3._AWS_REGION env)).
  split; [|split; [|split]].
  - destruct (rstrip_by_prefix (fun a => Ascii.eqb a "-") (take_str 63 base))
      as [t Ht].
    pose proof (take_str_length 63 base) as Hl. rewrite Ht in Hl.
    pose proof (str_length_le_prefix (rstrip_char "-" (take_str 63 base)) t).
    unfold rstrip_char in *. lia.
  - apply rstrip_char_endswith.
  - destruct (rstrip_by_prefix (fun a => Ascii.eqb a "-") (take_str 63 base))
      as [t Ht].
    apply (lower_prefix _ (t +:+ drop_str 63 base)).
    unfold rstrip_char. rewrite <- str_app_assoc, <- Ht, take_drop_str.
    apply lower_idemp.
  - apply default_bucket_name_prefix.
Qed.

Lemma lower_nonempty s : s <> "" -> lower s <> "".
Proof. by destruct s. Qed.

Lemma or_else_nonempty x y s : or_else x y = Some s -> y = None -> s <> "".
Proof.
  unfold or_else. intros H ->. destruct x as [a|]; [|done].
  destruct (String.eqb_spec a ""); [done|]. by injection H as <-.
Qed.

Lemma bucket_name_shape env bucket account uuid4_hex :
  S3.bucket_name env bucket account uuid4_hex <> ""
  /\ lower (S3.bucket_name env bucket account uuid4_hex)
     = S3.bucket_name env bucket account uuid4_hex.
Proof.
  unfold S3.bucket_name. split; [|apply lower_idemp].
  apply lower_nonempty.
  destruct (or_else bucket (or_else (env !! "S3_BUCKET") None)) as [s|] eqn:E;
    cbn [default].
  - change (default (S3._default_bucket_name env account uuid4_hex) (Some s))
      with s.
    unfold or_else at 1 in E. destruct bucket as [b|].
    + destruct (String.eqb_spec b "") as [->|Hb].
      * by apply (or_else_nonempty _ _ _ E).
      * by injection E as <-.
    + by apply (or_else_nonempty _ _ _ E).
  - change (default (S3._default_bucket_name env account uuid4_hex) None)
      with (S3._default_bucket_name env account uuid4_hex).
    destruct (default_bucket_name_prefix env account uuid4_hex) as [r ->].
    done.
Qed.

Lemma bucket_name_given env name account uuid4_hex :
  name <> "" -> lower name = name ->
  S3.bucket_name env (Some name) account uuid4_hex = name.
Proof.
  intros Hn Hl. unfold S3.bucket_name, or_else.
  destruct (String.eqb_spec name ""); [done|]. exact Hl.
Qed.

Lemma ensure_bucket_second env bucket account uuid4_hex buckets
    account' uuid4_hex' :
  let r := S3.ensure_bucket env bucket account uuid4_hex buckets in
  let name := r.1.1 in
  name <> "" /\ lower name = name
  /\ buckets ⊆ r.2
  /\ (S3._CREATE_BUCKET env = true -> name ∈ r.2)
  /\ S3.ensure_bucket env (Some name) account' uuid4_hex' r.2
     = (name,
        if S3._CREATE_BUCKET env
        then [S3.HeadBucket name;
              S3.PutPublicAccessBlock name (S3._BLOCK_PUBLIC env)]
        else [],
        r.2).
Proof.
  cbv zeta.
  destruct (bucket_name_shape env bucket account uuid4_hex) as [Hn Hl].
  set (name := S3.bucket_name env bucket account uuid4_hex) in *.
  pose proof (bucket_name_given env name account' uuid4_hex' Hn Hl) as Hg.
  unfold S3.ensure_bucket. fold name.
  destruct (S3._CREATE_BUCKET env); cbn [negb fst snd].
  - destruct (decide (name ∈ buckets)) as [Hin|Hin]; cbn [fst snd];
      rewrite Hg.
    + do 4 (split; [done|]). by rewrite decide_True.
    + split; [done|]. split; [done|]. split; [set_solver|].
      split; [set_solver|]. by rewrite decide_True by set_solver.
  - by rewrite Hg.
Qed.

(** X18. [ensure_bucket] settles on a name that is not empty and in lower
    case, never removes a bucket, and leaves the bucket in existence when
    creation is switched on. Called again with the name it returned, as
    the endpoint does for the address after the upload, it returns the
    same name and creates nothing, whatever STS answers and whatever
    identifier is drawn that time. *)
Theorem ensure_bucket_again env bucket account uuid4_hex buckets
    account' uuid4_hex' :
  let r := S3.ensure_bucket env bucket account uuid4_hex buckets in
  let name := r.1.1 in
  name <> "" /\ lower name = name
  /\ buckets ⊆ r.2
  /\ (S3._CREATE_BUCKET env = true -> name ∈ r.2)
  /\ S3.ensure_bucket env (Some name) account' uuid4_hex' r.2
     = (name,
        if S3._CREATE_BUCKET env
        then [S3.HeadBucket name;
              S3.PutPublicAccessBlock name (S3._BLOCK_PUBLIC env)]
        else [],
        r.2).
Proof. apply ensure_bucket_second. Qed.

Lemma all_chars_app p a b :
  all_chars p (a +:+ b) = all_chars p a && all_chars p b.
Proof.
  induction a as [|c a IH]; [done|].
  rewrite str_app_cons. cbn [all_chars]. by rewrite IH, andb_assoc.
Qed.

Lemma quote_char_url c : all_chars url_char (quote_char c) = true.
Proof. destruct c as [[] [] [] [] [] [] [] []]; by vm_compute. Qed.

Lemma quote_url s : all_chars url_char (quote s) = true.
Proof.
  induction s as [|c s IH]; [done|].
  cbn [quote]. by rewrite all_chars_app, quote_char_url, IH.
Qed.

Lemma quote_safe_id s : all_chars quote_safe s = true -> quote s = s.
Proof.
  induction s as [|c s IH]; [done|]. cbn [all_chars quote].
  intros H. apply andb_true_iff in H as [Hc Hs].
  unfold quote_char. rewrite Hc, (IH Hs). done.
Qed.

Lemma quote_startswith s :
  startswith "/" s = false -> startswith "/" (quote s) = false.
Proof.
  destruct s as [|c s]; [done|]. cbn [startswith quote].
  unfold quote_char. destruct (quote_safe c); [by rewrite str_app_cons|].
  by rewrite str_app_cons.
Qed.

(** X19. The public address of an object is the base URL, or the address
    of the bucket in its region, one slash, and the quoted key. The base
    URL does not end with a slash and the quoted key of [make_s3_key]
    does not begin with one, so exactly one slash joins them; the quoted
    key holds only letters, digits, the characters [_.-~/] and percent
    escapes, and it is the key itself when the key has no other
    character. *)
Theorem public_address_of_a_key env filename bkt :
  let key := S3.make_s3_key env filename in
  S3.public_address env key bkt
  = (if S3._PUBLIC_BASE_URL env == ""
     then "https://" +:+ bkt +:+ "." +:+ s3_host env
     else S3._PUBLIC_BASE_URL env) +:+ "/" +:+ quote key
  /\ endswith "/" (S3._PUBLIC_BASE_URL env) = false
  /\ startswith "/" (quote key) = false
  /\ all_chars url_char (quote key) = true
  /\ (all_chars quote_safe key = true -> quote key = key).
Proof.
  cbv zeta. split; [|split; [|split; [|split]]].
  - unfold S3.public_address, s3_host.
    destruct (S3._PUBLIC_BASE_URL env == ""); cbn [negb]; [|done].
    by rewrite !str_app_assoc.
  - apply rstrip_char_endswith.
  - apply quote_startswith. rewrite make_s3_key_prefix.
    apply lstrip_char_startswith.
  - apply quote_url.
  - apply quote_safe_id.
Qed.

(* ===================================================================== *)
(** * Paths *)
(* ===================================================================== *)

Lemma rev_app_app a : forall b acc,
  String.rev_app (a +:+ b) acc = String.rev_app b (String.rev_app a acc).
Proof.
  induction a as [|c a IH]; intros b acc; [done|].
  rewrite str_app_cons. cbn [String.rev_app]. apply IH.
Qed.

Lemma rev_app_last a : forall acc c r,
  String.rev_app a acc = String c r ->
  (a = "" /\ acc = String c r) \/ exists a', a = a' +:+ String c "".
Proof.
  induction a as [|x a IH]; intros acc c r; [by left|].
  cbn [String.rev_app]. intros H. right.
  destruct (IH _ _ _ H) as [[-> [= -> _]]|[a' ->]].
  - by exists "".
  - exists (String x a'). by rewrite str_app_cons.
Qed.

Lemma has_name_char_rev_app h : forall acc,
  contains "/" h = false -> has_name_char acc = true ->
  has_name_char (String.rev_app h acc) = true.
Proof.
  induction h as [|c h IH]; intros acc; [done|].
  cbn [contains String.rev_app]. destruct (Ascii.eqb c "/") eqn:E; [done|].
  intros Hh Ha. apply IH; [done|]. cbn [has_name_char]. rewrite E.
  by destruct (Ascii.eqb c ".").
Qed.

Lemma path_join_cases a b :
  startswith "/" b = false ->
  path_join a b = b \/ exists p, path_join a b = p +:+ String "/" b.
Proof.
  intros Hb. unfold path_join.
  assert ((if a == "" then b
           else match String.rev a with
                | String "/" _ => a +:+ b
                | _ => a +:+ "/" +:+ b
                end) = b
          \/ exists p, (if a == "" then b
                        else match String.rev a with
                             | String "/" _ => a +:+ b
                             | _ => a +:+ "/" +:+ b
                             end) = p +:+ String "/" b) as H.
  { destruct (a == ""); [by left|]. right.
    assert (exists p, a +:+ "/" +:+ b = p +:+ String "/" b) as Hs
      by by exists a.
    destruct (String.rev a) as [|c r] eqn:Er; [done|].
    destruct (Ascii.eqb_spec c "/") as [->|Hc].
    - unfold String.rev in Er.
      destruct (rev_app_last _ _ _ _ Er) as [[_ ?]|[a' ->]]; [done|].
      exists a'. by rewrite str_app_assoc.
    - destruct c as [[] [] [] [] [] [] [] []]; try exact Hs. done. }
  destruct b as [|c b']; [exact H|].
  cbn [startswith] in Hb.
  destruct c as [[] [] [] [] [] [] [] []]; try exact H. discriminate.
Qed.

Lemma basename_no_slash x : contains "/" x = false -> basename x = x.
Proof. destruct x as [|c x]; [done|]. cbn [basename]. by intros ->. Qed.

Lemma basename_app_slash a x :
  contains "/" x = false -> basename (a +:+ String "/" x) = x.
Proof.
  intros Hx. induction a as [|c a IH].
  - change ("" +:+ String "/" x) with (String "/" x).
    cbn [basename contains]. change (Ascii.eqb "/" "/") with true. cbv iota.
    by apply basename_no_slash.
  - rewrite str_app_cons. cbn [basename].
    change (String c (a +:+ String "/" x)) with (String c a +:+ String "/" x).
    by rewrite contains_app_sep.
Qed.

Lemma basename_path_join a b :
  startswith "/" b = false -> contains "/" b = false ->
  basename (path_join a b) = b.
Proof.
  intros Hs Hc. destruct (path_join_cases a b Hs) as [->|[p ->]].
  - by apply basename_no_slash.
  - by apply basename_app_slash.
Qed.

Lemma contains_app c a b :
  contains c (a +:+ b) = contains c a || contains c b.
Proof.
  induction a as [|x a IH]; [done|].
  rewrite str_app_cons. cbn [contains]. rewrite IH.
  by destruct (Ascii.eqb x c).
Qed.

Lemma contains_take_str c n : forall s,
  contains c s = false -> contains c (take_str n s) = false.
Proof.
  induction n as [|n IH]; intros [|x s]; try done.
  cbn [contains take_str]. destruct (Ascii.eqb x c); [done|]. apply IH.
Qed.


Lemma scan_ext_rev_app e : forall z acc,
  contains "." e = false -> contains "/" e = false ->
  scan_ext (String.rev_app e z) acc = scan_ext z (e +:+ acc).
Proof.
  induction e as [|c e IH]; intros z acc; [done|].
  cbn [contains String.rev_app].
  destruct (Ascii.eqb c ".") eqn:Ed; [done|].
  destruct (Ascii.eqb c "/") eqn:Es; [done|].
  intros H1 H2. rewrite (IH _ _ H1 H2). cbn [scan_ext].
  by rewrite Ed, Es.
Qed.

(** The extension of a path that ends with [stem.e], when the stem holds a
    character other than a dot behind the last slash. *)
Lemma splitext_ext_dot p stem e :
  contains "." e = false -> contains "/" e = false ->
  (forall r, has_name_char (String.rev_app stem r) = true) ->
  splitext_ext (p +:+ stem +:+ String "." e) = String "." e.
Proof.
  intros Hd Hs Hn. unfold splitext_ext, String.rev.
  rewrite !rev_app_app. cbn [String.rev_app].
  rewrite (scan_ext_rev_app _ _ _ Hd Hs). cbn [scan_ext].
  change (Ascii.eqb "." ".") with true. cbv iota.
  by rewrite Hn, str_app_nil_r.
Qed.

Lemma stem_has_name_char x h r :
  contains "/" h = false ->
  has_name_char (String.rev_app x r) = true ->
  has_name_char (String.rev_app (x +:+ h) r) = true.
Proof.
  intros Hh Hx. rewrite rev_app_app. by apply has_name_char_rev_app.
Qed.

Lemma path_join_prefix a b :
  startswith "/" b = false -> exists p, path_join a b = p +:+ b.
Proof.
  intros Hb. destruct (path_join_cases a b Hb) as [->|[p ->]].
  - by exists "".
  - exists (p +:+ "/"). by rewrite str_app_assoc.
Qed.

(* ===================================================================== *)
(** * The endpoints *)
(* ===================================================================== *)

Lemma cpu_deliver_delivers uuid4_hex tmpdir c st ct :
  ext_inv st ->
  exists d, In d (deliverables uuid4_hex)
            /\ delivers tmpdir
                 (CPU.deliver uuid4_hex tmpdir c (forced_ext st) ct (is_hls st)) d.
Proof.
  intros Hinv. unfold CPU.deliver, delivers.
  destruct (is_hls st) eqn:Eh.
  { eexists (_, _, _). split; [do 4 right; left; reflexivity|by split]. }
  pose proof (single_file_not_m3u8 st Hinv Eh) as Hn. cbv zeta in Hn.
  pose proof (cpu_container_cases (ext_or_mp4 (forced_ext st))) as Hc.
  cbv zeta in Hc. rewrite Hn in Hc.
  destruct (CPU._choose_container_and_codecs (ext_or_mp4 (forced_ext st)))
    as [container codec_args].
  cbn [fst] in Hc. destruct Hc as [[_ ?]|[_ Hc]]; [done|].
  destruct Hc as [->|[->|[->| ->]]]; eexists (_, _, _).
  - split; [left; reflexivity|by split].
  - split; [right; left; reflexivity|by split].
  - split; [do 2 right; left; reflexivity|by split].
  - split; [do 3 right; left; reflexivity|by split].
Qed.

Lemma gpu_deliver_delivers cfg uuid4_hex tmpdir c st ct vfc :
  ext_inv st ->
  exists d, In d (deliverables uuid4_hex)
            /\ delivers tmpdir
                 (GPU.deliver cfg uuid4_hex tmpdir c (forced_ext st) ct
                    (is_hls st) vfc) d.
Proof.
  intros Hinv. unfold GPU.deliver, delivers. rewrite (gpu_hls_test st Hinv).
  destruct (is_hls st) eqn:Eh.
  { eexists (_, _, _). split; [do 4 right; left; reflexivity|by split]. }
  pose proof (single_file_not_m3u8 st Hinv Eh) as Hn. cbv zeta in Hn.
  pose proof (gpu_container_cases cfg (ext_or_mp4 (forced_ext st))) as Hc.
  cbv zeta in Hc. rewrite Hn in Hc.
  destruct (GPU._choose_container_and_codecs cfg (ext_or_mp4 (forced_ext st)))
    as [container codec_args].
  cbn [fst] in Hc. destruct Hc as [[_ ?]|[_ Hc]]; [done|].
  destruct Hc as [->|[->|[->| ->]]]; eexists (_, _, _).
  - split; [left; reflexivity|by split].
  - split; [right; left; reflexivity|by split].
  - split; [do 2 right; left; reflexivity|by split].
  - split; [do 3 right; left; reflexivity|by split].
Qed.

Lemma cpu_job_delivers cfg path_exists uuid4_hex in_path ops tmpdir out :
  CPU.process_video cfg path_exists uuid4_hex in_path ops tmpdir = Ok out ->
  exists d, In d (deliverables uuid4_hex) /\ delivers tmpdir out d.
Proof.
  intros H. destruct (cpu_process_video_ok _ _ _ _ _ _ _ H) as [st Hst].
  destruct (cpu_process_video_cmd cfg path_exists uuid4_hex in_path ops
              tmpdir st Hst) as (r & ct & Hout).
  rewrite H in Hout. injection Hout as ->.
  apply cpu_deliver_delivers.
  eapply cpu_run_inv; [exact Hst|apply init_state_inv].
Qed.

Lemma gpu_job_delivers cfg path_exists uuid4_hex in_path ops tmpdir out :
  GPU.process_video cfg path_exists uuid4_hex in_path ops tmpdir = Ok out ->
  exists d, In d (deliverables uuid4_hex) /\ delivers tmpdir out d.
Proof.
  intros H.
  destruct (gpu_process_video_ok _ _ _ _ _ _ _ H) as (c0 & st & Hb & Hst).
  rewrite (gpu_process_video_eq _ path_exists uuid4_hex _ _ tmpdir _ _
             Hb Hst) in H.
  injection H as <-.
  apply gpu_deliver_delivers.
  eapply gpu_run_inv; [exact Hst|apply init_state_inv].
Qed.

(** The names of the deliverables: no slash, and the extension behind the
    last dot. *)
Lemma deliverable_name uuid4_hex d :
  (forall n, contains "/" (uuid4_hex n) = false) ->
  In d (deliverables uuid4_hex) ->
  startswith "/" d.1.1 = false /\ contains "/" d.1.1 = false
  /\ (forall p, splitext_ext (p +:+ d.1.1) = String "." d.1.2)
  /\ d.1.2 <> "" /\ startswith "." d.1.2 = false.
Proof.
  intros Hu Hin. unfold deliverables in Hin. cbn [In] in Hin.
  assert (forall r, has_name_char
                      (String.rev_app ("out-" +:+ uuid4_hex 0%nat) r) = true)
    as Hout.
  { intros r. by apply stem_has_name_char. }
  assert (forall r, has_name_char
                      (String.rev_app ("hls_" +:+ take_str 8 (uuid4_hex 1%nat)) r)
                    = true) as Hhls.
  { intros r. apply stem_has_name_char; [|done]. by apply contains_take_str. }
  destruct Hin as [<-|[<-|[<-|[<-|[<-|[]]]]]]; cbn [fst snd];
    (split; [done|]); (split; [|split; [|done]]).
  - rewrite !contains_app, Hu. done.
  - intros p. rewrite <- (str_app_assoc "out-").
    by apply splitext_ext_dot.
  - rewrite !contains_app, Hu. done.
  - intros p. rewrite <- (str_app_assoc "out-").
    by apply splitext_ext_dot.
  - rewrite !contains_app, Hu. done.
  - intros p. rewrite <- (str_app_assoc "out-").
    by apply splitext_ext_dot.
  - rewrite !contains_app, Hu. done.
  - intros p. rewrite <- (str_app_assoc "out-").
    by apply splitext_ext_dot.
  - rewrite !contains_app, contains_take_str by done. done.
  - intros p. rewrite <- (str_app_assoc "hls_").
    by apply splitext_ext_dot.
Qed.

Lemma uploads_app a b : uploads (a ++ b) = uploads a ++ uploads b.
Proof. apply flat_map_app. Qed.

Lemma creations_app a b : creations (a ++ b) = creations a ++ creations b.
Proof. apply flat_map_app. Qed.

Lemma uploads_jobs l : uploads (map Job l) = [].
Proof. induction l as [|e l IH]; [done|]. exact IH. Qed.

Lemma creations_jobs l : creations (map Job l) = [].
Proof. induction l as [|e l IH]; [done|]. exact IH. Qed.

Lemma ensure_bucket_calls env bucket account uuid4_hex buckets :
  uploads (map S3Call (S3.ensure_bucket env bucket account uuid4_hex buckets).1.2)
  = []
  /\ (length (creations
                (map S3Call
                   (S3.ensure_bucket env bucket account uuid4_hex buckets).1.2))
      <= 1)%nat.
Proof.
  unfold S3.ensure_bucket. destruct (negb (S3._CREATE_BUCKET env)).
  - cbn. split; [done|lia].
  - destruct (decide (_ ∈ buckets)); cbn; (split; [done|lia]).
Qed.

Lemma upload_file_eq env p k ct cc acl account uuid4_hex buckets :
  exists extra,
    In ("ContentType", ct) extra
    /\ S3.upload_file env p k ct cc acl account uuid4_hex buckets
       = let r := S3.ensure_bucket env None account uuid4_hex buckets in
         (r.1.1, r.1.2 ++ [S3.UploadFile p r.1.1 k extra], r.2).
Proof.
  unfold S3.upload_file.
  destruct (S3.ensure_bucket env None account uuid4_hex buckets)
    as [[bkt calls] bs].
  eexists. split; [|reflexivity]. by left.
Qed.

(** X20. The endpoint of the S3 variant answers a job that yields a
    result with the extension and the content type of what the job
    delivered (mp4, webm, mkv, gif or zip with its type), stores it under
    the key made of the identifier drawn and that extension, in one upload
    of the delivered file with that content type to the bucket it names in
    the answer, creates at most one bucket, and removes the working
    directory last. A job that fails is answered with status 500 after
    the directory is removed, without any call to S3. *)
Theorem s3_endpoint_answer cfg path_exists env generate_presigned_url
    presign_expires op ops tmpdir in_uuid uuid4_hex key_uuid account
    bucket_uuid buckets :
  (forall n, contains "/" (uuid4_hex n) = false) ->
  let r := CPUMain.process_video_endpoint cfg path_exists env
             generate_presigned_url presign_expires op ops tmpdir in_uuid
             uuid4_hex key_uuid account bucket_uuid buckets in
  last r.1 = Some (RmTree tmpdir)
  /\ ((exists e,
         r = ([Save (path_join tmpdir ("in-" +:+ in_uuid)); RmTree tmpdir],
              HTTPException 500 e))
      \/ exists d b extra,
           In d (deliverables uuid4_hex)
           /\ r.2 = JSONResponse b
           /\ ext b = d.1.2 /\ contentType b = d.2
           /\ bucketKey b = S3.make_s3_key env (key_uuid +:+ "." +:+ d.1.2)
           /\ uploads r.1
              = [(path_join tmpdir d.1.1, bucket b, bucketKey b, extra)]
           /\ In ("ContentType", d.2) extra
           /\ (length (creations r.1) <= 1)%nat).
Proof.
  intros Hu. cbv zeta. unfold CPUMain.process_video_endpoint.
  destruct (CPU.process_video cfg path_exists uuid4_hex
              (path_join tmpdir ("in-" +:+ in_uuid))
              (CPU.parse_ops_query (query_values op ops)) tmpdir)
    as [out|e] eqn:E.
  2:{ split; [done|]. left. by exists e. }
  destruct (cpu_job_delivers _ _ _ _ _ _ _ E) as (d & Hd & Hp & Hm).
  destruct (deliverable_name uuid4_hex d Hu Hd) as (Hs & Hc & He & Hne & Hdot).
  destruct (path_join_prefix tmpdir d.1.1 Hs) as [p Hpj].
  assert (CPUMain.ext_of (out_path out) = d.1.2) as Hext.
  { unfold CPUMain.ext_of. rewrite Hp, Hpj, He.
    change (lstrip_char "." (String "." d.1.2)) with (lstrip_char "." d.1.2).
    rewrite (lstrip_char_id _ _ Hdot).
    by destruct (String.eqb_spec d.1.2 ""). }
  rewrite Hext.
  set (key := S3.make_s3_key env (key_uuid +:+ "." +:+ d.1.2)).
  destruct (upload_file_eq env (out_path out) key (media_type out)
              (Some "public,max-age=31536000,immutable") (S3._AWS_ACL env)
              account bucket_uuid buckets) as (extra & Hex & ->).
  cbv zeta.
  set (r1 := S3.ensure_bucket env None account bucket_uuid buckets).
  cbn [fst snd].
  destruct (ensure_bucket_calls env None account bucket_uuid buckets)
    as [Hup1 Hcr1]. fold r1 in Hup1, Hcr1.
  destruct (ensure_bucket_second env None account bucket_uuid buckets
              account bucket_uuid) as (_ & _ & _ & _ & H2).
  fold r1 in H2.
  set (addr := if S3.should_return_public_url env
               then S3.public_url env key (Some r1.1.1) account bucket_uuid r1.2
               else S3.presign_get_url env generate_presigned_url
                      presign_expires key None (Some r1.1.1) account
                      bucket_uuid r1.2).
  assert (uploads (map S3Call addr.1.2) = []
          /\ creations (map S3Call addr.1.2) = []) as [Hup2 Hcr2].
  { subst addr. unfold S3.public_url, S3.presign_get_url. rewrite H2.
    destruct (S3.should_return_public_url env), (S3._CREATE_BUCKET env);
      by cbn. }
  split.
  { by rewrite !app_assoc, last_snoc. }
  right. eexists d, _, extra. split; [done|].
  split; [reflexivity|]. cbn [ext contentType bucketKey bucket].
  split; [done|]. split; [done|]. split; [done|].
  rewrite !uploads_app, !creations_app, uploads_jobs, creations_jobs.
  rewrite map_app, uploads_app, creations_app, Hup1, Hup2, Hcr2, Hp.
  rewrite Hm in Hex.
  cbn [uploads creations map flat_map app]. rewrite !app_nil_r.
  split; [done|]. split; [done|]. exact Hcr1.
Qed.

Lemma s3_endpoint_answer_witness :
  last (CPUMain.process_video_endpoint default_config no_files ∅
          (fun _ _ _ => "signed") 900 (Some ["format:type=gif"]) None
          "/tmp/ffx" "aa" (fun _ => "0123456789abcdef") "k1" None "bb" ∅).1
  = Some (RmTree "/tmp/ffx").
Proof.
  apply (s3_endpoint_answer default_config no_files ∅
           (fun _ _ _ => "signed") 900 (Some ["format:type=gif"]) None
           "/tmp/ffx" "aa" (fun _ => "0123456789abcdef") "k1" None "bb" ∅).
  intros n. reflexivity.
Defined.

Lemma file_endpoint_reply parse process tmpdir in_uuid uuid4_hex op ops :
  (forall n, contains "/" (uuid4_hex n) = false) ->
  (forall in_path l out,
     process uuid4_hex in_path l tmpdir = Ok out ->
     exists d, In d (deliverables uuid4_hex) /\ delivers tmpdir out d) ->
  let r := Main.process_video_endpoint parse process op ops tmpdir in_uuid
             uuid4_hex in
  last r.1 = Some (RmTree tmpdir)
  /\ ((exists e,
         r = ([Save (path_join tmpdir ("in-" +:+ in_uuid)); RmTree tmpdir],
              HTTPException 500 e))
      \/ exists d,
           In d (deliverables uuid4_hex)
           /\ r.2 = FileResponse (path_join tmpdir d.1.1) d.2 d.1.1).
Proof.
  intros Hu Hjob. cbv zeta. unfold Main.process_video_endpoint.
  destruct (process uuid4_hex (path_join tmpdir ("in-" +:+ in_uuid))
              (parse (query_values op ops)) tmpdir) as [out|e] eqn:E.
  2:{ split; [done|]. left. by exists e. }
  destruct (Hjob _ _ _ E) as (d & Hd & Hp & Hm).
  destruct (deliverable_name uuid4_hex d Hu Hd) as (Hs & Hc & _).
  cbn [fst snd]. split.
  { by rewrite !app_assoc, last_snoc. }
  right. exists d. split; [done|].
  by rewrite Hp, Hm, (basename_path_join _ _ Hs Hc).
Qed.

(** X21. The endpoint that sends the file back answers a job that yields
    a result, with either service module, with the delivered file under
    its own name in the working directory: [out-], the identifier and the
    container as extension, or [hls_], eight characters of the identifier
    and [.zip], never a name chosen by the client; the content type is
    the one of that extension, and the working directory is removed
    last. A job that fails is answered with status 500. *)
Theorem file_endpoint_answer cfg path_exists tmpdir in_uuid uuid4_hex op ops :
  (forall n, contains "/" (uuid4_hex n) = false) ->
  (let r := Main.process_video_endpoint CPU.parse_ops_query
              (CPU.process_video cfg path_exists) op ops tmpdir in_uuid
              uuid4_hex in
   last r.1 = Some (RmTree tmpdir)
   /\ ((exists e,
          r = ([Save (path_join tmpdir ("in-" +:+ in_uuid)); RmTree tmpdir],
               HTTPException 500 e))
       \/ exists d,
            In d (deliverables uuid4_hex)
            /\ r.2 = FileResponse (path_join tmpdir d.1.1) d.2 d.1.1))
  /\ (let r := Main.process_video_endpoint GPU.parse_ops_query
                 (GPU.process_video cfg path_exists) op ops tmpdir in_uuid
                 uuid4_hex in
      last r.1 = Some (RmTree tmpdir)
      /\ ((exists e,
             r = ([Save (path_join tmpdir ("in-" +:+ in_uuid)); RmTree tmpdir],
                  HTTPException 500 e))
          \/ exists d,
               In d (deliverables uuid4_hex)
               /\ r.2 = FileResponse (path_join tmpdir d.1.1) d.2 d.1.1)).
Proof.
  intros Hu. split.
  - apply file_endpoint_reply; [done|]. intros in_path l out.
    apply cpu_job_delivers.
  - apply file_endpoint_reply; [done|]. intros in_path l out.
    apply gpu_job_delivers.
Qed.

Lemma file_endpoint_answer_witness :
  last (Main.process_video_endpoint GPU.parse_ops_query
          (GPU.process_video default_config no_files)
          (Some ["format:type=hls"]) (Some ["fps:value=24"]) "/tmp/ffx" "aa"
          (fun _ => "0123456789abcdef")).1
  = Some (RmTree "/tmp/ffx").
Proof.
  apply (file_endpoint_answer default_config no_files "/tmp/ffx" "aa"
           (fun _ => "0123456789abcdef") (Some ["format:type=hls"])
           (Some ["fps:value=24"])).
  intros n. reflexivity.
Defined.
